(** * random-quran-verse: verse card rendering and settings metadata

    A shallow embedding of the two stateful parts of the plugin:
    - [VerseFetcher]: the [renderVerse] closure of [src/main.ts]
      (code-block processor registered in [QuranPlugin.onload]);
    - [MetadataResolver]: [QuranSettingTab] of [src/settings.ts]
      ([fetchMetadata], [fetchLanguages], [fetchTranslationEditions],
      [fetchAndProcessTafsirs], [getFullLanguageName], the dropdown
      handlers of [display]).

    Further modules follow these two: [VerseCycle] (the render and retry
    cycle of a card as a whole), [SettingsPanel] (calls and notices of a
    refresh, the edition dropdowns), [Refresh] ([fetchMetadata] cut at
    its awaits, with the invocations suspended on a tab), [Commentary]
    (the click handler of the tafsir button, [src/main.ts]), [Guards]
    (the type guards of the response bodies) and [Colors]
    ([resolveColor]), both of [src/settings.ts].

    Values read from a plain object are strings or what every object
    inherits from [Object.prototype] ([JsName], [PlainObject]); the
    sort, the search and the filter that call a string method on such a
    value raise as the code does.

    JavaScript text that is indexed by position (the glyph table of
    [toArabicDigits], verse text) is a list of UTF-16 code units; plain
    identifiers (edition ids, language codes) are [string]s. *)

From Stdlib Require Import ZArith NArith Lia Sorted Decimal DecimalFacts DecimalPos.
From Stdlib Require DecimalN HexadecimalPos.
From stdpp Require Import base option list strings gmap.

#[local] Open Scope Z_scope.

(** ** JavaScript text as UTF-16 code units *)

Module JsText.

(** One UTF-16 code unit. *)
Definition unit16 := N.
Definition ustring := list unit16.

(** Digits of a [Decimal.uint], in the order they are stored. *)
Fixpoint uintDigits (d : Decimal.uint) : list N :=
  match d with
  | Nil => []
  | D0 d => 0%N :: uintDigits d
  | D1 d => 1%N :: uintDigits d
  | D2 d => 2%N :: uintDigits d
  | D3 d => 3%N :: uintDigits d
  | D4 d => 4%N :: uintDigits d
  | D5 d => 5%N :: uintDigits d
  | D6 d => 6%N :: uintDigits d
  | D7 d => 7%N :: uintDigits d
  | D8 d => 8%N :: uintDigits d
  | D9 d => 9%N :: uintDigits d
  end.

(** Decimal digits of a natural number, most significant first. *)
Definition decimalDigits (n : N) : list N := uintDigits (N.to_uint n).

(** The code unit of the ASCII digit with value [d]. *)
Definition digitUnit (d : N) : unit16 := (48 + d)%N.

(** U+002D, the minus sign of a negative number's rendering. *)
Definition minusUnit : unit16 := 45%N.

(** [Number.prototype.toString()] on a safe integer, one of magnitude
    below 2^53: the decimal digits, with a sign.  Beyond that a number
    is rendered from the nearest double, and with an exponent from 1e21
    on; what is proved of the digits of a number is stated below 2^53. *)
Definition toString (num : Z) : ustring :=
  match num with
  | Z0 => [digitUnit 0]
  | Zpos p => digitUnit <$> decimalDigits (Npos p)
  | Zneg p => minusUnit :: (digitUnit <$> decimalDigits (Npos p))
  end.

(** Value of a digit sequence, most significant digit first. *)
Definition fromDigits (ds : list N) : N :=
  fold_left (fun acc d => (10 * acc + d)%N) ds 0%N.

(** The digit [r] put in front of a [Decimal.uint]. *)
Definition consDigit (r : N) (d : Decimal.uint) : Decimal.uint :=
  match r with
  | 0 => D0 d | 1 => D1 d | 2 => D2 d | 3 => D3 d | 4 => D4 d
  | 5 => D5 d | 6 => D6 d | 7 => D7 d | 8 => D8 d | _ => D9 d
  end%N.

End JsText.

Import JsText.

(** ** Digit transliteration ([toArabicDigits], main.ts) *)

Module ArabicDigits.

(** [const digits = "٠١٢٣٤٥٦٧٨٩"]: U+0660 .. U+0669. *)
Definition digits : ustring :=
  [0x660; 0x661; 0x662; 0x663; 0x664; 0x665; 0x666; 0x667; 0x668; 0x669]%N.

(** The regular expression [\d]: one of the code units of [0-9]. *)
Definition isDigit (c : unit16) : bool := ((48 <=? c) && (c <=? 57))%N.

(** [parseInt(d)] on a one-unit string; [None] is NaN. *)
Definition parseInt (d : unit16) : option N :=
  if isDigit d then Some (d - 48)%N else None.

(** The replacer [(d) => digits[parseInt(d)] ?? d]. *)
Definition replacer (d : unit16) : unit16 :=
  match parseInt d with
  | Some i => default d (digits !! N.to_nat i)
  | None => d
  end.

(** [s.replace(/\d/g, replacer)]. *)
Definition replaceDigits (s : ustring) : ustring :=
  (fun c => if isDigit c then replacer c else c) <$> s.

Definition toArabicDigits (num : Z) : ustring :=
  replaceDigits (toString num).

(** The [d]-th glyph of the table. *)
Definition glyph (d : N) : unit16 := default 0%N (digits !! N.to_nat d).

End ArabicDigits.

(** ** The verse card ([renderVerse], main.ts)

    One [World] is one rendering surface: the element [el] and the
    context [ctx] the host hands to the code-block processor, with the
    closures [renderVerse] creates over them.  [renderVerse] is an
    [async] function; it is cut at its two [await]s into [renderVerse]
    (up to the first request), [onLookup] (up to [Promise.all]) and
    [onEditions] (the rest), so that timers, clicks and teardown can
    interleave with a suspended invocation the way the event loop allows.

    The host library is not part of the repository; its contract is
    taken as: [ctx.addChild] registers a child whose [onunload] runs when
    the section is unloaded, and a torn-down section is detached from the
    document.  The tafsir and link buttons of the footer do not take part
    in the render/retry cycle and are left out here; the handler of the
    tafsir button is the subject of [Commentary]. *)

Module VerseFetcher.

Import ArabicDigits.

(** [interface AyahData] and [interface ApiResponse]. *)
Record Surah := {
  surah_number : Z;
  surah_name : ustring;
  englishName : ustring
}.

Record EditionInfo := {
  identifier : string;
  language : string;
  name : ustring;
  direction : option string
}.

Record AyahData := {
  number : Z;
  text : ustring;
  numberInSurah : Z;
  surah : Surah;
  edition : EditionInfo
}.

(** [as ApiResponse] is an unchecked cast: [data = None] is a payload
    without [data], on which any field access raises a TypeError. *)
Record ApiResponse := {
  code : Z;
  status : string;
  data : option AyahData
}.

(** The three calls of [requestUrl]. *)
Inductive Request :=
| AyahByNumber (n : Z)
| AyahInEdition (n : Z) (ed : string).

#[global] Instance Request_eq_dec : EqDecision Request.
Proof. solve_decision. Defined.

(** The index a request is keyed by. *)
Definition key (q : Request) : Z :=
  match q with
  | AyahByNumber n => n
  | AyahInEdition n _ => n
  end.

Definition units (s : string) : ustring :=
  Ascii.N_of_ascii <$> String.list_ascii_of_string s.

(** The template strings passed to [requestUrl]. *)
Definition url (q : Request) : ustring :=
  match q with
  | AyahByNumber n =>
      units "https://api.alquran.cloud/v1/ayah/" ++ toString n
  | AyahInEdition n ed =>
      units "https://api.alquran.cloud/v1/ayah/" ++ toString n
        ++ units "/" ++ units ed
  end.

(** Outcome of one [requestUrl] promise. *)
Inductive Reply :=
| Rejected
| Resolved (json : ApiResponse).

(** Children of the card's container. *)
Inductive Node :=
| Header
| SkeletonArabic
| SkeletonDivider
| SkeletonEnglish
| SkeletonMeta
| QuranArabic (t : ustring)
| QuranTranslation (rtl : bool) (t : ustring)
| Footer (meta : ustring).

#[global] Instance Node_eq_dec : EqDecision Node.
Proof. solve_decision. Defined.

Definition isSkeleton (n : Node) : bool :=
  match n with
  | SkeletonArabic | SkeletonDivider | SkeletonEnglish | SkeletonMeta => true
  | _ => false
  end.

Definition isFooter (n : Node) : bool :=
  match n with Footer _ => true | _ => false end.

(** Verse content: anything that is neither the header nor a skeleton. *)
Definition isContent (n : Node) : bool :=
  match n with
  | QuranArabic _ | QuranTranslation _ _ | Footer _ => true
  | _ => false
  end.

(** The card as [renderVerse] builds it before the [try]. *)
Definition loadingCard : list Node :=
  [Header; SkeletonArabic; SkeletonDivider; SkeletonEnglish; SkeletonMeta].

(** A pending [window.setTimeout]: when it is due and the container its
    callback closes over. *)
Record Timer := {
  due : Z;
  owner : nat
}.

(** Where a suspended [renderVerse] waits. *)
Inductive Phase :=
| AwaitLookup
| AwaitEditions.

Record World := {
  now : Z;                       (* milliseconds *)
  connected : bool;              (* [el] is attached to the document *)
  mounted : option nat;          (* the container that is [el]'s child *)
  cards : gmap nat (list Node);  (* children of each container created *)
  tasks : gmap nat Phase;        (* suspended invocations, by container *)
  timers : gmap nat Timer;       (* pending timeouts, by timeout id *)
  cleanups : list nat;           (* [ctx] children: timeout id to clear *)
  loaded : bool;                 (* [ctx] has not been unloaded *)
  requests : list Request;       (* calls of [requestUrl], oldest first *)
  translation : string;          (* [this.settings.translation] *)
  next : nat                     (* next fresh container or timeout id *)
}.

Definition set_cards (f : gmap nat (list Node) → gmap nat (list Node)) (w : World) : World :=
  {| now := now w; connected := connected w; mounted := mounted w;
     cards := f (cards w); tasks := tasks w; timers := timers w;
     cleanups := cleanups w; loaded := loaded w; requests := requests w;
     translation := translation w; next := next w |}.

Definition set_tasks (f : gmap nat Phase → gmap nat Phase) (w : World) : World :=
  {| now := now w; connected := connected w; mounted := mounted w;
     cards := cards w; tasks := f (tasks w); timers := timers w;
     cleanups := cleanups w; loaded := loaded w; requests := requests w;
     translation := translation w; next := next w |}.

Definition set_timers (f : gmap nat Timer → gmap nat Timer) (w : World) : World :=
  {| now := now w; connected := connected w; mounted := mounted w;
     cards := cards w; tasks := tasks w; timers := f (timers w);
     cleanups := cleanups w; loaded := loaded w; requests := requests w;
     translation := translation w; next := next w |}.

Definition issue (qs : list Request) (w : World) : World :=
  {| now := now w; connected := connected w; mounted := mounted w;
     cards := cards w; tasks := tasks w; timers := timers w;
     cleanups := cleanups w; loaded := loaded w;
     requests := requests w ++ qs;
     translation := translation w; next := next w |}.

(** [container.isConnected] for the container [c]. *)
Definition isConnected (c : nat) (w : World) : bool :=
  connected w && bool_decide (mounted w = Some c).

(** [node.remove()] on the four skeleton elements. *)
Definition removeSkeletons (c : nat) : World → World :=
  set_cards (alter (filter (λ n, isSkeleton n = false)) c).

(** [container.createDiv(...)] after the header and skeletons exist. *)
Definition appendNode (c : nat) (n : Node) : World → World :=
  set_cards (alter (λ l, l ++ [n]) c).

(** [renderVerse] up to the first [await]: [el.empty()], the new
    container with header and skeletons, and the lookup of the random
    reference.  [r] is [Math.floor(Math.random() * 6236)]. *)
Definition renderVerse (r : Z) (w : World) : World :=
  let c := next w in
  {| now := now w; connected := connected w;
     mounted := Some c;
     cards := <[c := loadingCard]> (cards w);
     tasks := <[c := AwaitLookup]> (tasks w);
     timers := timers w; cleanups := cleanups w; loaded := loaded w;
     requests := requests w ++ [AyahByNumber (r + 1)];
     translation := translation w;
     next := S c |}.

(** The [catch] block: a timeout of 5000 ms whose callback re-renders
    if the container is still connected, and a child of [ctx] whose
    [onunload] clears that timeout. *)
Definition scheduleRetry (c : nat) (w : World) : World :=
  let t := next w in
  {| now := now w; connected := connected w; mounted := mounted w;
     cards := cards w; tasks := tasks w;
     timers := <[t := {| due := now w + 5000; owner := c |}]> (timers w);
     cleanups := cleanups w ++ [t];
     loaded := loaded w; requests := requests w;
     translation := translation w;
     next := S t |}.

(** Result of running a piece of the [try] block. *)
Inductive Completion :=
| Normal (w : World)
| Thrown (w : World).

(** [try { body } catch (err) { ... }] closing an invocation on [c]. *)
Definition tryCatch (c : nat) (body : Completion) : World :=
  match body with
  | Normal w => w
  | Thrown w => scheduleRetry c (set_tasks (delete c) w)
  end.

(** From the first [await] to [Promise.all]. *)
Definition lookupBody (c : nat) (rep : Reply) (w : World) : Completion :=
  match rep with
  | Rejected => Thrown w
  | Resolved randomJson =>
      if bool_decide (code randomJson ≠ 200) then Thrown w
      else match data randomJson with
           | None => Thrown w
           | Some d =>
               let reference := number d in
               Normal (set_tasks (<[c := AwaitEditions]>)
                 (issue [AyahInEdition reference "quran-uthmani";
                         AyahInEdition reference (translation w)] w))
           end
  end.

Definition onLookup (c : nat) (rep : Reply) (w : World) : World :=
  tryCatch c (lookupBody c rep w).

(** [' ۝']: a space and U+06DD. *)
Definition endOfAyah : ustring := [32; 0x6DD]%N.

Definition arabicText (arData : AyahData) : ustring :=
  text arData ++ endOfAyah ++ toArabicDigits (numberInSurah arData).

Definition isTranslationRtl (trData : AyahData) : bool :=
  bool_decide (direction (edition trData) = Some "rtl"%string).

(** The footer's [quran-meta] line. *)
Definition metaText (trData : AyahData) : ustring :=
  [0x2014; 32]%N ++ englishName (surah trData) ++ units " ("
    ++ toString (surah_number (surah trData)) ++ units "), Ayah "
    ++ toString (numberInSurah trData).

(** From [Promise.all] to the end of the [try] block.  The joint wait
    rejects as soon as one of the two requests does. *)
Definition editionsBody (c : nat) (ar tr : Reply) (w : World) : Completion :=
  match ar, tr with
  | Resolved arJson, Resolved trJson =>
      if bool_decide (code arJson ≠ 200) || bool_decide (code trJson ≠ 200)
      then Thrown w
      else
        let w1 := removeSkeletons c w in
        match data arJson with
        | None => Thrown w1
        | Some arData =>
            let w2 := appendNode c (QuranArabic (arabicText arData)) w1 in
            match data trJson with
            | None => Thrown w2
            | Some trData =>
                Normal (set_tasks (delete c)
                  (appendNode c (Footer (metaText trData))
                    (appendNode c
                      (QuranTranslation (isTranslationRtl trData) (text trData))
                      w2)))
            end
        end
  | _, _ => Thrown w
  end.

Definition onEditions (c : nat) (ar tr : Reply) (w : World) : World :=
  tryCatch c (editionsBody c ar tr w).

(** The timeout callback [() => { if (container.isConnected) void renderVerse(); }]. *)
Definition retryCallback (c : nat) (r : Z) (w : World) : World :=
  if isConnected c w then renderVerse r w else w.

(** [window.clearTimeout(timeoutId)]. *)
Definition clearTimeout (t : nat) : World → World :=
  set_timers (delete t).

(** Unloading [ctx]: every registered child's [onunload] runs, once. *)
Definition unload (w : World) : World :=
  if loaded w then
    let w' := foldr clearTimeout w (cleanups w) in
    {| now := now w'; connected := connected w'; mounted := mounted w';
       cards := cards w'; tasks := tasks w'; timers := timers w';
       cleanups := cleanups w'; loaded := false; requests := requests w';
       translation := translation w'; next := next w' |}
  else w.

(** [el] leaves the document. *)
Definition detach (w : World) : World :=
  {| now := now w; connected := false; mounted := mounted w;
     cards := cards w; tasks := tasks w; timers := timers w;
     cleanups := cleanups w; loaded := loaded w; requests := requests w;
     translation := translation w; next := next w |}.

Definition teardown (w : World) : World := detach (unload w).

Definition advance (dt : Z) (w : World) : World :=
  {| now := now w + Z.max 0 dt; connected := connected w; mounted := mounted w;
     cards := cards w; tasks := tasks w; timers := timers w;
     cleanups := cleanups w; loaded := loaded w; requests := requests w;
     translation := translation w; next := next w |}.

(** Is the reload button of the mounted card on screen? *)
Definition reloadVisible (w : World) : bool :=
  connected w &&
  match mounted w with
  | Some c => existsb isFooter (default [] (cards w !! c))
  | None => false
  end.

(** What the event loop can deliver to the surface. *)
Inductive Event :=
| Tick (dt : Z)
| Fire (t : nat) (r : Z)
| LookupReply (c : nat) (rep : Reply)
| EditionsReply (c : nat) (ar tr : Reply)
| ClickReload (r : Z)
| Unload
| Detach
| Teardown.

Definition step (e : Event) (w : World) : World :=
  match e with
  | Tick dt => advance dt w
  | Fire t r =>
      match timers w !! t with
      | Some tm =>
          if bool_decide (due tm ≤ now w)
          then retryCallback (owner tm) r (set_timers (delete t) w)
          else w
      | None => w
      end
  | LookupReply c rep =>
      match tasks w !! c with
      | Some AwaitLookup => onLookup c rep w
      | _ => w
      end
  | EditionsReply c ar tr =>
      match tasks w !! c with
      | Some AwaitEditions => onEditions c ar tr w
      | _ => w
      end
  | ClickReload r => if reloadVisible w then renderVerse r w else w
  | Unload => unload w
  | Detach => detach w
  | Teardown => teardown w
  end.

(** Events are delivered oldest first. *)
Definition run (es : list Event) (w : World) : World :=
  fold_left (λ w e, step e w) es w.

(** The surface as the host hands it to the processor. *)
Definition surface (tr : string) : World :=
  {| now := 0; connected := true; mounted := None; cards := ∅; tasks := ∅;
     timers := ∅; cleanups := []; loaded := true; requests := [];
     translation := tr; next := 0%nat |}.

(** The processor's [await renderVerse()]. *)
Definition mount (tr : string) (r : Z) : World := renderVerse r (surface tr).

(** A remote call that fails or reports a logical code other than 200. *)
Definition failed (rep : Reply) : Prop :=
  match rep with
  | Rejected => True
  | Resolved j => code j ≠ 200
  end.

(** Worlds the surface can be in after the processor has run. *)
Definition reachable (w : World) : Prop :=
  ∃ tr r es, w = run es (mount tr r).

(** What holds of every reachable world: a suspended invocation still
    shows its loading card, and while [ctx] is loaded every pending
    timeout has its cleanup child. *)
Definition attemptInv (w : World) : Prop :=
  (∀ c ph, tasks w !! c = Some ph → cards w !! c = Some loadingCard)
  ∧ (∀ t tm, timers w !! t = Some tm → loaded w = true → t ∈ cleanups w).

(** A request of the second stage of an invocation. *)
Definition editionLookup (q : Request) : Prop :=
  match q with
  | AyahInEdition _ _ => True
  | AyahByNumber _ => False
  end.

(** A well-formed reply about verse [n], for running the model. *)
Definition sampleAyah (n : Z) : AyahData :=
  {| number := n; text := [0x628; 0x633; 0x645]%N; numberInSurah := 5;
     surah := {| surah_number := 2; surah_name := [];
                 englishName := units "Al-Baqara" |};
     edition := {| identifier := "quran-uthmani"; language := "ar"; name := [];
                   direction := Some "rtl"%string |} |}.

Definition sampleJson (n : Z) : ApiResponse :=
  {| code := 200; status := "OK"; data := Some (sampleAyah n) |}.

End VerseFetcher.

(** ** The settings tab ([QuranSettingTab], settings.ts)

    The [async] methods are run to completion against a network oracle
    [net]: one call of a method is one transition of the tab.  A state
    with [isLoadingMetadata = true] is a tab observed while a refresh is
    suspended at one of its [await]s.  Thrown exceptions do not undo the
    assignments made before them, so a completion carries the tab. *)

Module MetadataResolver.

(** [String.prototype.toLowerCase] / [toUpperCase], on the ASCII letters
    (language codes and names of the two catalogs). *)
Definition lowerAscii (a : Ascii.ascii) : Ascii.ascii :=
  let n := Ascii.N_of_ascii a in
  if ((65 <=? n) && (n <=? 90))%N then Ascii.ascii_of_N (n + 32) else a.

Definition upperAscii (a : Ascii.ascii) : Ascii.ascii :=
  let n := Ascii.N_of_ascii a in
  if ((97 <=? n) && (n <=? 122))%N then Ascii.ascii_of_N (n - 32) else a.

Fixpoint toLowerCase (s : string) : string :=
  match s with
  | String.EmptyString => String.EmptyString
  | String.String a s' => String.String (lowerAscii a) (toLowerCase s')
  end.

Fixpoint toUpperCase (s : string) : string :=
  match s with
  | String.EmptyString => String.EmptyString
  | String.String a s' => String.String (upperAscii a) (toUpperCase s')
  end.

(** [s.charAt(0).toUpperCase() + s.slice(1)]. *)
Definition capitalize (s : string) : string :=
  match s with
  | String.EmptyString => String.EmptyString
  | String.String a s' => String.String (upperAscii a) s'
  end.

(** A string used as a condition: the empty string is falsy. *)
Definition truthy (s : string) : bool := negb (bool_decide (s = String.EmptyString)).

(** [a || b] on strings. *)
Definition orElse (a b : string) : string := if truthy a then a else b.

Module QuranSettings.
Record t := {
  translation : string;
  language : string;
  fontSize : string;
  backgroundColor : string;
  accentColor : string;
  tafsir : string;
  tafsirName : string;
  tafsirLanguage : string;
  font : string
}.
End QuranSettings.

Definition DEFAULT_SETTINGS : QuranSettings.t :=
  {| QuranSettings.translation := "en.itani";
     QuranSettings.language := "en";
     QuranSettings.fontSize := "2.0rem";
     QuranSettings.backgroundColor := "var(--background-secondary)";
     QuranSettings.accentColor := "var(--interactive-accent)";
     QuranSettings.tafsir := "en-tafisr-ibn-kathir";
     QuranSettings.tafsirName := "Tafsir Ibn Kathir (Abridged)";
     QuranSettings.tafsirLanguage := "en";
     QuranSettings.font := String.String (Ascii.ascii_of_N 34)
       ("Noto Naskh Arabic" +:+ String.String (Ascii.ascii_of_N 34) String.EmptyString) |}.

Module Edition.
Record t := {
  identifier : string;
  language : string;
  name : string;
  englishName : string;
  format : string;
  type : string;
  direction : option string
}.
End Edition.

(** What the code holds where it expects a string read from a plain
    object: a string, or one of the functions and objects that every
    object inherits from [Object.prototype]. *)
Inductive JsName :=
| Text (s : string)
| Inherited.

#[global] Instance JsName_eq_dec : EqDecision JsName.
Proof. solve_decision. Defined.

Definition isText (n : JsName) : bool :=
  match n with Text _ => true | Inherited => false end.

(** The string a name is, when it is one. *)
Definition nameText (n : JsName) : string :=
  match n with Text s => s | Inherited => String.EmptyString end.

(** [n.toLowerCase()]; [None] is the TypeError of calling a method that
    a function or [Object.prototype] does not have. *)
Definition lowerName (n : JsName) : option string :=
  match n with Text s => Some (toLowerCase s) | Inherited => None end.

(** A plain object with string values ([Record<string, string>] built by
    a literal or by assignments to [{}]), as the map of its own
    properties.  Reading a key also finds what [Object.prototype]
    provides, and [__proto__] is an accessor: reading it gives the
    prototype, assigning a string to it does nothing. *)
Module PlainObject.

Definition inheritedKeys : list string :=
  ["constructor"; "__defineGetter__"; "__defineSetter__"; "hasOwnProperty";
   "__lookupGetter__"; "__lookupSetter__"; "isPrototypeOf";
   "propertyIsEnumerable"; "toString"; "valueOf"; "__proto__";
   "toLocaleString"]%string.

(** [o[k]]; [None] is [undefined]. *)
Definition get (o : gmap string string) (k : string) : option JsName :=
  if bool_decide (k = "__proto__"%string) then Some Inherited
  else
    match o !! k with
    | Some v => Some (Text v)
    | None => if bool_decide (k ∈ inheritedKeys) then Some Inherited else None
    end.

(** [o[k] = v]. *)
Definition set (k v : string) (o : gmap string string) : gmap string string :=
  if bool_decide (k = "__proto__"%string) then o else <[k := v]> o.

(** [o[k]] used as a condition. *)
Definition truthyAt (o : gmap string string) (k : string) : bool :=
  match get o k with
  | Some (Text v) => truthy v
  | Some Inherited => true
  | None => false
  end.

End PlainObject.

(** The element type of [languages] and [tafsirLanguages]; [name] is
    whatever [getFullLanguageName] returned. *)
Module Language.
Record t := {
  code : string;
  name : JsName
}.
End Language.

Module CdnTafsirEdition.
Record t := {
  author_name : string;
  id : Z;
  language_name : string;
  name : string;
  slug : string;
  source : string
}.
End CdnTafsirEdition.

Record LanguageResponse := {
  lr_code : Z;
  lr_status : string;
  lr_data : list string
}.

Record EditionResponse := {
  er_code : Z;
  er_status : string;
  er_data : list Edition.t
}.

#[global] Instance QuranSettings_eq_dec : EqDecision QuranSettings.t.
Proof. solve_decision. Defined.
#[global] Instance Edition_eq_dec : EqDecision Edition.t.
Proof. solve_decision. Defined.
#[global] Instance Language_eq_dec : EqDecision Language.t.
Proof. solve_decision. Defined.

(** A response body, by the type guard it passes ([isLanguageResponse],
    [isEditionResponse], [isCdnTafsirEditionArray]); [JOther] passes
    none.  Each body is only ever tested by the guard of its own call. *)
Inductive Json :=
| JLanguages (r : LanguageResponse)
| JEditions (r : EditionResponse)
| JTafsirs (l : list CdnTafsirEdition.t)
| JOther.

Inductive Reply :=
| Rejected
| Resolved (json : Json).

Inductive Request :=
| GetLanguages                 (* /v1/edition/language *)
| GetEditions (lang : string)  (* /v1/edition/language/{lang} *)
| GetTafsirEditions.           (* tafsir_api .../tafsir/editions.json *)

#[global] Instance Request_eq_dec : EqDecision Request.
Proof. solve_decision. Defined.

(** What a method does to the outside, oldest first. *)
Inductive Effect :=
| Requested (q : Request)
| Saved (s : QuranSettings.t)
| Noticed (msg : string)
| Displayed.

#[global] Instance Effect_eq_dec : EqDecision Effect.
Proof. solve_decision. Defined.

Record Tab := {
  settings : QuranSettings.t;           (* [this.plugin.settings] *)
  stored : QuranSettings.t;             (* last value given to [saveData] *)
  languages : list Language.t;
  tafsirLanguages : list Language.t;
  editions : list Edition.t;
  tafsirEditions : list Edition.t;
  isLoadingMetadata : bool;
  log : list Effect
}.

(** Result of [Intl.DisplayNames.prototype.of]. *)
Inductive IntlResult :=
| Named (s : string)
| Undefined
| RangeError.

(** How a method call ends. *)
Inductive Completion (A : Type) :=
| Normal (a : A) (t : Tab)
| Thrown (t : Tab).
Arguments Normal {A} a t.
Arguments Thrown {A} t.

Definition tabOf {A} (c : Completion A) : Tab :=
  match c with Normal _ t => t | Thrown t => t end.

Definition threw {A} (c : Completion A) : bool :=
  match c with Normal _ _ => false | Thrown _ => true end.

Definition M (A : Type) : Type := Tab → Completion A.

#[global] Instance M_ret : MRet M := λ A a t, Normal a t.
#[global] Instance M_bind : MBind M := λ A B f m t,
  match m t with
  | Normal a t' => f a t'
  | Thrown t' => Thrown t'
  end.

Definition throw {A} : M A := λ t, Thrown t.

(** [try { body } catch (e) { handler }]. *)
Definition tryCatch {A} (body handler : M A) : M A := λ t,
  match body t with
  | Normal a t' => Normal a t'
  | Thrown t' => handler t'
  end.

(** [try { body } finally { fin }]: [fin] always runs; an exception of
    [body] continues after it unless [fin] throws itself. *)
Definition tryFinally {A} (body : M A) (fin : M unit) : M A := λ t,
  match body t with
  | Normal a t' =>
      match fin t' with
      | Normal _ t'' => Normal a t''
      | Thrown t'' => Thrown t''
      end
  | Thrown t' => Thrown (tabOf (fin t'))
  end.

Definition gets {A} (f : Tab → A) : M A := λ t, Normal (f t) t.
Definition modify (f : Tab → Tab) : M unit := λ t, Normal tt (f t).

Definition set_settings (f : QuranSettings.t → QuranSettings.t) (t : Tab) : Tab :=
  {| settings := f (settings t); stored := stored t; languages := languages t;
     tafsirLanguages := tafsirLanguages t; editions := editions t;
     tafsirEditions := tafsirEditions t;
     isLoadingMetadata := isLoadingMetadata t; log := log t |}.

Definition set_languages (l : list Language.t) (t : Tab) : Tab :=
  {| settings := settings t; stored := stored t; languages := l;
     tafsirLanguages := tafsirLanguages t; editions := editions t;
     tafsirEditions := tafsirEditions t;
     isLoadingMetadata := isLoadingMetadata t; log := log t |}.

Definition set_tafsirLanguages (l : list Language.t) (t : Tab) : Tab :=
  {| settings := settings t; stored := stored t; languages := languages t;
     tafsirLanguages := l; editions := editions t;
     tafsirEditions := tafsirEditions t;
     isLoadingMetadata := isLoadingMetadata t; log := log t |}.

Definition set_editions (l : list Edition.t) (t : Tab) : Tab :=
  {| settings := settings t; stored := stored t; languages := languages t;
     tafsirLanguages := tafsirLanguages t; editions := l;
     tafsirEditions := tafsirEditions t;
     isLoadingMetadata := isLoadingMetadata t; log := log t |}.

Definition set_tafsirEditions (l : list Edition.t) (t : Tab) : Tab :=
  {| settings := settings t; stored := stored t; languages := languages t;
     tafsirLanguages := tafsirLanguages t; editions := editions t;
     tafsirEditions := l;
     isLoadingMetadata := isLoadingMetadata t; log := log t |}.

Definition set_isLoadingMetadata (b : bool) (t : Tab) : Tab :=
  {| settings := settings t; stored := stored t; languages := languages t;
     tafsirLanguages := tafsirLanguages t; editions := editions t;
     tafsirEditions := tafsirEditions t;
     isLoadingMetadata := b; log := log t |}.

Definition emit (e : Effect) (t : Tab) : Tab :=
  {| settings := settings t; stored := stored t; languages := languages t;
     tafsirLanguages := tafsirLanguages t; editions := editions t;
     tafsirEditions := tafsirEditions t;
     isLoadingMetadata := isLoadingMetadata t; log := log t ++ [e] |}.

Definition set_translation (v : string) (s : QuranSettings.t) : QuranSettings.t :=
  {| QuranSettings.translation := v;
     QuranSettings.language := QuranSettings.language s;
     QuranSettings.fontSize := QuranSettings.fontSize s;
     QuranSettings.backgroundColor := QuranSettings.backgroundColor s;
     QuranSettings.accentColor := QuranSettings.accentColor s;
     QuranSettings.tafsir := QuranSettings.tafsir s;
     QuranSettings.tafsirName := QuranSettings.tafsirName s;
     QuranSettings.tafsirLanguage := QuranSettings.tafsirLanguage s;
     QuranSettings.font := QuranSettings.font s |}.

Definition set_language (v : string) (s : QuranSettings.t) : QuranSettings.t :=
  {| QuranSettings.translation := QuranSettings.translation s;
     QuranSettings.language := v;
     QuranSettings.fontSize := QuranSettings.fontSize s;
     QuranSettings.backgroundColor := QuranSettings.backgroundColor s;
     QuranSettings.accentColor := QuranSettings.accentColor s;
     QuranSettings.tafsir := QuranSettings.tafsir s;
     QuranSettings.tafsirName := QuranSettings.tafsirName s;
     QuranSettings.tafsirLanguage := QuranSettings.tafsirLanguage s;
     QuranSettings.font := QuranSettings.font s |}.

Definition set_tafsir (v : string) (s : QuranSettings.t) : QuranSettings.t :=
  {| QuranSettings.translation := QuranSettings.translation s;
     QuranSettings.language := QuranSettings.language s;
     QuranSettings.fontSize := QuranSettings.fontSize s;
     QuranSettings.backgroundColor := QuranSettings.backgroundColor s;
     QuranSettings.accentColor := QuranSettings.accentColor s;
     QuranSettings.tafsir := v;
     QuranSettings.tafsirName := QuranSettings.tafsirName s;
     QuranSettings.tafsirLanguage := QuranSettings.tafsirLanguage s;
     QuranSettings.font := QuranSettings.font s |}.

Definition set_tafsirName (v : string) (s : QuranSettings.t) : QuranSettings.t :=
  {| QuranSettings.translation := QuranSettings.translation s;
     QuranSettings.language := QuranSettings.language s;
     QuranSettings.fontSize := QuranSettings.fontSize s;
     QuranSettings.backgroundColor := QuranSettings.backgroundColor s;
     QuranSettings.accentColor := QuranSettings.accentColor s;
     QuranSettings.tafsir := QuranSettings.tafsir s;
     QuranSettings.tafsirName := v;
     QuranSettings.tafsirLanguage := QuranSettings.tafsirLanguage s;
     QuranSettings.font := QuranSettings.font s |}.

Definition set_tafsirLanguage (v : string) (s : QuranSettings.t) : QuranSettings.t :=
  {| QuranSettings.translation := QuranSettings.translation s;
     QuranSettings.language := QuranSettings.language s;
     QuranSettings.fontSize := QuranSettings.fontSize s;
     QuranSettings.backgroundColor := QuranSettings.backgroundColor s;
     QuranSettings.accentColor := QuranSettings.accentColor s;
     QuranSettings.tafsir := QuranSettings.tafsir s;
     QuranSettings.tafsirName := QuranSettings.tafsirName s;
     QuranSettings.tafsirLanguage := v;
     QuranSettings.font := QuranSettings.font s |}.

(** [new Notice(msg)]. *)
Definition notice (msg : string) : M unit := modify (emit (Noticed msg)).

(** What [saveData(this.settings)] leaves behind. *)
Definition persist (t : Tab) : Tab :=
  {| settings := settings t; stored := settings t; languages := languages t;
     tafsirLanguages := tafsirLanguages t; editions := editions t;
     tafsirEditions := tafsirEditions t;
     isLoadingMetadata := isLoadingMetadata t;
     log := log t ++ [Saved (settings t)] |}.

(** [QuranPlugin.saveSettings]: [saveData(this.settings)]; the restyling
    that follows does not touch the tab. *)
Definition saveSettings : M unit := modify persist.

(** [new Set(l)] turned back into an array: first occurrences, in order. *)
Definition unique (l : list string) : list string :=
  fold_left (λ acc x, if decide (x ∈ acc) then acc else acc ++ [x]) l [].

(** The own properties of [customNames] of [getFullLanguageName]. *)
Definition customNames : gmap string string :=
  list_to_map [("ber", "Berber"); ("ce", "Chechen")]%string.

(** [tafsirJson.map(t => ({ identifier: t.slug, ... }))]. *)
Definition tafsirAsEdition (t : CdnTafsirEdition.t) : Edition.t :=
  {| Edition.identifier := CdnTafsirEdition.slug t;
     Edition.language := CdnTafsirEdition.language_name t;
     Edition.name := CdnTafsirEdition.name t;
     Edition.englishName := CdnTafsirEdition.author_name t;
     Edition.format := "text";
     Edition.type := "tafsir";
     Edition.direction := None |}.

(** [e.format === 'text' && e.type === 'translation']. *)
Definition isTextTranslation (e : Edition.t) : bool :=
  bool_decide (Edition.format e = "text"%string)
  && bool_decide (Edition.type e = "translation"%string).

(** The own properties of the [options] object built by
    [forEach(e => options[e.identifier] = e.name)]. *)
Definition optionsOf (l : list Edition.t) : gmap string string :=
  fold_left (λ m e, PlainObject.set (Edition.identifier e) (Edition.name e) m) l ∅.

Section Environment.

(** [Intl.DisplayNames] with locale [en] and type [language]; [None] when
    [typeof Intl.DisplayNames !== 'function']. *)
Variable displayNames : option (string → IntlResult).

(** [a.localeCompare(b)]: negative, zero or positive. *)
Variable localeCompare : string → string → Z.

(** [Array.prototype.sort] with the comparator below on an array of two
    or more entries one of whose names is no string.  The comparator
    raises a TypeError when that name is its left argument; in which
    order the engine calls it, hence whether the sort raises ([None]) or
    what it returns, is the engine's own. *)
Variable engineSort : list Language.t → option (list Language.t).

(** Insertion of [x] in front of a list that follows it in the array,
    for names that are strings. *)
Fixpoint insertByName (x : Language.t) (l : list Language.t) : list Language.t :=
  match l with
  | [] => [x]
  | y :: l' =>
      if bool_decide (localeCompare (nameText (Language.name x))
                                    (nameText (Language.name y)) ≤ 0)
      then x :: y :: l'
      else y :: insertByName x l'
  end.

(** The stable sort by name of entries whose names are strings. *)
Definition sortByName (l : list Language.t) : list Language.t :=
  foldr insertByName [] l.

(** [l.sort((a, b) => a.name.localeCompare(b.name))]; [None] is the
    TypeError of [a.name.localeCompare] on a name that is no string.
    An array of fewer than two entries is never compared. *)
Definition sortLanguages (l : list Language.t) : option (list Language.t) :=
  if forallb (λ x, isText (Language.name x)) l then Some (sortByName l)
  else
    match l with
    | [] | [_] => Some l
    | _ => engineSort l
    end.

Definition getFullLanguageName (code : string) : JsName :=
  let fromService :=
    match displayNames with
    | Some displayNamesOf =>
        match displayNamesOf code with
        | Named n => Text (orElse n code)
        | Undefined => Text code
        | RangeError => Text code
        end
    | None => Text code
    end in
  match PlainObject.get customNames (toLowerCase code) with
  | Some (Text n) => if truthy n then Text n else fromService
  | Some Inherited => Inherited
  | None => fromService
  end.

(** [requestUrl(url)] followed by [.json]. *)
Definition requestUrl (net : Request → Reply) (q : Request) : M Json := λ t,
  match net q with
  | Rejected => Thrown (emit (Requested q) t)
  | Resolved j => Normal j (emit (Requested q) t)
  end.

(** [langJson.data.map(lang => ({ code: lang, name: ... }))]. *)
Definition mappedLanguages (r : LanguageResponse) : list Language.t :=
  (λ lang, {| Language.code := lang;
              Language.name := getFullLanguageName lang |}) <$> lr_data r.

(** [this.languages.sort(...)]: the array is replaced by the sorted one
    only if the sort returns. *)
Definition sortInPlace : M unit := λ t,
  match sortLanguages (languages t) with
  | Some sorted => Normal tt (set_languages sorted t)
  | None => Thrown t
  end.

(** The [try] block of [fetchLanguages] from the response on. *)
Definition languagesBody (langJson : Json) : M unit :=
  match langJson with
  | JLanguages r =>
      modify (set_languages (mappedLanguages r));;
      sortInPlace
  | _ => throw
  end.

Definition fetchLanguages (net : Request → Reply) : M unit :=
  tryCatch
    (langJson ← requestUrl net GetLanguages;
     languagesBody langJson)
    (notice "Failed to fetch languages. Check your internet connection.";;
     throw).

(** The [try] block of [fetchTranslationEditions] from the response on. *)
Definition editionsBody (trJson : Json) : M unit :=
  match trJson with
  | JEditions r =>
      modify (set_editions (filter (λ e, isTextTranslation e = true) (er_data r)))
  | _ => throw
  end.

Definition fetchTranslationEditions (net : Request → Reply) : M unit :=
  tryCatch
    (lang ← gets (λ t, QuranSettings.language (settings t));
     trJson ← requestUrl net (GetEditions lang);
     editionsBody trJson)
    (notice "Failed to fetch translations. Check your internet connection.";;
     throw).

(** [this.languages.find(l => l.name.toLowerCase() === langName.toLowerCase())]:
    the entries are tried in order; the outer [None] is the TypeError
    raised on reaching a name that is no string. *)
Fixpoint findByName (langName : string) (langs : list Language.t)
    : option (option Language.t) :=
  match langs with
  | [] => Some None
  | l :: rest =>
      match lowerName (Language.name l) with
      | Some lowered =>
          if bool_decide (lowered = toLowerCase langName) then Some (Some l)
          else findByName langName rest
      | None => None
      end
  end.

(** The entry of a tafsir language: its code is that of the catalog
    language with the same name, or the lower-cased name. *)
Definition tafsirLanguageOf (langs : list Language.t) (langName : string)
    : option Language.t :=
  found ← findByName langName langs;
  Some {| Language.code :=
            orElse (default String.EmptyString (Language.code <$> found))
                   (toLowerCase langName);
          Language.name := Text (capitalize langName) |}.

Definition hasCode (c : string) (l : Language.t) : bool :=
  bool_decide (Language.code l = c).

Definition hasIdentifier (i : string) (e : Edition.t) : bool :=
  bool_decide (Edition.identifier e = i).

(** "Populate tafsirLanguages dropdown": [map] stops at the first entry
    whose lookup raises, and nothing is assigned then. *)
Definition deriveTafsirLanguages (tafsirJson : list CdnTafsirEdition.t) : M unit := λ t,
  match mapM (tafsirLanguageOf (languages t))
             (unique (CdnTafsirEdition.language_name <$> tafsirJson)) with
  | Some mapped =>
      match sortLanguages mapped with
      | Some sorted => Normal tt (set_tafsirLanguages sorted t)
      | None => Thrown t
      end
  | None => Thrown t
  end.

(** "Ensure selected tafsirLanguage is valid, default if not". *)
Definition reconcileTafsirLanguage : M unit :=
  current ← gets (λ t, QuranSettings.tafsirLanguage (settings t));
  langs ← gets tafsirLanguages;
  if negb (existsb (hasCode current) langs) then
    modify (set_settings (set_tafsirLanguage
      match langs with
      | l :: _ => Language.code l
      | [] => "en"%string
      end));;
    saveSettings
  else mret tt.

(** What "Filter tafsirs by the tafsirLanguage setting" assigns when its
    callback does not raise. *)
Definition matching (tafsirJson : list CdnTafsirEdition.t) (lang : string)
    : list Edition.t :=
  tafsirAsEdition <$>
    filter (λ x, lowerName (getFullLanguageName lang)
                 = Some (toLowerCase (CdnTafsirEdition.language_name x)))
           tafsirJson.

(** "Filter tafsirs by the tafsirLanguage setting".  The callback runs
    once for each entry of the index and calls [toLowerCase] on the name
    of the configured language. *)
Definition filterTafsirs (tafsirJson : list CdnTafsirEdition.t) : M unit := λ t,
  let lang := QuranSettings.tafsirLanguage (settings t) in
  match tafsirJson with
  | [] => Normal tt (set_tafsirEditions [] t)
  | _ :: _ =>
      if isText (getFullLanguageName lang)
      then Normal tt (set_tafsirEditions (matching tafsirJson lang) t)
      else Thrown t
  end.

(** "Set default tafsir and its name if available". *)
Definition selectTafsir : M unit :=
  eds ← gets tafsirEditions;
  cur ← gets (λ t, QuranSettings.tafsir (settings t));
  match eds with
  | first :: _ =>
      if negb (truthy cur) || negb (existsb (hasIdentifier cur) eds) then
        modify (set_settings (set_tafsir (Edition.identifier first)));;
        modify (set_settings (set_tafsirName (Edition.name first)));;
        saveSettings
      else
        modify (set_settings (set_tafsirName
          (orElse (default String.EmptyString (Edition.name <$> find (hasIdentifier cur) eds))
                  cur)))
  | [] =>
      modify (set_settings (set_tafsir String.EmptyString));;
      modify (set_settings (set_tafsirName String.EmptyString));;
      saveSettings
  end.

(** The [try] block of [fetchAndProcessTafsirs] from the response on. *)
Definition tafsirsBody (tafsirJson : Json) : M unit :=
  match tafsirJson with
  | JTafsirs l =>
      deriveTafsirLanguages l;;
      reconcileTafsirLanguage;;
      filterTafsirs l;;
      selectTafsir
  | _ => throw
  end.

Definition fetchAndProcessTafsirs (net : Request → Reply) : M unit :=
  tryCatch
    (tafsirJson ← requestUrl net GetTafsirEditions;
     tafsirsBody tafsirJson)
    (notice "Failed to fetch tafsir editions. Check your internet connection.";;
     throw).

(** [display()]: the panel is rebuilt; of its dropdowns only the tafsir
    edition one writes to the settings while it is built.  The calls
    into the host that build the widgets are taken to return. *)
Definition display : M unit :=
  modify (emit Displayed);;
  eds ← gets tafsirEditions;
  cur ← gets (λ t, QuranSettings.tafsir (settings t));
  match eds with
  | first :: _ =>
      if negb (truthy cur) || negb (PlainObject.truthyAt (optionsOf eds) cur) then
        modify (set_settings (set_tafsir (Edition.identifier first)));;
        modify (set_settings (set_tafsirName (Edition.name first)));;
        saveSettings
      else mret tt
  | [] =>
      if truthy cur then
        modify (set_settings (set_tafsir String.EmptyString));;
        modify (set_settings (set_tafsirName String.EmptyString));;
        saveSettings
      else mret tt
  end.

(** The three fetches of the [try] block of [fetchMetadata]. *)
Definition refreshBody (net : Request → Reply) : M unit :=
  fetchLanguages net;;
  fetchTranslationEditions net;;
  fetchAndProcessTafsirs net.

Definition fetchMetadata (net : Request → Reply) : M unit := λ t,
  if isLoadingMetadata t then Normal tt t
  else
    (modify (set_isLoadingMetadata true);;
     tryFinally
       (tryCatch (refreshBody net)
          (notice "An unexpected error occurred. Please check the console for details."))
       (modify (set_isLoadingMetadata false);;
        display)) t.

(** [onChange] of the translation language dropdown.  The dropdown has
    this handler only while [languages] is non-empty, and [val] is then
    one of the listed codes. *)
Definition onTranslationLanguageChange (net : Request → Reply) (val : string) : M unit :=
  modify (set_settings (set_language val));;
  modify (set_editions []);;
  tryCatch
    (fetchTranslationEditions net;;
     eds ← gets editions;
     match eds with
     | first :: _ => modify (set_settings (set_translation (Edition.identifier first)))
     | [] => mret tt
     end)
    (notice "Failed to auto-select translation. Check your internet connection.");;
  saveSettings;;
  display.

(** [onChange] of the tafsir language dropdown, which has it only while
    [tafsirLanguages] is non-empty.  An exception of
    [fetchAndProcessTafsirs] leaves the handler before [display]. *)
Definition onTafsirLanguageChange (net : Request → Reply) (val : string) : M unit :=
  modify (set_settings (set_tafsirLanguage val));;
  saveSettings;;
  fetchAndProcessTafsirs net;;
  display.

(** *** The tab after each step

    Where a method does not raise, the tab it leaves has a closed form;
    the lemmas [*_run] below prove the two presentations equal. *)

(** [tafsirLanguages] as [fetchAndProcessTafsirs] derives it; [None]
    when the derivation raises. *)
Definition tafsirCatalogLanguages (langs : list Language.t)
    (l : list CdnTafsirEdition.t) : option (list Language.t) :=
  mapped ← mapM (tafsirLanguageOf langs) (unique (CdnTafsirEdition.language_name <$> l));
  sortLanguages mapped.

(** [this.tafsirLanguages.length > 0 ? this.tafsirLanguages[0].code : 'en']. *)
Definition replacementLanguage (langs : list Language.t) : string :=
  match langs with
  | l :: _ => Language.code l
  | [] => "en"%string
  end.

(** After [reconcileTafsirLanguage]. *)
Definition reconciled (t : Tab) : Tab :=
  if existsb (hasCode (QuranSettings.tafsirLanguage (settings t))) (tafsirLanguages t)
  then t
  else persist (set_settings (set_tafsirLanguage (replacementLanguage (tafsirLanguages t))) t).

(** After [filterTafsirs], when it does not raise. *)
Definition filtered (l : list CdnTafsirEdition.t) (t : Tab) : Tab :=
  set_tafsirEditions (matching l (QuranSettings.tafsirLanguage (settings t))) t.

(** [filterTafsirs] raises on this tab. *)
Definition filterRaises (l : list CdnTafsirEdition.t) (t : Tab) : bool :=
  match l with
  | [] => false
  | _ :: _ => negb (isText (getFullLanguageName (QuranSettings.tafsirLanguage (settings t))))
  end.

(** The first edition selected and saved. *)
Definition chooseFirst (first : Edition.t) (t : Tab) : Tab :=
  persist (set_settings (set_tafsirName (Edition.name first))
             (set_settings (set_tafsir (Edition.identifier first)) t)).

(** The selection cleared and saved. *)
Definition cleared (t : Tab) : Tab :=
  persist (set_settings (set_tafsirName String.EmptyString) (set_settings (set_tafsir String.EmptyString) t)).

(** After [selectTafsir]. *)
Definition selected (t : Tab) : Tab :=
  let cur := QuranSettings.tafsir (settings t) in
  match tafsirEditions t with
  | first :: _ =>
      if negb (truthy cur) || negb (existsb (hasIdentifier cur) (tafsirEditions t))
      then chooseFirst first t
      else set_settings (set_tafsirName
             (orElse (default String.EmptyString
                        (Edition.name <$> find (hasIdentifier cur) (tafsirEditions t)))
                     cur)) t
  | [] => cleared t
  end.

(** After [display]. *)
Definition displayed (t : Tab) : Tab :=
  let t1 := emit Displayed t in
  let cur := QuranSettings.tafsir (settings t) in
  match tafsirEditions t with
  | first :: _ =>
      if negb (truthy cur)
         || negb (PlainObject.truthyAt (optionsOf (tafsirEditions t)) cur)
      then chooseFirst first t1
      else t1
  | [] => if truthy cur then cleared t1 else t1
  end.

(** After [fetchAndProcessTafsirs], when the index is [l], the tafsir
    languages derived from it are [tl] and nothing raises. *)
Definition processed (tl : list Language.t) (l : list CdnTafsirEdition.t) (t : Tab) : Tab :=
  selected (filtered l (reconciled
    (set_tafsirLanguages tl (emit (Requested GetTafsirEditions) t)))).

(** After [fetchLanguages] and [fetchTranslationEditions], when both
    resolve and the languages sort to [langs]. *)
Definition fetchedCatalogs (langs : list Language.t) (er : EditionResponse) (t : Tab) : Tab :=
  set_editions (filter (λ e, isTextTranslation e = true) (er_data er))
    (emit (Requested (GetEditions (QuranSettings.language (settings t))))
      (set_languages langs
        (emit (Requested GetLanguages)
          (set_isLoadingMetadata true t)))).

(** After a refresh none of whose fetches raises. *)
Definition refreshed (langs : list Language.t) (er : EditionResponse)
    (tl : list Language.t) (l : list CdnTafsirEdition.t) (t : Tab) : Tab :=
  displayed (set_isLoadingMetadata false
    (processed tl l (fetchedCatalogs langs er t))).

(** The lower-case forms of a code under which a plain object answers by
    a value that is no string: of the keys of [Object.prototype] only
    these two are written without a capital. *)
Definition inheritedLower : list string := ["constructor"; "__proto__"]%string.

(** Every entry has a string for its name. *)
Definition textNamed (langs : list Language.t) : Prop :=
  Forall (λ x, isText (Language.name x) = true) langs.

(** The order [sort] puts two entries with string names in. *)
Definition nameLe (x y : Language.t) : Prop :=
  localeCompare (nameText (Language.name x)) (nameText (Language.name y)) ≤ 0.

End Environment.

(** The tafsir id on disk is the one in memory. *)
Definition tafsirSynced (t : Tab) : Prop :=
  QuranSettings.tafsir (stored t) = QuranSettings.tafsir (settings t).

(** What no step of the resolver other than the translation-language
    handler does: touch the translation selection, shorten the log, or
    leave a changed tafsir id unsaved. *)
Definition frame (t t' : Tab) : Prop :=
  QuranSettings.translation (settings t') = QuranSettings.translation (settings t)
  ∧ QuranSettings.language (settings t') = QuranSettings.language (settings t)
  ∧ (∃ post, log t' = log t ++ post)
  ∧ (tafsirSynced t → tafsirSynced t').

(** The configured translation belongs to the translation catalog. *)
Definition translationValid (t : Tab) : Prop :=
  QuranSettings.translation (settings t) ∈ Edition.identifier <$> editions t.

(** The configured tafsir belongs to the tafsir catalog. *)
Definition tafsirValid (t : Tab) : Prop :=
  QuranSettings.tafsir (settings t) ∈ Edition.identifier <$> tafsirEditions t.

Definition isNotice (e : Effect) : bool :=
  match e with Noticed _ => true | _ => false end.

(** A step that shows no notice. *)
Definition quietly (t t' : Tab) : Prop :=
  ∃ post, log t' = log t ++ post ∧ Forall (λ e, isNotice e = false) post.

(** What the two steps that pick a tafsir edition leave alone. *)
Definition catalogFrame (t t' : Tab) : Prop :=
  languages t' = languages t
  ∧ tafsirLanguages t' = tafsirLanguages t
  ∧ editions t' = editions t
  ∧ tafsirEditions t' = tafsirEditions t
  ∧ QuranSettings.tafsirLanguage (settings t') = QuranSettings.tafsirLanguage (settings t)
  ∧ (QuranSettings.tafsirLanguage (stored t) = QuranSettings.tafsirLanguage (settings t) →
     QuranSettings.tafsirLanguage (stored t') = QuranSettings.tafsirLanguage (settings t')).

(** The name the locale-name service produces for a code, if any. *)
Definition serviceName (displayNames : option (string → IntlResult))
    (code : string) : option string :=
  match displayNames with
  | Some displayNamesOf =>
      match displayNamesOf code with
      | Named n => if truthy n then Some n else None
      | _ => None
      end
  | None => None
  end.

(** The first revision of [getFullLanguageName] (settings.ts, lines 85-100). *)
Module Rev1.

(** The own properties of [manualMap]. *)
Definition manualMap : gmap string string :=
  list_to_map
    [("ar", "Arabic"); ("az", "Azerbaijani"); ("ba", "Bashkir"); ("be", "Bengali");
     ("ber", "Berber"); ("bs", "Bosnian"); ("ce", "Chechen"); ("dv", "Divehi");
     ("fa", "Persian"); ("ha", "Hausa"); ("ml", "Malayalam"); ("ps", "Pashto");
     ("sd", "Sindhi"); ("si", "Sinhala"); ("sq", "Albanian"); ("sw", "Swahili");
     ("tg", "Tajik"); ("tt", "Tatar"); ("ug", "Uyghur"); ("ur", "Urdu");
     ("uz", "Uzbek")]%string.

Definition getFullLanguageName (displayNames : option (string → IntlResult))
    (code : string) : JsName :=
  let fromService :=
    match displayNames with
    | Some displayNamesOf =>
        match displayNamesOf code with
        | Named n => Text (orElse n (toUpperCase code))
        | Undefined => Text (toUpperCase code)
        | RangeError => Text (toUpperCase code)
        end
    | None => Text (toUpperCase code)
    end in
  match PlainObject.get manualMap code with
  | Some (Text n) => if truthy n then Text n else fromService
  | Some Inherited => Inherited
  | None => fromService
  end.

End Rev1.

(** A small environment to run the resolver in: three catalog languages,
    translations for two of them, and four tafsir editions in three
    languages, one of which the language catalog does not know. *)
Module Sample.

Definition order (a b : string) : Z :=
  match String.compare a b with
  | Lt => -1
  | Eq => 0
  | Gt => 1
  end.

Definition names : option (string → IntlResult) :=
  Some (λ c,
    if bool_decide (c = "en"%string) then Named "English"
    else if bool_decide (c = "fr"%string) then Named "French"
    else if bool_decide (c = "ar"%string) then Named "Arabic"
    else if bool_decide (c = "x"%string) then RangeError
    else Undefined).

Definition translationEdition (i l n : string) : Edition.t :=
  {| Edition.identifier := i; Edition.language := l; Edition.name := n;
     Edition.englishName := n; Edition.format := "text";
     Edition.type := "translation"; Edition.direction := Some "ltr"%string |}.

Definition tafsirEdition (l n s : string) : CdnTafsirEdition.t :=
  {| CdnTafsirEdition.author_name := n; CdnTafsirEdition.id := 1;
     CdnTafsirEdition.language_name := l; CdnTafsirEdition.name := n;
     CdnTafsirEdition.slug := s; CdnTafsirEdition.source := String.EmptyString |}.

Definition languageCodes : LanguageResponse :=
  {| lr_code := 200; lr_status := "OK"; lr_data := ["fr"; "en"; "ar"]%string |}.

Definition editionsIn (lang : string) : EditionResponse :=
  {| er_code := 200; er_status := "OK";
     er_data :=
       if bool_decide (lang = "en"%string) then
         [translationEdition "en.itani" "en" "Itani";
          translationEdition "en.sahih" "en" "Saheeh International"]
       else if bool_decide (lang = "fr"%string) then
         [translationEdition "fr.hamidullah" "fr" "Hamidullah"]
       else [] |}.

Definition tafsirIndex : list CdnTafsirEdition.t :=
  [tafsirEdition "english" "Tafsir Ibn Kathir (abridged)" "en-tafisr-ibn-kathir";
   tafsirEdition "arabic" "Tafsir al-Tabari" "ar-tafsir-al-tabari";
   tafsirEdition "english" "Maarif-ul-Quran" "en-tafsir-maarif-ul-quran";
   tafsirEdition "kurdish" "Rebar Kurdish Tafsir" "kurd-tafsir-rebar"].

(** An engine whose sort raises as soon as a name is no string. *)
Definition engine (l : list Language.t) : option (list Language.t) := None.

(** Every call resolves. *)
Definition online (q : Request) : Reply :=
  match q with
  | GetLanguages => Resolved (JLanguages languageCodes)
  | GetEditions lang => Resolved (JEditions (editionsIn lang))
  | GetTafsirEditions => Resolved (JTafsirs tafsirIndex)
  end.

(** Every call is rejected. *)
Definition offline (q : Request) : Reply := Rejected.

(** The tafsir index has no edition at all. *)
Definition withoutTafsirs (q : Request) : Reply :=
  match q with
  | GetTafsirEditions => Resolved (JTafsirs [])
  | _ => online q
  end.

(** The tab as the constructor leaves it, with the default settings. *)
Definition fresh : Tab :=
  {| settings := DEFAULT_SETTINGS; stored := DEFAULT_SETTINGS;
     languages := []; tafsirLanguages := []; editions := [];
     tafsirEditions := []; isLoadingMetadata := false; log := [] |}.

(** The tab after a first refresh with every call resolving. *)
Definition loaded : Tab := tabOf (fetchMetadata names order engine online fresh).

(** A tab whose configured tafsir language the index does not have. *)
Definition staleLanguage : Tab :=
  {| settings := set_tafsirLanguage "de" DEFAULT_SETTINGS;
     stored := set_tafsirLanguage "de" DEFAULT_SETTINGS;
     languages := []; tafsirLanguages := []; editions := [];
     tafsirEditions := []; isLoadingMetadata := false; log := [] |}.

End Sample.

End MetadataResolver.

(** ** The render and retry cycle of a card ([renderVerse], main.ts) *)

Module VerseCycle.

Import ArabicDigits VerseFetcher.

(** The card a completed invocation leaves. *)
Definition verseCard (arData trData : AyahData) : list Node :=
  [Header;
   QuranArabic (arabicText arData);
   QuranTranslation (isTranslationRtl trData) (text trData);
   Footer (metaText trData)].

(** Each card has at most one retry: a pending timeout belongs to a card
    whose invocation has ended, and no two timeouts belong to one card. *)
Definition retryInv (w : World) : Prop :=
  (∀ t tm, timers w !! t = Some tm → tasks w !! owner tm = None)
  ∧ (∀ t1 t2 tm1 tm2,
       timers w !! t1 = Some tm1 → timers w !! t2 = Some tm2 →
       owner tm1 = owner tm2 → t1 = t2)
  ∧ (∀ t tm, timers w !! t = Some tm → (owner tm < next w)%nat)
  ∧ (∀ c ph, tasks w !! c = Some ph → (c < next w)%nat).

(** The mounted card [c] is on screen, loading, with its lookup pending. *)
Definition loadingAt (c : nat) (w : World) : Prop :=
  connected w = true
  ∧ mounted w = Some c
  ∧ tasks w !! c = Some AwaitLookup
  ∧ cards w !! c = Some loadingCard.

(** The container [c] exists and no invocation is suspended on it: its
    invocation has ended, in success or in failure. *)
Definition settled (c : nat) (w : World) : Prop :=
  (c < next w)%nat ∧ tasks w !! c = None.

(** What the event loop delivers while every lookup is rejected: the
    rejection for the mounted card [c], five seconds, and the timeout
    [n] the rejection registered; [draws] are the references drawn by
    the re-renders. *)
Fixpoint retryEvents (n c : nat) (draws : list Z) : list Event :=
  match draws with
  | [] => []
  | r :: rest =>
      LookupReply c Rejected :: Tick 5000 :: Fire n r
        :: retryEvents (S (S n)) (S n) rest
  end.

End VerseCycle.

(** ** The settings panel: calls, notices and the edition dropdowns
    ([QuranSettingTab], settings.ts) *)

Module SettingsPanel.

Import MetadataResolver.

(** A reply the guard of its call turns down, or no reply at all. *)
Definition noLanguages (r : Reply) : Prop :=
  match r with Resolved (JLanguages _) => False | _ => True end.

Definition noEditions (r : Reply) : Prop :=
  match r with Resolved (JEditions _) => False | _ => True end.

Definition noTafsirs (r : Reply) : Prop :=
  match r with Resolved (JTafsirs _) => False | _ => True end.

(** The calls of [requestUrl] in a log, oldest first. *)
Definition requestsOf (l : list Effect) : list Request :=
  omap (λ e, match e with Requested q => Some q | _ => None end) l.

(** The notices in a log, oldest first. *)
Definition noticesOf (l : list Effect) : list string :=
  omap (λ e, match e with Noticed m => Some m | _ => None end) l.

(** An effect that stays on the device: a save or a redraw. *)
Definition isLocal (e : Effect) : bool :=
  match e with
  | Saved _ | Displayed => true
  | _ => false
  end.

(** Calls and notices a step adds to the log. *)
Definition added (t t' : Tab) : list Effect := drop (length (log t)) (log t').

(** Every catalog entry carries the name [getFullLanguageName] gives its
    code, as after [fetchLanguages]. *)
Definition namedBy (displayNames : option (string → IntlResult))
    (langs : list Language.t) : Prop :=
  ∀ lang, lang ∈ langs →
    Language.name lang = getFullLanguageName displayNames (Language.code lang).

(** [onChange] of the translation edition dropdown. *)
Definition onTranslationEditionChange (val : string) : M unit :=
  modify (set_settings (set_translation val));;
  saveSettings.

(** [onChange] of the tafsir edition dropdown. *)
Definition onTafsirEditionChange (val : string) : M unit :=
  modify (set_settings (set_tafsir val));;
  eds ← gets tafsirEditions;
  modify (set_settings (set_tafsirName
    (orElse (default String.EmptyString (Edition.name <$> find (hasIdentifier val) eds))
            val)));;
  saveSettings.

(** A step that adds only local effects to the log. *)
Definition locally (t t' : Tab) : Prop :=
  ∃ post, log t' = log t ++ post ∧ Forall (λ e, isLocal e = true) post.

(** A step that adds the calls [calls] and the notices [notices] to the
    log, each in this order. *)
Definition adds (calls : list Request) (notices : list string) (t t' : Tab) : Prop :=
  ∃ post, log t' = log t ++ post
          ∧ requestsOf post = calls ∧ noticesOf post = notices.

Section Environment.

Variable displayNames : option (string → IntlResult).
Variable localeCompare : string → string → Z.
Variable engineSort : list Language.t → option (list Language.t).

(** The tab in which [fetchMetadata] calls [fetchLanguages],
    [fetchTranslationEditions] and [fetchAndProcessTafsirs]. *)
Definition atLanguages (t : Tab) : Tab := set_isLoadingMetadata true t.

Definition atEditions (net : Request → Reply) (t : Tab) : Tab :=
  tabOf (fetchLanguages displayNames localeCompare engineSort net (atLanguages t)).

Definition atTafsirs (net : Request → Reply) (t : Tab) : Tab :=
  tabOf (fetchTranslationEditions net (atEditions net t)).

(** Which of the three raises. *)
Definition languagesRaise (net : Request → Reply) (t : Tab) : bool :=
  threw (fetchLanguages displayNames localeCompare engineSort net (atLanguages t)).

Definition editionsRaise (net : Request → Reply) (t : Tab) : bool :=
  threw (fetchTranslationEditions net (atEditions net t)).

Definition tafsirsRaise (net : Request → Reply) (t : Tab) : bool :=
  threw (fetchAndProcessTafsirs displayNames localeCompare engineSort net (atTafsirs net t)).

End Environment.

End SettingsPanel.

(** ** A refresh in flight ([fetchMetadata] cut at its awaits)

    [fetchMetadata] is an [async] method: it gives control back at each
    request and at each [await this.plugin.saveSettings()], and other
    calls can be made before it goes on.  A [Session] is a tab with the
    invocations of [fetchMetadata] suspended on it; an event is a call
    of the method, the settling of the request an invocation waits for,
    or the end of the save it waits for.  [saveSettings] hands the
    settings to [saveData] when it is called, so [stored] changes at the
    call and not when the save is done. *)

Module Refresh.

Import MetadataResolver.

(** Where a suspended invocation waits. *)
Inductive Phase :=
| AwaitLanguages
| AwaitEditions
| AwaitTafsirs
| AwaitReconcileSave (tafsirJson : list CdnTafsirEdition.t)
| AwaitSelectSave.

Record Session := {
  tab : Tab;
  flights : gmap nat Phase;   (* suspended invocations *)
  next : nat                  (* next fresh invocation *)
}.

Inductive Event :=
| Call
| Settle (i : nat) (rep : Reply)
| SaveDone (i : nat).

(** How a resumed invocation goes on: to its next [await], or to its
    end. *)
Inductive Outcome :=
| Suspended (ph : Phase) (t : Tab)
| Finished (t : Tab).

(** The promise of a request settles. *)
Definition settle (rep : Reply) : M Json := λ t,
  match rep with
  | Rejected => Thrown t
  | Resolved j => Normal j t
  end.

(** [selectTafsir] ends in [await this.plugin.saveSettings()]. *)
Definition selectSaves (t : Tab) : bool :=
  match tafsirEditions t with
  | _ :: _ =>
      negb (truthy (QuranSettings.tafsir (settings t)))
      || negb (existsb (hasIdentifier (QuranSettings.tafsir (settings t))) (tafsirEditions t))
  | [] => true
  end.

(** [reconcileTafsirLanguage] ends in [await this.plugin.saveSettings()]. *)
Definition reconcileSaves (t : Tab) : bool :=
  negb (existsb (hasCode (QuranSettings.tafsirLanguage (settings t))) (tafsirLanguages t)).

Section Environment.

Variable displayNames : option (string → IntlResult).
Variable localeCompare : string → string → Z.
Variable engineSort : list Language.t → option (list Language.t).

(** The [finally] block of [fetchMetadata]. *)
Definition finish : M unit :=
  modify (set_isLoadingMetadata false);;
  display.

(** The [catch] block of [fetchMetadata], then the [finally] block. *)
Definition giveUp : M unit :=
  notice "An unexpected error occurred. Please check the console for details.";;
  finish.

(** The [catch] block of [fetchAndProcessTafsirs], whose exception goes
    on to [fetchMetadata]. *)
Definition failTafsirs : M unit :=
  notice "Failed to fetch tafsir editions. Check your internet connection.";;
  giveUp.

(** From the reply about the languages to the request of
    [fetchTranslationEditions]. *)
Definition onLanguages (rep : Reply) (t : Tab) : Outcome :=
  match tryCatch (langJson ← settle rep; languagesBody displayNames localeCompare engineSort langJson)
          (notice "Failed to fetch languages. Check your internet connection.";; throw) t with
  | Normal _ t1 =>
      Suspended AwaitEditions
        (emit (Requested (GetEditions (QuranSettings.language (settings t1)))) t1)
  | Thrown t1 => Finished (tabOf (giveUp t1))
  end.

(** From the reply about the editions to the request of
    [fetchAndProcessTafsirs]. *)
Definition onEditions (rep : Reply) (t : Tab) : Outcome :=
  match tryCatch (trJson ← settle rep; editionsBody trJson)
          (notice "Failed to fetch translations. Check your internet connection.";; throw) t with
  | Normal _ t1 => Suspended AwaitTafsirs (emit (Requested GetTafsirEditions) t1)
  | Thrown t1 => Finished (tabOf (giveUp t1))
  end.

(** [selectTafsir], to its save or to the end of the refresh. *)
Definition afterFilter (t : Tab) : Outcome :=
  match selectTafsir t with
  | Normal _ t1 =>
      if selectSaves t then Suspended AwaitSelectSave t1
      else Finished (tabOf (finish t1))
  | Thrown t1 => Finished (tabOf (failTafsirs t1))
  end.

(** From the reconciliation on: the filter, then the selection. *)
Definition afterReconcile (l : list CdnTafsirEdition.t) (t : Tab) : Outcome :=
  match filterTafsirs displayNames l t with
  | Normal _ t1 => afterFilter t1
  | Thrown t1 => Finished (tabOf (failTafsirs t1))
  end.

(** From the reply about the tafsir index to the first save, or
    further when the configured language needs no replacement. *)
Definition onTafsirs (rep : Reply) (t : Tab) : Outcome :=
  match rep with
  | Resolved (JTafsirs l) =>
      match deriveTafsirLanguages localeCompare engineSort l t with
      | Normal _ t1 =>
          if reconcileSaves t1
          then Suspended (AwaitReconcileSave l) (tabOf (reconcileTafsirLanguage t1))
          else afterReconcile l t1
      | Thrown t1 => Finished (tabOf (failTafsirs t1))
      end
  | _ => Finished (tabOf (failTafsirs t))
  end.

Definition resume (i : nat) (o : Outcome) (s : Session) : Session :=
  match o with
  | Suspended ph t =>
      {| tab := t; flights := <[i := ph]> (flights s); next := next s |}
  | Finished t =>
      {| tab := t; flights := delete i (flights s); next := next s |}
  end.

Definition step (e : Event) (s : Session) : Session :=
  match e with
  | Call =>
      if isLoadingMetadata (tab s) then s
      else
        {| tab := emit (Requested GetLanguages) (set_isLoadingMetadata true (tab s));
           flights := <[next s := AwaitLanguages]> (flights s);
           next := S (next s) |}
  | Settle i rep =>
      match flights s !! i with
      | Some AwaitLanguages => resume i (onLanguages rep (tab s)) s
      | Some AwaitEditions => resume i (onEditions rep (tab s)) s
      | Some AwaitTafsirs => resume i (onTafsirs rep (tab s)) s
      | _ => s
      end
  | SaveDone i =>
      match flights s !! i with
      | Some (AwaitReconcileSave l) => resume i (afterReconcile l (tab s)) s
      | Some AwaitSelectSave => resume i (Finished (tabOf (finish (tab s)))) s
      | _ => s
      end
  end.

(** Events are delivered oldest first. *)
Definition run (es : list Event) (s : Session) : Session :=
  fold_left (λ s e, step e s) es s.

(** What the event loop delivers to the refresh started on a tab at
    rest when every request is answered by [net] and every save ends:
    the three replies and the two saves. *)
Definition answers (net : Request → Reply) (t : Tab) (i : nat) : list Event :=
  [Settle i (net GetLanguages);
   Settle i (net (GetEditions (QuranSettings.language (settings t))));
   Settle i (net GetTafsirEditions);
   SaveDone i;
   SaveDone i].

End Environment.

(** A tab on which no refresh is suspended. *)
Definition idle (t : Tab) : Session :=
  {| tab := t; flights := ∅; next := 0%nat |}.

(** The tab after the [finally] block of [fetchMetadata], and after its
    [catch] block followed by the [finally] block. *)
Definition finished (t : Tab) : Tab := displayed (set_isLoadingMetadata false t).

Definition gaveUp (t : Tab) : Tab :=
  finished (emit (Noticed "An unexpected error occurred. Please check the console for details.") t).

(** At most one invocation is suspended, and the flag is set exactly
    while one is. *)
Definition exclusive (s : Session) : Prop :=
  (flights s = ∅ ∧ isLoadingMetadata (tab s) = false)
  ∨ (∃ i ph, flights s = {[i := ph]} ∧ isLoadingMetadata (tab s) = true).

(** A resumed invocation keeps the flag while it is suspended and clears
    it when it ends. *)
Definition holdsFlag (o : Outcome) : Prop :=
  match o with
  | Suspended _ t => isLoadingMetadata t = true
  | Finished t => isLoadingMetadata t = false
  end.

End Refresh.

(** ** Parsed JSON

    What [res.json] hands to the code.  A number is either an integer or
    [JFraction], any number that is no integer.  Objects are keyed by
    property name. *)

Module JsValues.

#[local] Set Warnings "-register-all".

Inductive JsonValue :=
| JNull
| JBool (b : bool)
| JNumber (n : Z)
| JFraction
| JString (s : ustring)
| JArray (l : list JsonValue)
| JObject (fields : gmap string JsonValue).

(** A value used as a condition. *)
Definition truthyValue (j : JsonValue) : bool :=
  match j with
  | JNull => false
  | JBool b => b
  | JNumber n => negb (bool_decide (n = 0))
  | JFraction => true
  | JString s => negb (bool_decide (s = []))
  | JArray _ => true
  | JObject _ => true
  end.

(** [j.k] for [j] other than [null] and [k] none of the properties that
    arrays and strings inherit: the own property of an object, and
    [undefined] ([None]) on anything else. *)
Definition field (k : string) (j : JsonValue) : option JsonValue :=
  match j with
  | JObject fields => fields !! k
  | _ => None
  end.

End JsValues.

(** ** The commentary button ([handleClick], main.ts)

    The click handler of the tafsir button a finished card carries.  It
    is run to its end against the reply of its one request; [tafsir] is
    [this.settings.tafsir] when the button is clicked and [tafsirName] is
    [this.settings.tafsirName] when the reply has arrived. *)

Module Commentary.

Import JsValues.

Inductive Icon :=
| Lightbulb
| Loader.

(** The arguments [TafsirModal] is constructed with. *)
Record TafsirModal := {
  tafsirAyahData : JsonValue;
  tafsirName : string
}.

Inductive Effect :=
| Requested (edition : string) (surahNum : Z)
| Noticed (msg : ustring)
| Opened (modal : TafsirModal).

(** The button and what the handler did to the outside, oldest first. *)
Record Button := {
  icon : Icon;
  disabled : bool;
  log : list Effect
}.

Definition emit (e : Effect) (b : Button) : Button :=
  {| icon := icon b; disabled := disabled b; log := log b ++ [e] |}.

Definition setState (i : Icon) (d : bool) (b : Button) : Button :=
  {| icon := i; disabled := d; log := log b |}.

(** The template string passed to [requestUrl]. *)
Definition url (edition : string) (surahNum : Z) : ustring :=
  VerseFetcher.units "https://cdn.jsdelivr.net/gh/spa5k/tafsir_api@main/tafsir/"
    ++ VerseFetcher.units edition ++ VerseFetcher.units "/"
    ++ toString surahNum ++ VerseFetcher.units ".json".

Inductive Reply :=
| Rejected
| Resolved (json : JsonValue).

(** How a piece of the handler ends: by falling through, by [return] or
    by an exception. *)
Inductive Completion :=
| Normal (b : Button)
| Returned (b : Button)
| Thrown (b : Button).

Definition buttonOf (c : Completion) : Button :=
  match c with Normal b | Returned b | Thrown b => b end.

(** [tafsirJson && tafsirJson.ayahs && Array.isArray(tafsirJson.ayahs)],
    with the array it lets through. *)
Definition ayahsOf (tafsirJson : JsonValue) : option (list JsonValue) :=
  if truthyValue tafsirJson then
    match field "ayahs" tafsirJson with
    | Some ayahs =>
        if truthyValue ayahs then
          match ayahs with
          | JArray l => Some l
          | _ => None
          end
        else None
    | None => None
    end
  else None.

(** The callback [a => a.ayah === ayahNum]; [None] is the TypeError
    raised on a [null] entry. *)
Definition isAyah (ayahNum : Z) (a : JsonValue) : option bool :=
  match a with
  | JNull => None
  | _ =>
      Some match field "ayah" a with
           | Some (JNumber n) => bool_decide (n = ayahNum)
           | _ => false
           end
  end.

(** [ayahs.find(a => a.ayah === ayahNum)]; [None] when the callback
    raises. *)
Fixpoint findAyah (ayahNum : Z) (ayahs : list JsonValue) : option (option JsonValue) :=
  match ayahs with
  | [] => Some None
  | a :: rest =>
      match isAyah ayahNum a with
      | None => None
      | Some true => Some (Some a)
      | Some false => findAyah ayahNum rest
      end
  end.

Definition notFound (ayahNum surahNum : Z) : ustring :=
  VerseFetcher.units "Tafsir not found for Ayah " ++ toString ayahNum
    ++ VerseFetcher.units " in Surah " ++ toString surahNum ++ VerseFetcher.units ".".

(** The [try] block. *)
Definition tryBody (tafsir name : string) (arData : VerseFetcher.AyahData)
    (rep : Reply) (b : Button) : Completion :=
  if negb (MetadataResolver.truthy tafsir) then
    Returned (emit (Noticed (VerseFetcher.units
      "No tafsir edition selected. Please select one in plugin settings.")) b)
  else
    let surahNum := VerseFetcher.surah_number (VerseFetcher.surah arData) in
    let ayahNum := VerseFetcher.numberInSurah arData in
    let b1 := emit (Requested tafsir surahNum) b in
    match rep with
    | Rejected => Thrown b1
    | Resolved tafsirJson =>
        match ayahsOf tafsirJson with
        | Some ayahs =>
            match findAyah ayahNum ayahs with
            | None => Thrown b1
            | Some (Some targetAyahTafsir) =>
                if truthyValue targetAyahTafsir then
                  Normal (emit (Opened {| tafsirAyahData := targetAyahTafsir;
                                          tafsirName := name |}) b1)
                else Normal (emit (Noticed (notFound ayahNum surahNum)) b1)
            | Some None => Normal (emit (Noticed (notFound ayahNum surahNum)) b1)
            end
        | None => Thrown b1
        end
    end.

(** [catch (err) { ... new Notice(...) }]. *)
Definition catchBlock (c : Completion) : Completion :=
  match c with
  | Thrown b =>
      Normal (emit (Noticed (VerseFetcher.units
        "Failed to load commentary. Check if a valid tafsir edition is selected.")) b)
  | _ => c
  end.

(** [handleClick]: the icon and the disabled flag are set before the
    [try] and reset in [finally], whichever way the [try] ends. *)
Definition handleClick (tafsir name : string) (arData : VerseFetcher.AyahData)
    (rep : Reply) (b : Button) : Button :=
  setState Lightbulb false
    (buttonOf (catchBlock (tryBody tafsir name arData rep (setState Loader true b)))).

(** What a click added to the log. *)
Definition added (b b' : Button) : list Effect := drop (length (log b)) (log b').

(** The entry [find] stops at: the first whose [ayah] is [ayahNum],
    with no [null] before it. *)
Definition firstMatch (ayahNum : Z) (ayahs : list JsonValue) (a : JsonValue) : Prop :=
  ∃ pre post, ayahs = pre ++ a :: post
    ∧ isAyah ayahNum a = Some true
    ∧ Forall (λ x, isAyah ayahNum x = Some false) pre.

End Commentary.

(** ** The type guards of the response bodies (settings.ts) *)

Module Guards.

Import JsValues.

(** The results of [typeof] a JSON value or [undefined] can have. *)
Inductive TypeOf :=
| TUndefined
| TObject
| TBoolean
| TNumber
| TString.

#[global] Instance TypeOf_eq_dec : EqDecision TypeOf.
Proof. solve_decision. Defined.

(** [typeof v]; [None] is [undefined], the value of a missing property. *)
Definition typeOf (v : option JsonValue) : TypeOf :=
  match v with
  | None => TUndefined
  | Some JNull => TObject
  | Some (JBool _) => TBoolean
  | Some (JNumber _) => TNumber
  | Some JFraction => TNumber
  | Some (JString _) => TString
  | Some (JArray _) => TObject
  | Some (JObject _) => TObject
  end.

(** [typeof d === 'object' && d !== null]. *)
Definition isObject (d : JsonValue) : bool :=
  bool_decide (typeOf (Some d) = TObject)
  && negb match d with JNull => true | _ => false end.

(** [typeof d.k === 'string'] and [typeof d.k === 'number']. *)
Definition hasString (k : string) (d : JsonValue) : bool :=
  bool_decide (typeOf (field k d) = TString).

Definition hasNumber (k : string) (d : JsonValue) : bool :=
  bool_decide (typeOf (field k d) = TNumber).

(** [Array.isArray(d.data) && d.data.every(p)]. *)
Definition everyOf (p : JsonValue → bool) (v : option JsonValue) : bool :=
  match v with
  | Some (JArray l) => forallb p l
  | _ => false
  end.

Definition isLanguageResponse (data : JsonValue) : bool :=
  isObject data
  && hasNumber "code" data
  && hasString "status" data
  && everyOf (λ item, bool_decide (typeOf (Some item) = TString)) (field "data" data).

Definition isEdition (data : JsonValue) : bool :=
  isObject data
  && hasString "identifier" data
  && hasString "language" data
  && hasString "name" data
  && hasString "englishName" data
  && hasString "format" data
  && hasString "type" data
  && (hasString "direction" data
      || match field "direction" data with Some JNull => true | _ => false end).

Definition isEditionResponse (data : JsonValue) : bool :=
  isObject data
  && hasNumber "code" data
  && hasString "status" data
  && everyOf isEdition (field "data" data).

Definition isCdnTafsirEdition (data : JsonValue) : bool :=
  isObject data
  && hasString "author_name" data
  && hasNumber "id" data
  && hasString "language_name" data
  && hasString "name" data
  && hasString "slug" data
  && hasString "source" data.

Definition isCdnTafsirEditionArray (data : JsonValue) : bool :=
  everyOf isCdnTafsirEdition (Some data).

End Guards.

(** ** The colour shown by a colour picker ([resolveColor], settings.ts)

    Numbers are integers: a run of up to fifteen digits is parsed
    exactly, and so is the sum the code forms from three of them. *)

Module Colors.

Definition startsWith (p s : string) : bool := String.prefix p s.

(** [\d] on a character. *)
Definition isDigitChar (a : Ascii.ascii) : bool :=
  let n := Ascii.N_of_ascii a in ((48 <=? n) && (n <=? 57))%N.

(** [s.match(/\d+/g)]: the maximal runs of digits, left to right; the
    empty list stands for [null].  [cur] is the run being read, last
    digit first. *)
Fixpoint digitRunsFrom (cur s : list Ascii.ascii) : list (list Ascii.ascii) :=
  match s with
  | [] =>
      match cur with
      | [] => []
      | _ => [reverse cur]
      end
  | a :: s' =>
      if isDigitChar a then digitRunsFrom (a :: cur) s'
      else
        match cur with
        | [] => digitRunsFrom [] s'
        | _ => reverse cur :: digitRunsFrom [] s'
        end
  end.

Definition digitRuns (s : string) : list (list Ascii.ascii) :=
  digitRunsFrom [] (String.list_ascii_of_string s).

(** [parseInt] on a run of digits. *)
Definition parseInt (run : list Ascii.ascii) : Z :=
  fold_left (λ acc a, 10 * acc + (Z.of_N (Ascii.N_of_ascii a) - 48)) run 0.

(** The 32-bit signed integer a shift works on and produces. *)
Definition toInt32 (z : Z) : Z := (z + 2 ^ 31) mod 2 ^ 32 - 2 ^ 31.

(** [x << k]. *)
Definition shl (x k : Z) : Z := toInt32 (Z.shiftl (toInt32 x) k).

Fixpoint hexUintDigits (d : Hexadecimal.uint) : list N :=
  match d with
  | Hexadecimal.Nil => []
  | Hexadecimal.D0 d => 0%N :: hexUintDigits d
  | Hexadecimal.D1 d => 1%N :: hexUintDigits d
  | Hexadecimal.D2 d => 2%N :: hexUintDigits d
  | Hexadecimal.D3 d => 3%N :: hexUintDigits d
  | Hexadecimal.D4 d => 4%N :: hexUintDigits d
  | Hexadecimal.D5 d => 5%N :: hexUintDigits d
  | Hexadecimal.D6 d => 6%N :: hexUintDigits d
  | Hexadecimal.D7 d => 7%N :: hexUintDigits d
  | Hexadecimal.D8 d => 8%N :: hexUintDigits d
  | Hexadecimal.D9 d => 9%N :: hexUintDigits d
  | Hexadecimal.Da d => 10%N :: hexUintDigits d
  | Hexadecimal.Db d => 11%N :: hexUintDigits d
  | Hexadecimal.Dc d => 12%N :: hexUintDigits d
  | Hexadecimal.Dd d => 13%N :: hexUintDigits d
  | Hexadecimal.De d => 14%N :: hexUintDigits d
  | Hexadecimal.Df d => 15%N :: hexUintDigits d
  end.

(** Hexadecimal digits of a natural number, most significant first. *)
Definition hexDigits (n : N) : list N := hexUintDigits (N.to_hex_uint n).

(** The character of the hexadecimal digit [d]: [0-9a-f]. *)
Definition hexChar (d : N) : Ascii.ascii :=
  if (d <? 10)%N then Ascii.ascii_of_N (48 + d) else Ascii.ascii_of_N (87 + d).

(** [Number.prototype.toString(16)] on an integer. *)
Definition toString16 (z : Z) : list Ascii.ascii :=
  match z with
  | Z0 => [hexChar 0]
  | Zpos p => hexChar <$> hexDigits (Npos p)
  | Zneg p => Ascii.ascii_of_N 45 :: (hexChar <$> hexDigits (Npos p))
  end.

(** The digit [r] put in front of a [Hexadecimal.uint]. *)
Definition consHex (r : N) (d : Hexadecimal.uint) : Hexadecimal.uint :=
  match r with
  | 0 => Hexadecimal.D0 d | 1 => Hexadecimal.D1 d | 2 => Hexadecimal.D2 d
  | 3 => Hexadecimal.D3 d | 4 => Hexadecimal.D4 d | 5 => Hexadecimal.D5 d
  | 6 => Hexadecimal.D6 d | 7 => Hexadecimal.D7 d | 8 => Hexadecimal.D8 d
  | 9 => Hexadecimal.D9 d | 10 => Hexadecimal.Da d | 11 => Hexadecimal.Db d
  | 12 => Hexadecimal.Dc d | 13 => Hexadecimal.Dd d | 14 => Hexadecimal.De d
  | _ => Hexadecimal.Df d
  end%N.

(** Two hexadecimal digits for a colour component. *)
Definition hexByte (x : Z) : string :=
  String.String (hexChar (Z.to_N (x / 16)))
    (String.String (hexChar (Z.to_N (x mod 16))) String.EmptyString).

Section Environment.

(** [getComputedStyle(temp).color] for an element whose [style.color]
    was assigned [color]. *)
Variable computedColor : string → string.

Definition resolveColor (color : string) : string :=
  let plain := if startsWith "#" color then color else "#000000"%string in
  if startsWith "var(" color then
    match digitRuns (computedColor color) with
    | m0 :: m1 :: m2 :: _ =>
        let r := parseInt m0 in
        let g := parseInt m1 in
        let b := parseInt m2 in
        "#" +:+ String.string_of_list_ascii
                  (drop 1 (toString16 (shl 1 24 + shl r 16 + shl g 8 + b)))
    | _ => plain
    end
  else plain.

End Environment.

End Colors.

(** * Properties *)

(** ** Decimal rendering and digit transliteration *)

Section DecimalRendering.

Import ArabicDigits.

Lemma uintDigits_consDigit r d :
  (r < 10)%N → uintDigits (consDigit r d) = r :: uintDigits d.
Proof.
  intros Hr.
  assert (Hc : r ∈ [0; 1; 2; 3; 4; 5; 6; 7; 8; 9]%N).
  { destruct r as [|p]; [set_solver|].
    do 9 (destruct p as [p|p|]; try lia; try set_solver). }
  repeat (apply elem_of_cons in Hc as [->|Hc]; [reflexivity|]).
  by apply elem_of_nil in Hc.
Qed.

Lemma uintDigits_revapp d d' :
  uintDigits (revapp d d') = reverse (uintDigits d) ++ uintDigits d'.
Proof.
  revert d'. induction d; intros d'; simpl; [done|..];
    rewrite IHd, reverse_cons, <- app_assoc; done.
Qed.

Lemma to_lu_tenfold_add p r :
  (r < 10)%N →
  Unsigned.to_lu (10 * Npos p + r) = consDigit r (Unsigned.to_lu (Npos p)).
Proof.
  intros Hr.
  assert (Hc : r ∈ [0; 1; 2; 3; 4; 5; 6; 7; 8; 9]%N).
  { destruct r as [|q]; [set_solver|].
    do 9 (destruct q as [q|q|]; try lia; try set_solver). }
  pose proof (Unsigned.to_ldec_tenfold p) as H10.
  repeat (apply elem_of_cons in Hc as [->|Hc];
    [ rewrite N.add_comm, Unsigned.Nadd_alt;
      cbv [N.to_nat Pos.to_nat Pos.iter_op Init.Nat.add Nat.iter nat_rect];
      rewrite ?Unsigned.to_lu_succ, H10; reflexivity |]).
  by apply elem_of_nil in Hc.
Qed.

Lemma decimalDigits_tenfold_add q r :
  (0 < q)%N → (r < 10)%N →
  decimalDigits (10 * q + r) = decimalDigits q ++ [r].
Proof.
  intros Hq Hr. destruct q as [|p]; [lia|].
  unfold decimalDigits.
  destruct (10 * N.pos p + r)%N as [|p'] eqn:E; [lia|].
  unfold N.to_uint, Pos.to_uint.
  change (Pos.to_little_uint p') with (Unsigned.to_lu (N.pos p')).
  rewrite <- E, to_lu_tenfold_add by done.
  change (Pos.to_little_uint p) with (Unsigned.to_lu (N.pos p)).
  unfold Decimal.rev.
  rewrite !uintDigits_revapp, uintDigits_consDigit by done.
  rewrite reverse_cons. simpl. by rewrite !app_nil_r.
Qed.

Lemma decimalDigits_small r : (r < 10)%N → decimalDigits r = [r].
Proof.
  intros Hr.
  assert (Hc : r ∈ [0; 1; 2; 3; 4; 5; 6; 7; 8; 9]%N).
  { destruct r as [|q]; [set_solver|].
    do 9 (destruct q as [q|q|]; try lia; try set_solver). }
  repeat (apply elem_of_cons in Hc as [->|Hc]; [reflexivity|]).
  by apply elem_of_nil in Hc.
Qed.


Lemma fromDigits_snoc ds r : fromDigits (ds ++ [r]) = (10 * fromDigits ds + r)%N.
Proof. unfold fromDigits. by rewrite fold_left_app. Qed.

Lemma fromDigits_pos ds :
  ds ≠ [] → head ds ≠ Some 0%N → (0 < fromDigits ds)%N.
Proof.
  induction ds as [|r ds IH] using rev_ind; [done|].
  intros _ Hhd. rewrite fromDigits_snoc.
  destruct ds as [|d ds'].
  - simpl in *. assert (r ≠ 0%N) by congruence. lia.
  - assert (0 < fromDigits (d :: ds'))%N by (apply IH; done). lia.
Qed.

Lemma decimalDigits_fromDigits ds :
  ds ≠ [] → Forall (λ x, (x < 10)%N) ds → head ds ≠ Some 0%N →
  decimalDigits (fromDigits ds) = ds.
Proof.
  induction ds as [|r ds IH] using rev_ind; [done|].
  intros _ Hall Hhd. apply Forall_app in Hall as [Hall Hr].
  apply Forall_cons in Hr as [Hr _].
  rewrite fromDigits_snoc. destruct ds as [|d ds'].
  - simpl. by apply decimalDigits_small.
  - rewrite decimalDigits_tenfold_add; [|by apply fromDigits_pos|done].
    by rewrite IH.
Qed.

Lemma toString_of_N n : toString (Z.of_N n) = digitUnit <$> decimalDigits n.
Proof. by destruct n. Qed.

Lemma replacer_digitUnit d : (d < 10)%N → replacer (digitUnit d) = glyph d.
Proof.
  intros Hd.
  assert (Hc : d ∈ [0; 1; 2; 3; 4; 5; 6; 7; 8; 9]%N).
  { destruct d as [|q]; [set_solver|].
    do 9 (destruct q as [q|q|]; try lia; try set_solver). }
  repeat (apply elem_of_cons in Hc as [->|Hc]; [reflexivity|]).
  by apply elem_of_nil in Hc.
Qed.

Lemma isDigit_digitUnit d : (d < 10)%N → isDigit (digitUnit d) = true.
Proof.
  intros Hd. unfold isDigit, digitUnit.
  apply andb_true_iff. split; apply N.leb_le; lia.
Qed.

Lemma replaceDigits_digitUnits ds :
  Forall (λ x, (x < 10)%N) ds → replaceDigits (digitUnit <$> ds) = glyph <$> ds.
Proof.
  induction 1 as [|d ds Hd _ IH]; [done|].
  unfold replaceDigits in *. cbn [fmap list_fmap]. cbn [fmap] in IH. rewrite IH.
  by rewrite isDigit_digitUnit, replacer_digitUnit.
Qed.

Lemma replacer_non_digit c : isDigit c = false → replacer c = c.
Proof. intros Hc. unfold replacer, parseInt. by rewrite Hc. Qed.

(** C2.  [toArabicDigits] maps a digit [d] of [0..9] to the [d]-th glyph of
    the ten-glyph table (so 0 goes to the 0-th glyph); a number below
    2^53 written with the digits [ds], most significant first, goes to
    the glyphs of [ds] in the same order (255 to glyphs 2, 5, 5), and so
    does any rendering that consists of the digits [ds], whatever number
    it renders; and a unit of the rendering that is not a digit, such as
    the sign of a negative number above -2^53, is left as it is: the
    replacer and the replacement are total. *)
Theorem toArabicDigits_transliterates
    (d : N) (ds : list N) (n : Z) (c : unit16) (s1 s2 : ustring) :
  (d < 10)%N →
  ds ≠ [] → Forall (λ x, (x < 10)%N) ds → head ds ≠ Some 0%N →
  (fromDigits ds < 2 ^ 53)%N →
  - 2 ^ 53 < n < 0 →
  isDigit c = false →
  digits !! N.to_nat d = Some (glyph d)
  ∧ glyph d = (0x660 + d)%N
  ∧ toArabicDigits (Z.of_N d) = [glyph d]
  ∧ toArabicDigits (Z.of_N (fromDigits ds)) = glyph <$> ds
  ∧ replaceDigits (digitUnit <$> ds) = glyph <$> ds
  ∧ toArabicDigits 255 = [glyph 2; glyph 5; glyph 5]
  ∧ replacer c = c
  ∧ replaceDigits (s1 ++ c :: s2) = replaceDigits s1 ++ c :: replaceDigits s2
  ∧ toArabicDigits n = minusUnit :: toArabicDigits (- n).
Proof.
  intros Hd Hne Hall Hhd _ [_ Hn] Hc.
  assert (Hin : d ∈ [0; 1; 2; 3; 4; 5; 6; 7; 8; 9]%N).
  { destruct d as [|q]; [set_solver|].
    do 9 (destruct q as [q|q|]; try lia; try set_solver). }
  split.
  { repeat (apply elem_of_cons in Hin as [->|Hin]; [reflexivity|]).
    by apply elem_of_nil in Hin. }
  split.
  { repeat (apply elem_of_cons in Hin as [->|Hin]; [reflexivity|]).
    by apply elem_of_nil in Hin. }
  split.
  { unfold toArabicDigits. rewrite toString_of_N, decimalDigits_small by done.
    by rewrite (replaceDigits_digitUnits [d]) by (by constructor). }
  split.
  { unfold toArabicDigits.
    by rewrite toString_of_N, decimalDigits_fromDigits, replaceDigits_digitUnits. }
  split; [by apply replaceDigits_digitUnits|].
  split; [reflexivity|].
  split; [by apply replacer_non_digit|].
  split.
  { unfold replaceDigits. rewrite fmap_app. cbn [fmap list_fmap]. by rewrite Hc. }
  destruct n as [|p|p]; [lia|lia|].
  unfold toArabicDigits. cbn [Z.opp toString]. unfold replaceDigits. by cbn.
Qed.

Lemma toArabicDigits_transliterates_witness :
  toArabicDigits 7 = [0x667%N]
  ∧ toArabicDigits 114 = [0x661; 0x661; 0x664]%N
  ∧ toArabicDigits (-12) = 45%N :: toArabicDigits 12.
Proof.
  pose proof (toArabicDigits_transliterates 7 [1; 1; 4]%N (-12) 45%N [] []
    ltac:(reflexivity) ltac:(discriminate)
    ltac:(repeat constructor) ltac:(discriminate) ltac:(reflexivity)
    ltac:(split; reflexivity) ltac:(reflexivity))
    as (_ & _ & H1 & H2 & _ & _ & _ & _ & H3).
  split; [exact H1|]. split; [exact H2|exact H3].
Defined.

End DecimalRendering.

(** ** The verse card *)

Section VerseFetcherFacts.

Import VerseFetcher.

Lemma run_app es1 es2 w : run (es1 ++ es2) w = run es2 (run es1 w).
Proof. unfold run. apply fold_left_app. Qed.

Lemma run_snoc es e w : run (es ++ [e]) w = step e (run es w).
Proof. by rewrite run_app. Qed.

Lemma tryCatch_inv c body w0 :
  attemptInv w0 →
  match body with
  | Normal w | Thrown w =>
      timers w = timers w0 ∧ cleanups w = cleanups w0 ∧ loaded w = loaded w0
      ∧ (∀ c' ph, tasks w !! c' = Some ph → c' ≠ c → cards w !! c' = Some loadingCard)
  end →
  match body with
  | Normal w => ∀ ph, tasks w !! c = Some ph → cards w !! c = Some loadingCard
  | Thrown _ => True
  end →
  attemptInv (tryCatch c body).
Proof.
  intros [I1 I2] Hb Hn. destruct body as [w|w]; simpl.
  - destruct Hb as (Ht & Hc & Hl & Hk). split.
    + intros c' ph Hph. destruct (decide (c' = c)) as [->|]; eauto.
    + rewrite Ht, Hc, Hl. done.
  - destruct Hb as (Ht & Hc & Hl & Hk). split; simpl.
    + intros c' ph Hph. apply lookup_delete_Some in Hph as [? Hph]. eauto.
    + intros t tm Htm Hld. rewrite Hc, elem_of_app, list_elem_of_singleton.
      destruct (decide (next w = t)) as [|Hne]; [by right|left].
      rewrite lookup_insert_ne in Htm by done.
      rewrite Ht in Htm. rewrite Hl in Hld. eauto.
Qed.

Lemma onLookup_inv c rep w :
  attemptInv w → tasks w !! c = Some AwaitLookup → attemptInv (onLookup c rep w).
Proof.
  intros HI Hc. pose proof HI as [I1 I2]. unfold onLookup.
  apply (tryCatch_inv c _ w); [done|..]; unfold lookupBody;
    repeat case_match; simplify_eq/=; try done; repeat split; eauto.
  intros c' ph Hph Hne; rewrite ?lookup_insert_ne in Hph by done; eauto.
Qed.

Lemma cards_alter_other f c c' (m : gmap nat (list Node)) :
  c' ≠ c → alter f c m !! c' = m !! c'.
Proof. intros. by apply lookup_alter_ne. Qed.

Lemma onEditions_inv c ar tr w :
  attemptInv w → attemptInv (onEditions c ar tr w).
Proof.
  intros HI. pose proof HI as [I1 I2]. unfold onEditions.
  apply (tryCatch_inv c _ w); [done|..]; unfold editionsBody;
    repeat case_match; simplify_eq/=; try done; repeat split; eauto.
  all: try (intros c' ph Hph Hne; rewrite ?lookup_delete_ne in Hph by done;
            rewrite ?lookup_alter_ne by done; eauto).
  intros ph Hph. by rewrite lookup_delete_eq in Hph.
Qed.

Lemma renderVerse_inv r w : attemptInv w → attemptInv (renderVerse r w).
Proof.
  intros [I1 I2]. split; simpl; [|done].
  intros c ph Hph. destruct (decide (next w = c)) as [->|Hne].
  - by rewrite lookup_insert_eq.
  - rewrite lookup_insert_ne in Hph by done. rewrite lookup_insert_ne by done. eauto.
Qed.

Lemma timers_foldr_clear l w :
  timers (foldr clearTimeout w l) = foldr delete (timers w) l
  ∧ tasks (foldr clearTimeout w l) = tasks w
  ∧ cards (foldr clearTimeout w l) = cards w
  ∧ requests (foldr clearTimeout w l) = requests w
  ∧ mounted (foldr clearTimeout w l) = mounted w
  ∧ connected (foldr clearTimeout w l) = connected w
  ∧ cleanups (foldr clearTimeout w l) = cleanups w
  ∧ now (foldr clearTimeout w l) = now w.
Proof.
  induction l as [|t l IH]; simpl; [done|].
  destruct IH as (-> & -> & -> & -> & -> & -> & -> & ->). done.
Qed.

Lemma lookup_foldr_delete (m : gmap nat Timer) l t :
  foldr delete m l !! t = if decide (t ∈ l) then None else m !! t.
Proof.
  induction l as [|x l IH]; cbn [foldr].
  - rewrite decide_False; [done|apply not_elem_of_nil].
  - destruct (decide (x = t)) as [->|Hne].
    + rewrite lookup_delete_eq, decide_True; [done|left].
    + rewrite lookup_delete_ne, IH by done. destruct (decide (t ∈ l)) as [Hin|Hin].
      * rewrite decide_True; [done|by right].
      * rewrite decide_False; [done|]. intros [?|?]%elem_of_cons; congruence.
Qed.

Lemma unload_inv w : attemptInv w → attemptInv (unload w).
Proof.
  intros HI. unfold unload. destruct (loaded w) eqn:Hl; [|done]. destruct HI as [I1 I2].
  destruct (timers_foldr_clear (cleanups w) w) as (Ht & Hk & Hc & _).
  split; simpl; [|done]. rewrite Hk, Hc. done.
Qed.

Lemma step_inv e w : attemptInv w → attemptInv (step e w).
Proof.
  intros HI. pose proof HI as [I1 I2]. destruct e; simpl.
  - done.
  - destruct (timers w !! t) as [tm|] eqn:Ht; [|done].
    case_bool_decide; [|done].
    assert (attemptInv (set_timers (delete t) w)) as HI'.
    { split; simpl; [done|]. intros t' tm' Ht'. apply lookup_delete_Some in Ht' as [_ Ht']. eauto. }
    unfold retryCallback. case_match; [|done]. by apply renderVerse_inv.
  - destruct (tasks w !! c) as [[]|] eqn:Hc; try done. by apply onLookup_inv.
  - destruct (tasks w !! c) as [[]|] eqn:Hc; try done. by apply onEditions_inv.
  - case_match; [|done]. by apply renderVerse_inv.
  - by apply unload_inv.
  - done.
  - unfold teardown. by apply unload_inv in HI.
Qed.

Lemma reachable_inv w : reachable w → attemptInv w.
Proof.
  intros (tr & r & es & ->). induction es as [|e es IH] using rev_ind.
  - apply renderVerse_inv. split; simpl; intros ??; by rewrite lookup_empty.
  - rewrite run_snoc. by apply step_inv.
Qed.

Lemma unload_cancels w :
  attemptInv w → loaded w = true → timers (unload w) = ∅.
Proof.
  intros [_ I2] Hl. unfold unload. rewrite Hl. simpl.
  destruct (timers_foldr_clear (cleanups w) w) as (-> & _).
  apply map_eq. intros t. rewrite lookup_foldr_delete, lookup_empty.
  case_decide as Hin; [done|].
  destruct (timers w !! t) eqn:Ht; [|done]. exfalso. eauto.
Qed.

(** Once [el] is detached nothing re-attaches it, and from then on the
    request log only grows by edition lookups of invocations that were
    already suspended. *)
Lemma step_detached e w :
  connected w = false →
  connected (step e w) = false
  ∧ mounted (step e w) = mounted w
  ∧ (∃ extra, requests (step e w) = requests w ++ extra ∧ Forall editionLookup extra)
  ∧ (tasks w = ∅ → tasks (step e w) = ∅ ∧ requests (step e w) = requests w).
Proof.
  intros Hc.
  assert (Hnil : ∃ extra, requests w = requests w ++ extra ∧ Forall editionLookup extra).
  { exists []. by rewrite app_nil_r. }
  destruct e; simpl.
  - done.
  - destruct (timers w !! t) as [tm|]; [|done]. case_bool_decide; [|done].
    unfold retryCallback, isConnected. simpl. rewrite Hc. simpl. done.
  - destruct (tasks w !! c) as [[]|] eqn:Hk; try done.
    assert (tasks w ≠ ∅) as Hne by (intros E; rewrite E, lookup_empty in Hk; done).
    unfold onLookup, lookupBody. repeat case_match; simpl; repeat split; try done.
    eexists. split; [done|]. repeat constructor.
  - destruct (tasks w !! c) as [[]|] eqn:Hk; try done.
    assert (tasks w ≠ ∅) as Hne by (intros E; rewrite E, lookup_empty in Hk; done).
    unfold onEditions, editionsBody. repeat case_match; simpl; repeat split; try done.
  - unfold reloadVisible. rewrite Hc. simpl. done.
  - unfold unload. destruct (loaded w); [|done]. simpl.
    destruct (timers_foldr_clear (cleanups w) w) as (_ & Hk & _ & Hr & Hm & Hcn & _).
    rewrite ?Hk, ?Hr, ?Hm, ?Hcn. done.
  - done.
  - unfold teardown, unload. destruct (loaded w); [|done]. simpl.
    destruct (timers_foldr_clear (cleanups w) w) as (_ & Hk & _ & Hr & Hm & Hcn & _).
    rewrite ?Hk, ?Hr, ?Hm, ?Hcn. done.
Qed.

Lemma run_detached es w :
  connected w = false →
  connected (run es w) = false
  ∧ mounted (run es w) = mounted w
  ∧ (∃ extra, requests (run es w) = requests w ++ extra ∧ Forall editionLookup extra)
  ∧ (tasks w = ∅ → tasks (run es w) = ∅ ∧ requests (run es w) = requests w).
Proof.
  intros Hc. induction es as [|e es IH] using rev_ind.
  - simpl. repeat split; try done. exists []. by rewrite app_nil_r.
  - rewrite run_snoc. destruct IH as (Hc' & Hm & (ex & Hr & Hf) & Ht).
    destruct (step_detached e _ Hc') as (Hc2 & Hm2 & (ex2 & Hr2 & Hf2) & Ht2).
    split; [done|]. split; [congruence|]. split.
    + exists (ex ++ ex2). rewrite Hr2, Hr, app_assoc. split; [done|]. by apply Forall_app.
    + intros E. destruct (Ht E) as [E1 E2]. destruct (Ht2 E1) as [E3 E4]. split; congruence.
Qed.


Lemma teardown_fields w :
  connected (teardown w) = false
  ∧ requests (teardown w) = requests w
  ∧ mounted (teardown w) = mounted w
  ∧ tasks (teardown w) = tasks w.
Proof.
  unfold teardown, unload. destruct (loaded w); simpl; [|done].
  destruct (timers_foldr_clear (cleanups w) w) as (_ & Hk & _ & Hr & Hm & _).
  by rewrite Hk, Hr, Hm.
Qed.

Lemma fire_detached w t r :
  connected w = false →
  requests (step (Fire t r) w) = requests w
  ∧ mounted (step (Fire t r) w) = mounted w
  ∧ tasks (step (Fire t r) w) = tasks w.
Proof.
  intros Hc. simpl. destruct (timers w !! t) as [tm|]; [|done].
  case_bool_decide; [|done].
  unfold retryCallback, isConnected. simpl. by rewrite Hc.
Qed.

(** C1.  When the lookup of the random reference resolves with code 200,
    the two requests issued next (Uthmani text and configured translation)
    are both keyed by [number] of the returned payload, and nothing else
    is requested for that invocation; on a whole attempt with draw
    [r + 1], when the returned index differs from the draw both edition
    lookups carry the returned index and not the draw. *)
Theorem edition_lookups_use_canonical_index
    (w : World) (c : nat) (json : ApiResponse) (d : AyahData) :
  tasks w !! c = Some AwaitLookup →
  code json = 200 →
  data json = Some d →
  let w' := step (LookupReply c (Resolved json)) w in
  requests w' = requests w ++ [AyahInEdition (number d) "quran-uthmani";
                               AyahInEdition (number d) (translation w)]
  ∧ (∀ q, q ∈ drop (length (requests w)) (requests w') → key q = number d)
  ∧ (∀ ar tr, requests (step (EditionsReply c ar tr) w') = requests w')
  ∧ (∀ tr r,
       let w1 := run [LookupReply 0 (Resolved json)] (mount tr r) in
       requests w1 = [AyahByNumber (r + 1);
                      AyahInEdition (number d) "quran-uthmani";
                      AyahInEdition (number d) tr]
       ∧ (number d ≠ r + 1 →
          ∀ q, q ∈ drop 1 (requests w1) → key q = number d ∧ key q ≠ r + 1)).
Proof.
  intros Hc H200 Hd.
  assert (Hbody : ∀ w0 c0, lookupBody c0 (Resolved json) w0
            = Normal (set_tasks (<[c0 := AwaitEditions]>)
                (issue [AyahInEdition (number d) "quran-uthmani";
                        AyahInEdition (number d) (translation w0)] w0))).
  { intros w0 c0. unfold lookupBody. rewrite Hd.
    rewrite bool_decide_eq_false_2 by (intros Hne; by apply Hne). done. }
  cbn zeta. cbn [step]. rewrite Hc. unfold onLookup. rewrite Hbody. cbn [tryCatch].
  split; [done|]. split.
  - cbn [requests set_tasks issue]. rewrite drop_app_length.
    intros q Hq. repeat (apply elem_of_cons in Hq as [->|Hq]; [done|]).
    by apply elem_of_nil in Hq.
  - split.
    + intros ar tr. cbn [step tasks set_tasks issue]. rewrite lookup_insert_eq.
      unfold onEditions, editionsBody. repeat case_match; done.
    + intros tr r. cbn zeta. unfold run, mount. cbn [fold_left step renderVerse tasks next surface].
      rewrite lookup_insert_eq. unfold onLookup. rewrite Hbody. cbn.
      split; [done|]. intros Hne q Hq.
      repeat (apply elem_of_cons in Hq as [->|Hq]; [done|]).
      by apply elem_of_nil in Hq.
Qed.

Lemma edition_lookups_use_canonical_index_witness :
  requests (step (LookupReply 0 (Resolved (sampleJson 777))) (mount "en.itani" 499))
  = [AyahByNumber 500; AyahInEdition 777 "quran-uthmani"; AyahInEdition 777 "en.itani"].
Proof.
  exact (proj1 (edition_lookups_use_canonical_index (mount "en.itani" 499) 0
                  (sampleJson 777) (sampleAyah 777) eq_refl eq_refl eq_refl)).
Defined.

(** C3.  If the reply that resumes a suspended [renderVerse] is a failure
    (the lookup rejects or has a code other than 200, or one of the two
    edition requests does), the card keeps its header and four skeletons
    and shows no verse content, no request is issued, the invocation ends
    in its [catch] block, and exactly one timeout is registered, due 5000
    ms later.  That timeout is the retry: it does nothing if fired
    earlier; fired at its time it is gone and cannot fire again, and it
    starts a new invocation (a new mounted card with its skeletons and
    one new lookup, for the reference drawn then) if the failed card is
    still on screen, and nothing otherwise. *)
Theorem failed_call_keeps_skeleton_and_schedules_retry
    (w : World) (c : nat) (e : Event) :
  reachable w →
  (∃ rep, e = LookupReply c rep ∧ tasks w !! c = Some AwaitLookup ∧ failed rep)
  ∨ (∃ ar tr, e = EditionsReply c ar tr ∧ tasks w !! c = Some AwaitEditions
              ∧ (failed ar ∨ failed tr)) →
  let w' := step e w in
  let t := next w in
  cards w' !! c = Some loadingCard
  ∧ existsb isContent loadingCard = false
  ∧ filter (λ n, isSkeleton n = true) loadingCard
    = [SkeletonArabic; SkeletonDivider; SkeletonEnglish; SkeletonMeta]
  ∧ cards w' = cards w
  ∧ timers w' = <[t := {| due := now w + 5000; owner := c |}]> (timers w)
  ∧ t ∈ cleanups w'
  ∧ tasks w' = delete c (tasks w)
  ∧ requests w' = requests w
  ∧ (∀ r dt, dt < 5000 → step (Fire t r) (step (Tick dt) w') = step (Tick dt) w')
  ∧ (∀ r dt, 5000 ≤ dt →
       let w2 := step (Fire t r) (step (Tick dt) w') in
       timers w2 = delete t (timers w')
       ∧ (∀ r', step (Fire t r') w2 = w2)
       ∧ if isConnected c w
         then requests w2 = requests w ++ [AyahByNumber (r + 1)]
              ∧ mounted w2 = Some (S t)
              ∧ cards w2 !! S t = Some loadingCard
              ∧ tasks w2 !! S t = Some AwaitLookup
         else requests w2 = requests w
              ∧ mounted w2 = mounted w
              ∧ tasks w2 = tasks w'
              ∧ cards w2 = cards w).
Proof.
  intros Hreach He. apply reachable_inv in Hreach as [I1 _].
  assert (Hcard : ∃ ph, tasks w !! c = Some ph).
  { destruct He as [(rep & _ & H & _)|(ar & tr & _ & H & _)]; eauto. }
  destruct Hcard as [ph Hph]. pose proof (I1 _ _ Hph) as Hcard.
  assert (Hw' : step e w = scheduleRetry c (set_tasks (delete c) w)).
  { destruct He as [(rep & -> & Hk & Hf)|(ar & tr & -> & Hk & Hf)]; cbn [step]; rewrite Hk.
    - unfold onLookup, lookupBody. destruct rep as [|j]; [done|]. simpl in Hf.
      by rewrite bool_decide_eq_true_2.
    - unfold onEditions, editionsBody.
      destruct ar as [|ja]; [done|]. destruct tr as [|jt]; [done|]. simpl in Hf.
      destruct Hf as [Hf|Hf]; rewrite (bool_decide_eq_true_2 _ Hf); [done|].
      by rewrite orb_true_r. }
  cbn zeta. rewrite Hw'. cbn [scheduleRetry set_tasks cards timers cleanups tasks requests next now].
  split; [done|]. split; [reflexivity|]. split; [reflexivity|].
  split; [done|]. split; [done|].
  split; [rewrite elem_of_app, list_elem_of_singleton; by right|].
  split; [done|]. split; [done|]. split.
  - intros r dt Hdt. cbn [step advance timers scheduleRetry set_tasks next now].
    rewrite lookup_insert_eq. cbn [due].
    rewrite bool_decide_eq_false_2; [done|]. lia.
  - intros r dt Hdt. cbn zeta.
    cbn [step advance timers scheduleRetry set_tasks next now].
    rewrite lookup_insert_eq. cbn [due owner].
    rewrite bool_decide_eq_true_2 by lia.
    unfold retryCallback.
    replace (isConnected c (set_timers (delete (next w))
      (advance dt (scheduleRetry c (set_tasks (delete c) w)))))
      with (isConnected c w) by reflexivity.
    destruct (isConnected c w) eqn:Hcon.
    + split; [done|]. split.
      { intros r'. cbn [step timers renderVerse set_timers advance scheduleRetry set_tasks].
        by rewrite lookup_delete_eq. }
      cbn [requests mounted cards tasks renderVerse set_timers advance scheduleRetry
           set_tasks next].
      by rewrite !lookup_insert_eq.
    + split; [done|]. split.
      { intros r'. cbn [step timers set_timers advance scheduleRetry set_tasks].
        by rewrite lookup_delete_eq. }
      done.
Qed.

Lemma failed_call_keeps_skeleton_and_schedules_retry_witness :
  let w := mount "en.itani" 499 in
  let w' := step (LookupReply 0 Rejected) w in
  cards w' !! 0%nat = Some loadingCard
  ∧ timers w' = {[ 1%nat := {| due := 5000; owner := 0 |} ]}
  ∧ requests (step (Fire 1 6) (step (Tick 5000) w'))
    = [AyahByNumber 500; AyahByNumber 7].
Proof.
  intros w w'.
  assert (Hr : reachable w) by (exists "en.itani"%string, 499, []; reflexivity).
  pose proof (failed_call_keeps_skeleton_and_schedules_retry w 0 (LookupReply 0 Rejected) Hr
    (or_introl (ex_intro _ Rejected (conj eq_refl (conj eq_refl I)))))
    as (H1 & _ & _ & _ & H3 & _ & _ & _ & _ & H10).
  split; [exact H1|]. split; [exact H3|].
  exact (proj1 (proj2 (proj2 (H10 6 5000 ltac:(lia))))).
Defined.

(** C4.  Tearing the surface down cancels every pending retry (unloading
    [ctx] alone already clears them all), so no timeout fires afterwards;
    and whatever is delivered after the teardown, a timeout callback that
    runs on a detached card starts nothing.  No lookup of a fresh random
    reference is ever issued after the teardown: the log can only grow by
    the edition lookups of invocations that were already suspended, and
    does not grow at all when there was none. *)
Theorem no_retry_after_teardown (w : World) (es : list Event) :
  reachable w →
  loaded w = true →
  let w0 := step Teardown w in
  let w' := run es w0 in
  timers w0 = ∅
  ∧ timers (step Unload w) = ∅
  ∧ (∀ t r, step (Fire t r) w0 = w0)
  ∧ (∀ w1 t r, connected w1 = false →
       requests (step (Fire t r) w1) = requests w1
       ∧ mounted (step (Fire t r) w1) = mounted w1
       ∧ tasks (step (Fire t r) w1) = tasks w1)
  ∧ (∃ extra, requests w' = requests w ++ extra ∧ Forall editionLookup extra)
  ∧ mounted w' = mounted w
  ∧ (tasks w = ∅ → requests w' = requests w).
Proof.
  intros Hreach Hl. apply reachable_inv in Hreach as HI.
  pose proof (unload_cancels w HI Hl) as Hu.
  destruct (teardown_fields w) as (Hc & Hr & Hm & Hk).
  assert (Ht0 : timers (teardown w) = ∅) by (unfold teardown; simpl; done).
  cbn zeta. cbn [step].
  split; [done|]. split; [done|]. split.
  { intros t r. by rewrite Ht0, lookup_empty. }
  split; [intros w1 t r; apply fire_detached|].
  destruct (run_detached es _ Hc) as (_ & Hm' & (ex & Hr' & Hf) & Ht').
  split; [|split].
  - exists ex. by rewrite Hr', Hr.
  - congruence.
  - intros E. rewrite Hk in Ht'. destruct (Ht' E) as [_ ->]. done.
Qed.

Lemma no_retry_after_teardown_witness :
  let w := run [LookupReply 0 Rejected] (mount "en.itani" 499) in
  timers w = {[ 1%nat := {| due := 5000; owner := 0 |} ]}
  ∧ timers (step Teardown w) = ∅
  ∧ requests (run [Tick 5000; Fire 1 7] (step Teardown w)) = requests w.
Proof.
  intros w.
  assert (Hr : reachable w) by (exists "en.itani"%string, 499, [LookupReply 0 Rejected]; reflexivity).
  pose proof (no_retry_after_teardown w [Tick 5000; Fire 1 7] Hr eq_refl)
    as (H1 & _ & _ & _ & _ & _ & H7).
  split; [reflexivity|]. split; [exact H1|]. apply H7. reflexivity.
Defined.

End VerseFetcherFacts.

(** ** The settings tab *)

Section MetadataResolverFacts.

Import MetadataResolver SettingsPanel.

Variable displayNames : option (string → IntlResult).
Variable localeCompare : string → string → Z.
Variable engineSort : list Language.t → option (list Language.t).

Ltac unfold_M :=
  unfold mbind, M_bind, mret, M_ret, gets, modify, saveSettings, notice, throw,
    tryCatch, tryFinally, requestUrl in *.

Ltac not_in H :=
  repeat (apply elem_of_cons in H as [H|H]; [discriminate H|]);
  by apply elem_of_nil in H.

(** *** Plain objects and names *)

Lemma lowerAscii_idem a : lowerAscii (lowerAscii a) = lowerAscii a.
Proof. by destruct a as [[] [] [] [] [] [] [] []]. Qed.

Lemma toLowerCase_idem s : toLowerCase (toLowerCase s) = toLowerCase s.
Proof. induction s as [|a s IH]; cbn; [done|]. by rewrite lowerAscii_idem, IH. Qed.

(** Of the keys every object inherits, a lower-cased code can only be
    one of the two without a capital. *)
Lemma toLowerCase_inherited (code : string) :
  toLowerCase code ∈ PlainObject.inheritedKeys ↔ toLowerCase code ∈ inheritedLower.
Proof.
  split; intros H.
  - pose proof (toLowerCase_idem code) as Hi.
    unfold PlainObject.inheritedKeys in H. unfold inheritedLower.
    repeat (apply elem_of_cons in H as [H|H];
            [rewrite H in Hi |- *; first [discriminate Hi | by left | by right; left]|]).
    by apply elem_of_nil in H.
  - unfold inheritedLower in H. unfold PlainObject.inheritedKeys.
    repeat (apply elem_of_cons in H as [H|H];
            [rewrite H; repeat first [by left | right]|]).
    by apply elem_of_nil in H.
Qed.

Lemma customNames_get (k : string) :
  PlainObject.get customNames k
  = if bool_decide (k ∈ PlainObject.inheritedKeys) then Some Inherited
    else Text <$> customNames !! k.
Proof.
  unfold PlainObject.get.
  case_bool_decide as Hp.
  { subst k. rewrite bool_decide_eq_true_2; [done|].
    unfold PlainObject.inheritedKeys. repeat first [by left | right]. }
  destruct (customNames !! k) as [v|] eqn:E; [|by destruct (bool_decide _)].
  rewrite bool_decide_eq_false_2; [done|]. intros Hin.
  unfold customNames in E. apply elem_of_list_to_map_2 in E.
  repeat (apply elem_of_cons in E as [E|E];
          [injection E as -> ->; unfold PlainObject.inheritedKeys in Hin; not_in Hin|]).
  by apply elem_of_nil in E.
Qed.

Lemma fromService_text (code fallback : string) :
  match displayNames with
  | Some displayNamesOf =>
      match displayNamesOf code with
      | Named n => Text (orElse n fallback)
      | Undefined => Text fallback
      | RangeError => Text fallback
      end
  | None => Text fallback
  end = Text (default fallback (serviceName displayNames code)).
Proof.
  unfold serviceName, orElse. destruct displayNames as [f|]; [|done].
  destruct (f code) as [n| |]; try done. by destruct (truthy n).
Qed.

Lemma customNames_truthy k n : customNames !! k = Some n → truthy n = true.
Proof.
  intros E. unfold customNames in E. apply elem_of_list_to_map_2 in E.
  repeat (apply elem_of_cons in E as [E|E]; [by injection E as -> ->|]).
  by apply elem_of_nil in E.
Qed.



(** The name of a code, by cases. *)
Lemma getFullLanguageName_cases (code : string) :
  getFullLanguageName displayNames code
  = if bool_decide (toLowerCase code ∈ inheritedLower) then Inherited
    else match customNames !! toLowerCase code with
         | Some n => Text n
         | None => Text (default code (serviceName displayNames code))
         end.
Proof.
  unfold getFullLanguageName. rewrite customNames_get, fromService_text.
  rewrite (bool_decide_ext _ _ (toLowerCase_inherited code)).
  case_bool_decide; [done|].
  destruct (customNames !! _) as [n|] eqn:E; cbn; [|done].
  by rewrite (customNames_truthy _ _ E).
Qed.

Lemma getFullLanguageName_isText (code : string) :
  isText (getFullLanguageName displayNames code)
  = negb (bool_decide (toLowerCase code ∈ inheritedLower)).
Proof.
  rewrite getFullLanguageName_cases. case_bool_decide; [done|].
  by destruct (customNames !! _).
Qed.


(** *** The sort *)

Lemma textNamed_forallb (l : list Language.t) :
  forallb (λ x, isText (Language.name x)) l = true ↔ textNamed l.
Proof.
  unfold textNamed. rewrite forallb_forall, Forall_forall.
  split; intros H x Hx; apply H; by apply list_elem_of_In.
Qed.

Lemma sortLanguages_text (l : list Language.t) :
  textNamed l → sortLanguages localeCompare engineSort l = Some (sortByName localeCompare l).
Proof.
  intros H. unfold sortLanguages. apply textNamed_forallb in H. by rewrite H.
Qed.

Lemma insertByName_perm x l : insertByName localeCompare x l ≡ₚ x :: l.
Proof.
  induction l as [|y l IH]; cbn; [done|].
  case_bool_decide; [done|]. rewrite IH. apply Permutation_swap.
Qed.

Lemma sortByName_perm l : sortByName localeCompare l ≡ₚ l.
Proof.
  induction l as [|x l IH]; cbn; [done|].
  rewrite insertByName_perm. by f_equiv.
Qed.

Lemma sortByName_text l : textNamed l → textNamed (sortByName localeCompare l).
Proof. unfold textNamed. by rewrite sortByName_perm. Qed.

(** Insertion keeps a sorted array sorted as soon as the comparison is
    total. *)
Lemma insertByName_hd x y l :
  nameLe localeCompare y x → HdRel (nameLe localeCompare) y l →
  HdRel (nameLe localeCompare) y (insertByName localeCompare x l).
Proof.
  intros Hyx Hl. destruct l as [|z l]; cbn; [by constructor|].
  case_bool_decide; constructor; [done|]. by inversion Hl.
Qed.

Lemma insertByName_sorted x l :
  (∀ a b, localeCompare a b ≤ 0 ∨ localeCompare b a ≤ 0) →
  Sorted (nameLe localeCompare) l →
  Sorted (nameLe localeCompare) (insertByName localeCompare x l).
Proof.
  intros Htotal. induction 1 as [|y l Hs IH Hhd]; cbn; [by repeat constructor|].
  case_bool_decide as Hxy.
  - constructor; [by constructor|]. by constructor.
  - constructor; [done|]. apply insertByName_hd; [|done].
    unfold nameLe.
    by destruct (Htotal (nameText (Language.name y)) (nameText (Language.name x))).
Qed.

Lemma sortByName_sorted l :
  (∀ a b, localeCompare a b ≤ 0 ∨ localeCompare b a ≤ 0) →
  Sorted (nameLe localeCompare) (sortByName localeCompare l).
Proof.
  intros Htotal. induction l as [|x l IH]; cbn; [constructor|].
  by apply insertByName_sorted.
Qed.

(** *** The steps of a refresh, one by one *)

Lemma fetchLanguages_run net t :
  fetchLanguages displayNames localeCompare engineSort net t
  = let t0 := emit (Requested GetLanguages) t in
    match net GetLanguages with
    | Resolved (JLanguages lr) =>
        match sortLanguages localeCompare engineSort (mappedLanguages displayNames lr) with
        | Some sorted => Normal tt (set_languages sorted t0)
        | None =>
            Thrown (emit (Noticed "Failed to fetch languages. Check your internet connection.")
                      (set_languages (mappedLanguages displayNames lr) t0))
        end
    | _ => Thrown (emit (Noticed "Failed to fetch languages. Check your internet connection.") t0)
    end.
Proof.
  unfold fetchLanguages, languagesBody, sortInPlace. unfold_M.
  destruct (net GetLanguages) as [|[lr| | |]]; try done.
  cbn. by destruct (sortLanguages _ _ _).
Qed.

Lemma fetchTranslationEditions_run net t :
  fetchTranslationEditions net t
  = let t0 := emit (Requested (GetEditions (QuranSettings.language (settings t)))) t in
    match net (GetEditions (QuranSettings.language (settings t))) with
    | Resolved (JEditions er) =>
        Normal tt (set_editions (filter (λ e, isTextTranslation e = true) (er_data er)) t0)
    | _ => Thrown (emit (Noticed "Failed to fetch translations. Check your internet connection.") t0)
    end.
Proof.
  unfold fetchTranslationEditions, editionsBody. unfold_M.
  by destruct (net _) as [|[| | |]].
Qed.

Lemma deriveTafsirLanguages_run l t :
  deriveTafsirLanguages localeCompare engineSort l t
  = match tafsirCatalogLanguages localeCompare engineSort (languages t) l with
    | Some tl => Normal tt (set_tafsirLanguages tl t)
    | None => Thrown t
    end.
Proof.
  unfold deriveTafsirLanguages, tafsirCatalogLanguages.
  by destruct (mapM _ _) as [mapped|]; cbn; [destruct (sortLanguages _ _ _)|].
Qed.

Lemma reconcileTafsirLanguage_run t :
  reconcileTafsirLanguage t = Normal tt (reconciled t).
Proof.
  unfold reconcileTafsirLanguage, reconciled, replacementLanguage. unfold_M.
  by destruct (existsb _ _).
Qed.

Lemma filterTafsirs_run l t :
  filterTafsirs displayNames l t
  = if filterRaises displayNames l t then Thrown t
    else Normal tt (filtered displayNames l t).
Proof.
  unfold filterTafsirs, filterRaises, filtered. destruct l as [|x l]; [done|].
  by destruct (isText _).
Qed.

Lemma selectTafsir_run t : selectTafsir t = Normal tt (selected t).
Proof.
  unfold selectTafsir, selected, chooseFirst, cleared. unfold_M.
  destruct (tafsirEditions t) as [|first eds]; [done|].
  by destruct (_ || _).
Qed.

Lemma display_run t : display t = Normal tt (displayed t).
Proof.
  unfold display, displayed, chooseFirst, cleared. unfold_M. cbn.
  destruct (tafsirEditions t) as [|first eds].
  - by destruct (truthy _).
  - by destruct (_ || _).
Qed.

Lemma tafsirsBody_run l t :
  tafsirsBody displayNames localeCompare engineSort (JTafsirs l) t
  = match tafsirCatalogLanguages localeCompare engineSort (languages t) l with
    | Some tl =>
        let t2 := reconciled (set_tafsirLanguages tl t) in
        if filterRaises displayNames l t2 then Thrown t2
        else Normal tt (selected (filtered displayNames l t2))
    | None => Thrown t
    end.
Proof.
  unfold tafsirsBody.
  unfold mbind at 1. unfold M_bind at 1. rewrite deriveTafsirLanguages_run.
  destruct (tafsirCatalogLanguages _ _ _ _) as [tl|]; [|done].
  unfold mbind at 1. unfold M_bind at 1. rewrite reconcileTafsirLanguage_run.
  unfold mbind at 1. unfold M_bind at 1. rewrite filterTafsirs_run.
  cbn zeta. destruct (filterRaises _ _ _); [done|]. apply selectTafsir_run.
Qed.

Lemma fetchAndProcessTafsirs_run net t :
  fetchAndProcessTafsirs displayNames localeCompare engineSort net t
  = let t0 := emit (Requested GetTafsirEditions) t in
    let failed := emit (Noticed "Failed to fetch tafsir editions. Check your internet connection.") in
    match net GetTafsirEditions with
    | Resolved (JTafsirs l) =>
        match tafsirCatalogLanguages localeCompare engineSort (languages t) l with
        | Some tl =>
            if filterRaises displayNames l (reconciled (set_tafsirLanguages tl t0))
            then Thrown (failed (reconciled (set_tafsirLanguages tl t0)))
            else Normal tt (processed displayNames tl l t)
        | None => Thrown (failed t0)
        end
    | _ => Thrown (failed t0)
    end.
Proof.
  unfold fetchAndProcessTafsirs, processed.
  unfold tryCatch at 1. unfold mbind at 1. unfold M_bind at 1. unfold requestUrl.
  destruct (net GetTafsirEditions) as [|[| |l|]]; try done.
  rewrite tafsirsBody_run. cbn [languages emit].
  destruct (tafsirCatalogLanguages _ _ _ _) as [tl|]; [|done].
  cbn zeta. by destruct (filterRaises _ _ _).
Qed.

Lemma displayed_flag t : isLoadingMetadata (displayed t) = isLoadingMetadata t.
Proof.
  unfold displayed, chooseFirst, cleared.
  destruct (tafsirEditions t); [destruct (truthy _)|destruct (_ || _)]; done.
Qed.

Lemma fetchMetadata_run net t :
  fetchMetadata displayNames localeCompare engineSort net t
  = if isLoadingMetadata t then Normal tt t
    else Normal tt (displayed (set_isLoadingMetadata false
           match refreshBody displayNames localeCompare engineSort net
                   (set_isLoadingMetadata true t) with
           | Normal _ c => c
           | Thrown c =>
               emit (Noticed "An unexpected error occurred. Please check the console for details.") c
           end)).
Proof.
  unfold fetchMetadata. destruct (isLoadingMetadata t); [done|].
  unfold mbind at 1. unfold M_bind at 1. unfold modify at 1.
  unfold tryFinally, tryCatch.
  destruct (refreshBody _ _ _ _ _) as [[] c|c].
  - unfold mbind at 1. unfold M_bind at 1. unfold modify at 1. by rewrite display_run.
  - unfold notice at 1. unfold modify at 1.
    unfold mbind at 1. unfold M_bind at 1. unfold modify at 1. by rewrite display_run.
Qed.

Lemma refreshBody_run net t :
  refreshBody displayNames localeCompare engineSort net t
  = match fetchLanguages displayNames localeCompare engineSort net t with
    | Normal _ t1 =>
        match fetchTranslationEditions net t1 with
        | Normal _ t2 => fetchAndProcessTafsirs displayNames localeCompare engineSort net t2
        | Thrown t2 => Thrown t2
        end
    | Thrown t1 => Thrown t1
    end.
Proof.
  unfold refreshBody. unfold mbind at 1. unfold M_bind at 1.
  destruct (fetchLanguages _ _ _ _ _) as [[] t1|t1]; [|done].
  unfold mbind at 1. unfold M_bind at 1.
  by destruct (fetchTranslationEditions _ _) as [[] t2|t2].
Qed.

(** A refresh whose three fetches end without an exception: what the
    network answered and what the tab holds. *)
Lemma refreshBody_normal net t :
  threw (refreshBody displayNames localeCompare engineSort net (set_isLoadingMetadata true t))
  = false →
  ∃ lr langs er l tl,
    net GetLanguages = Resolved (JLanguages lr)
    ∧ sortLanguages localeCompare engineSort (mappedLanguages displayNames lr) = Some langs
    ∧ net (GetEditions (QuranSettings.language (settings t))) = Resolved (JEditions er)
    ∧ net GetTafsirEditions = Resolved (JTafsirs l)
    ∧ tafsirCatalogLanguages localeCompare engineSort langs l = Some tl
    ∧ filterRaises displayNames l
        (reconciled (set_tafsirLanguages tl
           (emit (Requested GetTafsirEditions) (fetchedCatalogs langs er t)))) = false
    ∧ refreshBody displayNames localeCompare engineSort net (set_isLoadingMetadata true t)
      = Normal tt (processed displayNames tl l (fetchedCatalogs langs er t)).
Proof.
  rewrite refreshBody_run, fetchLanguages_run. cbn zeta.
  destruct (net GetLanguages) as [|[lr| | |]] eqn:El; try done.
  destruct (sortLanguages _ _ _) as [langs|] eqn:Es; [|done].
  rewrite fetchTranslationEditions_run. cbn zeta. cbn [settings set_languages emit set_isLoadingMetadata].
  destruct (net (GetEditions _)) as [|[|er| |]] eqn:Ee; try done.
  rewrite fetchAndProcessTafsirs_run. cbn zeta. cbn [languages set_editions emit set_languages].
  destruct (net GetTafsirEditions) as [|[| |l|]] eqn:Et; try done.
  destruct (tafsirCatalogLanguages _ _ _ _) as [tl|] eqn:Etl; [|done].
  destruct (filterRaises _ _ _) eqn:Ef; [done|]. intros _.
  exists lr, langs, er, l, tl. repeat split; try done.
Qed.

Lemma fetchMetadata_normal net t :
  isLoadingMetadata t = false →
  threw (refreshBody displayNames localeCompare engineSort net (set_isLoadingMetadata true t))
  = false →
  ∃ lr langs er l tl,
    net GetLanguages = Resolved (JLanguages lr)
    ∧ sortLanguages localeCompare engineSort (mappedLanguages displayNames lr) = Some langs
    ∧ net (GetEditions (QuranSettings.language (settings t))) = Resolved (JEditions er)
    ∧ net GetTafsirEditions = Resolved (JTafsirs l)
    ∧ tafsirCatalogLanguages localeCompare engineSort langs l = Some tl
    ∧ filterRaises displayNames l
        (reconciled (set_tafsirLanguages tl
           (emit (Requested GetTafsirEditions) (fetchedCatalogs langs er t)))) = false
    ∧ fetchMetadata displayNames localeCompare engineSort net t
      = Normal tt (refreshed displayNames langs er tl l t).
Proof.
  intros Hf Hn.
  destruct (refreshBody_normal net t Hn) as (lr & langs & er & l & tl & H1 & H2 & H3 & H4 & H5 & H6 & H7).
  exists lr, langs, er, l, tl. repeat split; try done.
  rewrite fetchMetadata_run, Hf, H7. done.
Qed.

(** *** What no step touches *)

Lemma frame_refl t : frame t t.
Proof. repeat split; try done. exists []. by rewrite app_nil_r. Qed.

Lemma frame_trans t1 t2 t3 : frame t1 t2 → frame t2 t3 → frame t1 t3.
Proof.
  intros (A1 & A2 & (p & A3) & A4) (B1 & B2 & (q & B3) & B4).
  repeat split; try congruence; [|auto].
  exists (p ++ q). by rewrite B3, A3, app_assoc.
Qed.

Ltac solve_frame :=
  repeat split; cbn; try done;
  try (eexists; rewrite <- ?app_assoc; reflexivity).

Lemma frame_emit e t : frame t (emit e t).
Proof. unfold tafsirSynced. solve_frame. Qed.

Lemma reconciled_frame t : frame t (reconciled t).
Proof.
  unfold reconciled. destruct (existsb _ _); [apply frame_refl|].
  unfold persist, tafsirSynced. solve_frame.
Qed.

Lemma filtered_frame l t : frame t (filtered displayNames l t).
Proof. unfold filtered, tafsirSynced. solve_frame. exists []. by rewrite app_nil_r. Qed.

Lemma selected_frame t : frame t (selected t).
Proof.
  unfold selected, chooseFirst, cleared, persist, tafsirSynced.
  destruct (tafsirEditions t); [|destruct (_ || _)]; solve_frame.
  exists []. by rewrite app_nil_r.
Qed.

Lemma displayed_frame t : frame t (displayed t).
Proof.
  unfold displayed, chooseFirst, cleared, persist, tafsirSynced.
  destruct (tafsirEditions t); [destruct (truthy _)|destruct (_ || _)]; solve_frame.
Qed.

Lemma processed_frame tl l t : frame t (processed displayNames tl l t).
Proof.
  unfold processed.
  eapply frame_trans; [|apply selected_frame].
  eapply frame_trans; [|apply filtered_frame].
  eapply frame_trans; [|apply reconciled_frame].
  unfold tafsirSynced. solve_frame.
Qed.

Lemma fetchLanguages_frame net t :
  frame t (tabOf (fetchLanguages displayNames localeCompare engineSort net t))
  ∧ ∃ post, log (tabOf (fetchLanguages displayNames localeCompare engineSort net t))
            = log t ++ Requested GetLanguages :: post.
Proof.
  rewrite fetchLanguages_run. cbn zeta. unfold tafsirSynced.
  destruct (net GetLanguages) as [|[lr| | |]]; [| destruct (sortLanguages _ _ _) | | |];
    cbn; split; solve_frame.
Qed.

Lemma fetchTranslationEditions_frame net t :
  frame t (tabOf (fetchTranslationEditions net t)).
Proof.
  rewrite fetchTranslationEditions_run. cbn zeta. unfold tafsirSynced.
  destruct (net _) as [|[]]; cbn; solve_frame.
Qed.

Lemma fetchAndProcessTafsirs_frame net t :
  frame t (tabOf (fetchAndProcessTafsirs displayNames localeCompare engineSort net t)).
Proof.
  rewrite fetchAndProcessTafsirs_run. cbn zeta.
  assert (F0 : frame t (emit (Requested GetTafsirEditions) t)) by apply frame_emit.
  assert (F1 : frame t (emit (Noticed "Failed to fetch tafsir editions. Check your internet connection.")
                          (emit (Requested GetTafsirEditions) t))).
  { eapply frame_trans; [exact F0|apply frame_emit]. }
  destruct (net GetTafsirEditions) as [|[| |l|]]; try exact F1.
  destruct (tafsirCatalogLanguages _ _ _ _) as [tl|]; [|exact F1].
  destruct (filterRaises _ _ _); cbn [tabOf]; [|apply processed_frame].
  eapply frame_trans; [|apply frame_emit].
  eapply frame_trans; [|apply reconciled_frame].
  unfold tafsirSynced. solve_frame.
Qed.

Lemma refreshBody_frame net t :
  frame t (tabOf (refreshBody displayNames localeCompare engineSort net t))
  ∧ ∃ post, log (tabOf (refreshBody displayNames localeCompare engineSort net t))
            = log t ++ Requested GetLanguages :: post.
Proof.
  rewrite refreshBody_run.
  destruct (fetchLanguages_frame net t) as (F1 & p1 & L1).
  destruct (fetchLanguages _ _ _ _ _) as [[] t1|t1]; cbn [tabOf] in *; [|by eauto].
  pose proof (fetchTranslationEditions_frame net t1) as F2.
  destruct (fetchTranslationEditions _ _) as [[] t2|t2]; cbn [tabOf] in *.
  - pose proof (fetchAndProcessTafsirs_frame net t2) as F3.
    assert (F : frame t1 (tabOf (fetchAndProcessTafsirs displayNames localeCompare engineSort net t2)))
      by (by eapply frame_trans).
    split; [by eapply frame_trans|].
    destruct F as (_ & _ & (p & Lp) & _). exists (p1 ++ p).
    rewrite Lp, L1. cbn. by rewrite <- app_assoc.
  - split; [by eapply frame_trans|].
    destruct F2 as (_ & _ & (p & Lp) & _). exists (p1 ++ p).
    rewrite Lp, L1. cbn. by rewrite <- app_assoc.
Qed.

Lemma refresh_frame net t :
  isLoadingMetadata t = false →
  frame t (tabOf (fetchMetadata displayNames localeCompare engineSort net t))
  ∧ ∃ post, log (tabOf (fetchMetadata displayNames localeCompare engineSort net t))
            = log t ++ Requested GetLanguages :: post.
Proof.
  intros Hf. rewrite fetchMetadata_run, Hf. cbn [tabOf].
  destruct (refreshBody_frame net (set_isLoadingMetadata true t)) as (F & p & L).
  set (c := match refreshBody _ _ _ _ _ with Normal _ c => c | Thrown c => emit _ c end).
  assert (Hc : frame (set_isLoadingMetadata true t) c
               ∧ ∃ post, log c = log t ++ Requested GetLanguages :: post).
  { subst c. destruct (refreshBody _ _ _ _ _) as [[] c|c]; cbn [tabOf] in *; [by eauto|].
    split; [eapply frame_trans; [exact F|apply frame_emit]|].
    eexists. cbn. rewrite L. cbn. rewrite <- app_assoc. cbn. reflexivity. }
  clearbody c. destruct Hc as (Fc & q & Lq).
  pose proof (displayed_frame (set_isLoadingMetadata false c)) as Fd.
  split.
  - eapply frame_trans; [|exact Fd].
    destruct Fc as (A1 & A2 & A3 & A4). repeat split; try done.
  - destruct Fd as (_ & _ & (r & Lr) & _).
    exists (q ++ r). rewrite Lr. cbn. rewrite Lq. by rewrite <- app_assoc.
Qed.

(** C10.  A call of [fetchMetadata] that finds the busy flag clear never
    throws and ends with [isLoadingMetadata] false, whatever the network
    answered and whatever the sort of the engine does (the flag is reset
    in the [finally] block); the next call therefore runs too and issues
    its first request. *)
Theorem fetchMetadata_resets_busy_flag (net net' : Request → Reply) (t : Tab) :
  isLoadingMetadata t = false →
  let c := fetchMetadata displayNames localeCompare engineSort net t in
  threw c = false
  ∧ isLoadingMetadata (tabOf c) = false
  ∧ ∃ rest, log (tabOf (fetchMetadata displayNames localeCompare engineSort net' (tabOf c)))
            = log (tabOf c) ++ Requested GetLanguages :: rest.
Proof.
  intros Hf. cbn zeta.
  assert (Hflag : isLoadingMetadata
            (tabOf (fetchMetadata displayNames localeCompare engineSort net t)) = false).
  { rewrite fetchMetadata_run, Hf. cbn [tabOf]. by rewrite displayed_flag. }
  split; [by rewrite fetchMetadata_run, Hf|]. split; [done|].
  by apply refresh_frame.
Qed.

(** *** Notices, catalogs and choices *)

Lemma quietly_refl t : quietly t t.
Proof. exists []. by rewrite app_nil_r. Qed.

Lemma quietly_trans t1 t2 t3 : quietly t1 t2 → quietly t2 t3 → quietly t1 t3.
Proof.
  intros (p & A & HA) (q & B & HB). exists (p ++ q).
  rewrite B, A, app_assoc. split; [done|]. by apply Forall_app.
Qed.

Lemma quietly_emit e t t' :
  isNotice e = false → log t' = log t ++ [e] → quietly t t'.
Proof. intros He Hl. exists [e]. split; [done|]. by constructor. Qed.

Ltac quiet_emit :=
  eapply quietly_emit; [|cbn; reflexivity]; reflexivity.

Ltac quiet_same :=
  exists []; split; [cbn; by rewrite app_nil_r|constructor].

Lemma persist_quietly t : quietly t (persist t).
Proof. quiet_emit. Qed.

Lemma reconciled_quietly t : quietly t (reconciled t).
Proof.
  unfold reconciled. destruct (existsb _ _); [apply quietly_refl|].
  quiet_emit.
Qed.

Lemma selected_quietly t : quietly t (selected t).
Proof.
  unfold selected, chooseFirst, cleared.
  destruct (tafsirEditions t); [|destruct (_ || _)];
    first [quiet_emit | quiet_same].
Qed.

Lemma displayed_quietly t : quietly t (displayed t).
Proof.
  assert (quietly t (emit Displayed t)) as H0 by (quiet_emit).
  unfold displayed, chooseFirst, cleared.
  destruct (tafsirEditions t); [destruct (truthy _)|destruct (_ || _)]; try done;
    (eapply quietly_trans; [exact H0|]; quiet_emit).
Qed.

Lemma processed_quietly tl l t : quietly t (processed displayNames tl l t).
Proof.
  unfold processed.
  eapply quietly_trans; [|apply selected_quietly].
  eapply quietly_trans; [|unfold filtered; quiet_same].
  eapply quietly_trans; [|apply reconciled_quietly].
  quiet_emit.
Qed.

Lemma refreshed_quietly langs er tl l t : quietly t (refreshed displayNames langs er tl l t).
Proof.
  unfold refreshed.
  eapply quietly_trans; [|apply displayed_quietly].
  eapply quietly_trans; [|quiet_same].
  eapply quietly_trans; [|apply processed_quietly].
  exists [Requested GetLanguages; Requested (GetEditions (QuranSettings.language (settings t)))].
  split; [cbn; by rewrite <- app_assoc|]. by repeat constructor.
Qed.

Lemma selected_catalog t : catalogFrame t (selected t).
Proof.
  unfold selected, chooseFirst, cleared, catalogFrame.
  destruct (tafsirEditions t) eqn:E; [|destruct (_ || _)]; cbn; repeat split; auto.
Qed.

Lemma displayed_catalog t : catalogFrame t (displayed t).
Proof.
  unfold displayed, chooseFirst, cleared, catalogFrame.
  destruct (tafsirEditions t) eqn:E; [destruct (truthy _)|destruct (_ || _)];
    cbn; repeat split; auto.
Qed.

Lemma finished_catalog t : catalogFrame t (Refresh.finished t).
Proof.
  unfold Refresh.finished.
  destruct (displayed_catalog (set_isLoadingMetadata false t)) as (D1 & D2 & D3 & D4 & D5 & D6).
  repeat split; try done.
Qed.

Lemma displayed_stored t : stored t = settings t → stored (displayed t) = settings (displayed t).
Proof.
  unfold displayed, chooseFirst, cleared.
  destruct (tafsirEditions t); [destruct (truthy _)|destruct (_ || _)]; cbn; auto.
Qed.

Lemma existsb_hasCode c (l : list Language.t) :
  existsb (hasCode c) l = true ↔ c ∈ Language.code <$> l.
Proof.
  rewrite existsb_exists, list_elem_of_fmap. unfold hasCode. split.
  - intros (x & Hin & Hx). apply bool_decide_eq_true in Hx.
    exists x. split; [done|]. by apply list_elem_of_In.
  - intros (x & -> & Hin). exists x. split; [by apply list_elem_of_In|].
    by apply bool_decide_eq_true.
Qed.

Lemma existsb_hasIdentifier i (l : list Edition.t) :
  existsb (hasIdentifier i) l = true ↔ i ∈ Edition.identifier <$> l.
Proof.
  rewrite existsb_exists, list_elem_of_fmap. unfold hasIdentifier. split.
  - intros (x & Hin & Hx). apply bool_decide_eq_true in Hx.
    exists x. split; [done|]. by apply list_elem_of_In.
  - intros (x & -> & Hin). exists x. split; [by apply list_elem_of_In|].
    by apply bool_decide_eq_true.
Qed.

Lemma selected_valid t : tafsirEditions t ≠ [] → tafsirValid (selected t).
Proof.
  unfold selected, chooseFirst, tafsirValid.
  destruct (tafsirEditions t) as [|first eds] eqn:E; [done|]. intros _.
  destruct (_ || _) eqn:Hc; cbn; rewrite E.
  - left.
  - apply orb_false_iff in Hc as [_ Hc]. apply negb_false_iff in Hc.
    by apply existsb_hasIdentifier in Hc.
Qed.

(** Rebuilding the panel keeps a tafsir id that is in the catalog in it. *)
Lemma displayed_valid t : tafsirValid t → tafsirValid (displayed t).
Proof.
  unfold displayed, chooseFirst, cleared, tafsirValid.
  destruct (tafsirEditions t) as [|first eds] eqn:E.
  - intros H. by apply elem_of_nil in H.
  - intros H. destruct (_ || _); cbn; rewrite E; [left|done].
Qed.

(** Once the first edition is selected, rebuilding the panel keeps it. *)
Lemma displayed_keeps_first t first :
  head (tafsirEditions t) = Some first →
  QuranSettings.tafsir (settings t) = Edition.identifier first →
  QuranSettings.tafsirName (settings t) = Edition.name first →
  QuranSettings.tafsir (settings (displayed t)) = Edition.identifier first
  ∧ QuranSettings.tafsirName (settings (displayed t)) = Edition.name first.
Proof.
  unfold displayed, chooseFirst.
  destruct (tafsirEditions t) as [|f eds]; [done|]. intros [= ->] H1 H2.
  by destruct (_ || _).
Qed.

Lemma selected_picks_first t first :
  head (tafsirEditions t) = Some first →
  QuranSettings.tafsir (settings t) ∉ Edition.identifier <$> tafsirEditions t →
  selected t = chooseFirst first t.
Proof.
  unfold selected. destruct (tafsirEditions t) as [|f eds] eqn:E; [done|].
  intros [= ->] Hnot.
  destruct (existsb _ _) eqn:Hex.
  - by apply existsb_hasIdentifier in Hex.
  - by rewrite orb_true_r.
Qed.

Lemma reconciled_fields t :
  languages (reconciled t) = languages t
  ∧ tafsirLanguages (reconciled t) = tafsirLanguages t
  ∧ editions (reconciled t) = editions t
  ∧ tafsirEditions (reconciled t) = tafsirEditions t
  ∧ QuranSettings.tafsir (settings (reconciled t)) = QuranSettings.tafsir (settings t)
  ∧ QuranSettings.tafsirName (settings (reconciled t)) = QuranSettings.tafsirName (settings t).
Proof. unfold reconciled. by destruct (existsb _ _). Qed.

Lemma reconciled_replaces t :
  QuranSettings.tafsirLanguage (settings t) ∉ Language.code <$> tafsirLanguages t →
  reconciled t
  = persist (set_settings (set_tafsirLanguage (replacementLanguage (tafsirLanguages t))) t).
Proof.
  intros Hnot. unfold reconciled.
  destruct (existsb _ _) eqn:E; [|done]. by apply existsb_hasCode in E.
Qed.

(** The tafsir languages derived from an index have strings for names
    and are sorted by them. *)
Lemma tafsirLanguageOf_text langs n x :
  tafsirLanguageOf langs n = Some x → isText (Language.name x) = true.
Proof.
  unfold tafsirLanguageOf. destruct (findByName n langs); cbn; [|done].
  by intros [= <-].
Qed.

Lemma mapM_tafsirLanguageOf_text langs names mapped :
  mapM (tafsirLanguageOf langs) names = Some mapped → textNamed mapped.
Proof.
  intros H. apply mapM_Some in H. unfold textNamed.
  induction H as [|n x names mapped Hx _ IH]; constructor; [|done].
  by eapply tafsirLanguageOf_text.
Qed.

Lemma tafsirCatalogLanguages_sorted langs l tl :
  tafsirCatalogLanguages localeCompare engineSort langs l = Some tl →
  ∃ mapped,
    mapM (tafsirLanguageOf langs) (unique (CdnTafsirEdition.language_name <$> l)) = Some mapped
    ∧ tl = sortByName localeCompare mapped
    ∧ textNamed tl.
Proof.
  unfold tafsirCatalogLanguages. destruct (mapM _ _) as [mapped|] eqn:E; cbn; [|done].
  pose proof (mapM_tafsirLanguageOf_text _ _ _ E) as Ht.
  rewrite (sortLanguages_text _ Ht). intros [= <-].
  exists mapped. split; [done|]. split; [done|]. by apply sortByName_text.
Qed.

Lemma findByName_text langs n : textNamed langs → is_Some (findByName n langs).
Proof.
  induction 1 as [|x langs Hx _ IH]; cbn; [by eexists|].
  destruct (Language.name x) as [s|]; [|done]. cbn.
  by destruct (bool_decide _).
Qed.

(** With a catalog of languages whose names are strings the derivation
    does not raise. *)
Lemma tafsirCatalogLanguages_text langs l :
  textNamed langs → is_Some (tafsirCatalogLanguages localeCompare engineSort langs l).
Proof.
  intros Ht. unfold tafsirCatalogLanguages.
  destruct (mapM _ _) as [mapped|] eqn:E; cbn.
  - rewrite (sortLanguages_text mapped); [by eexists|].
    by eapply mapM_tafsirLanguageOf_text.
  - exfalso. apply eq_None_not_Some in E. apply E. apply mapM_is_Some.
    apply Forall_forall. intros n _. unfold tafsirLanguageOf.
    destruct (findByName_text langs n Ht) as [found Hfound].
    cbn. rewrite Hfound. by eexists.
Qed.

(** *** A refresh in flight *)

Section InFlight.

Import Refresh.

Lemma finish_run t : finish t = Normal tt (finished t).
Proof.
  unfold finish, finished. unfold mbind at 1. unfold M_bind at 1. unfold modify at 1.
  apply display_run.
Qed.

Lemma giveUp_run t : giveUp t = Normal tt (gaveUp t).
Proof.
  unfold giveUp, gaveUp. unfold mbind at 1. unfold M_bind at 1.
  unfold notice at 1. unfold modify at 1. apply finish_run.
Qed.

Lemma failTafsirs_run t :
  failTafsirs t
  = Normal tt (gaveUp (emit (Noticed "Failed to fetch tafsir editions. Check your internet connection.") t)).
Proof.
  unfold failTafsirs. unfold mbind at 1. unfold M_bind at 1.
  unfold notice at 1. unfold modify at 1. apply giveUp_run.
Qed.

Lemma finished_flag t : isLoadingMetadata (finished t) = false.
Proof. unfold finished. by rewrite displayed_flag. Qed.

Lemma gaveUp_flag t : isLoadingMetadata (gaveUp t) = false.
Proof. apply finished_flag. Qed.

Lemma reconciled_flag t : isLoadingMetadata (reconciled t) = isLoadingMetadata t.
Proof. unfold reconciled. by destruct (existsb _ _). Qed.

Lemma selected_flag t : isLoadingMetadata (selected t) = isLoadingMetadata t.
Proof.
  unfold selected, chooseFirst, cleared.
  destruct (tafsirEditions t); [|destruct (_ || _)]; done.
Qed.

Lemma onLanguages_run rep t :
  onLanguages displayNames localeCompare engineSort rep t
  = let failed := emit (Noticed "Failed to fetch languages. Check your internet connection.") in
    match rep with
    | Resolved (JLanguages lr) =>
        match sortLanguages localeCompare engineSort (mappedLanguages displayNames lr) with
        | Some sorted =>
            Suspended AwaitEditions
              (emit (Requested (GetEditions (QuranSettings.language (settings t))))
                 (set_languages sorted t))
        | None => Finished (gaveUp (failed (set_languages (mappedLanguages displayNames lr) t)))
        end
    | _ => Finished (gaveUp (failed t))
    end.
Proof.
  unfold onLanguages, languagesBody, sortInPlace, settle. unfold_M.
  destruct rep as [|[lr| | |]]; cbn; try by rewrite giveUp_run.
  destruct (sortLanguages _ _ _); [done|]. by rewrite giveUp_run.
Qed.

Lemma onEditions_run rep t :
  onEditions rep t
  = match rep with
    | Resolved (JEditions er) =>
        Suspended AwaitTafsirs
          (emit (Requested GetTafsirEditions)
             (set_editions (filter (λ e, isTextTranslation e = true) (er_data er)) t))
    | _ => Finished (gaveUp (emit (Noticed "Failed to fetch translations. Check your internet connection.") t))
    end.
Proof.
  unfold onEditions, editionsBody, settle. unfold_M.
  destruct rep as [|[|er| |]]; cbn; try by rewrite giveUp_run. done.
Qed.

Lemma afterFilter_run t :
  afterFilter t
  = if selectSaves t then Suspended AwaitSelectSave (selected t)
    else Finished (finished (selected t)).
Proof.
  unfold afterFilter. rewrite selectTafsir_run.
  destruct (selectSaves t); [done|]. by rewrite finish_run.
Qed.

Lemma afterReconcile_run l t :
  afterReconcile displayNames l t
  = if filterRaises displayNames l t
    then Finished (gaveUp (emit (Noticed "Failed to fetch tafsir editions. Check your internet connection.") t))
    else afterFilter (filtered displayNames l t).
Proof.
  unfold afterReconcile. rewrite filterTafsirs_run.
  destruct (filterRaises _ _ _); [|done]. by rewrite failTafsirs_run.
Qed.

Lemma onTafsirs_run rep t :
  onTafsirs displayNames localeCompare engineSort rep t
  = let failed := emit (Noticed "Failed to fetch tafsir editions. Check your internet connection.") in
    match rep with
    | Resolved (JTafsirs l) =>
        match tafsirCatalogLanguages localeCompare engineSort (languages t) l with
        | Some tl =>
            if reconcileSaves (set_tafsirLanguages tl t)
            then Suspended (AwaitReconcileSave l) (reconciled (set_tafsirLanguages tl t))
            else afterReconcile displayNames l (set_tafsirLanguages tl t)
        | None => Finished (gaveUp (failed t))
        end
    | _ => Finished (gaveUp (failed t))
    end.
Proof.
  unfold onTafsirs. destruct rep as [|[| |l|]]; cbn zeta; try by rewrite failTafsirs_run.
  rewrite deriveTafsirLanguages_run.
  destruct (tafsirCatalogLanguages _ _ _ _) as [tl|]; [|by rewrite failTafsirs_run].
  by rewrite reconcileTafsirLanguage_run.
Qed.

Lemma afterFilter_holdsFlag t : isLoadingMetadata t = true → holdsFlag (afterFilter t).
Proof.
  intros H. rewrite afterFilter_run. destruct (selectSaves t); cbn.
  - by rewrite selected_flag.
  - apply finished_flag.
Qed.

Lemma afterReconcile_holdsFlag l t :
  isLoadingMetadata t = true → holdsFlag (afterReconcile displayNames l t).
Proof.
  intros H. rewrite afterReconcile_run. destruct (filterRaises _ _ _); cbn.
  - apply gaveUp_flag.
  - by apply afterFilter_holdsFlag.
Qed.

Lemma onLanguages_holdsFlag rep t :
  isLoadingMetadata t = true →
  holdsFlag (onLanguages displayNames localeCompare engineSort rep t).
Proof.
  intros H. rewrite onLanguages_run. cbn zeta.
  destruct rep as [|[lr| | |]]; cbn; try apply gaveUp_flag.
  destruct (sortLanguages _ _ _); cbn; [done|apply gaveUp_flag].
Qed.

Lemma onEditions_holdsFlag rep t :
  isLoadingMetadata t = true → holdsFlag (onEditions rep t).
Proof.
  intros H. rewrite onEditions_run.
  destruct rep as [|[|er| |]]; cbn; try apply gaveUp_flag. done.
Qed.

Lemma onTafsirs_holdsFlag rep t :
  isLoadingMetadata t = true →
  holdsFlag (onTafsirs displayNames localeCompare engineSort rep t).
Proof.
  intros H. rewrite onTafsirs_run. cbn zeta.
  destruct rep as [|[| |l|]]; cbn; try apply gaveUp_flag.
  destruct (tafsirCatalogLanguages _ _ _ _) as [tl|]; [|apply gaveUp_flag].
  destruct (reconcileSaves _); cbn.
  - by rewrite reconciled_flag.
  - by apply afterReconcile_holdsFlag.
Qed.

Lemma resume_exclusive i ph o s :
  flights s = {[i := ph]} → holdsFlag o → exclusive (resume i o s).
Proof.
  intros Hfl Ho. destruct o as [ph' t'|t']; cbn in *.
  - right. exists i, ph'. cbn. split; [|done]. by rewrite Hfl, insert_singleton_eq.
  - left. cbn. split; [|done]. by rewrite Hfl, delete_singleton_eq.
Qed.

Lemma step_exclusive e s :
  exclusive s →
  exclusive (step displayNames localeCompare engineSort e s).
Proof.
  intros [[Hfl Hflag]|(j & ph & Hfl & Hflag)].
  - destruct e as [|i rep|i]; cbn.
    + rewrite Hflag. right. exists (next s), AwaitLanguages. cbn.
      split; [|done]. by rewrite Hfl, insert_empty.
    + rewrite Hfl, lookup_empty. by left.
    + rewrite Hfl, lookup_empty. by left.
  - assert (Hs : exclusive s) by (right; eauto).
    destruct e as [|i rep|i]; cbn [step].
    + by rewrite Hflag.
    + destruct (decide (i = j)) as [->|Hne].
      * rewrite Hfl at 1. rewrite lookup_singleton_eq.
        destruct ph; try done; eapply resume_exclusive; try done.
        -- by apply onLanguages_holdsFlag.
        -- by apply onEditions_holdsFlag.
        -- by apply onTafsirs_holdsFlag.
      * by rewrite Hfl, lookup_singleton_ne.
    + destruct (decide (i = j)) as [->|Hne].
      * rewrite Hfl at 1. rewrite lookup_singleton_eq.
        destruct ph; try done; eapply resume_exclusive; try done.
        -- by apply afterReconcile_holdsFlag.
        -- cbn. rewrite finish_run. apply finished_flag.
      * by rewrite Hfl, lookup_singleton_ne.
Qed.

Lemma run_exclusive es s :
  exclusive s → exclusive (run displayNames localeCompare engineSort es s).
Proof.
  revert s. induction es as [|e es IH]; intros s Hs; cbn; [done|].
  by apply IH, step_exclusive.
Qed.

Lemma resume_single i ph o t n :
  resume i o {| tab := t; flights := {[i := ph]}; next := n |}
  = match o with
    | Suspended ph' t' => {| tab := t'; flights := {[i := ph']}; next := n |}
    | Finished t' => {| tab := t'; flights := ∅; next := n |}
    end.
Proof.
  destruct o as [ph' t'|t']; cbn.
  - by rewrite insert_singleton_eq.
  - by rewrite delete_singleton_eq.
Qed.

Lemma step_settle_single i ph rep t n :
  step displayNames localeCompare engineSort (Settle i rep)
    {| tab := t; flights := {[i := ph]}; next := n |}
  = match ph with
    | AwaitLanguages =>
        resume i (onLanguages displayNames localeCompare engineSort rep t)
          {| tab := t; flights := {[i := ph]}; next := n |}
    | AwaitEditions =>
        resume i (onEditions rep t) {| tab := t; flights := {[i := ph]}; next := n |}
    | AwaitTafsirs =>
        resume i (onTafsirs displayNames localeCompare engineSort rep t)
          {| tab := t; flights := {[i := ph]}; next := n |}
    | _ => {| tab := t; flights := {[i := ph]}; next := n |}
    end.
Proof. cbn [step flights tab]. rewrite lookup_singleton_eq. by destruct ph. Qed.

Lemma step_save_single i ph t n :
  step displayNames localeCompare engineSort (SaveDone i)
    {| tab := t; flights := {[i := ph]}; next := n |}
  = match ph with
    | AwaitReconcileSave l =>
        resume i (afterReconcile displayNames l t)
          {| tab := t; flights := {[i := ph]}; next := n |}
    | AwaitSelectSave =>
        {| tab := finished t; flights := ∅; next := n |}
    | _ => {| tab := t; flights := {[i := ph]}; next := n |}
    end.
Proof.
  cbn [step flights tab]. rewrite lookup_singleton_eq. destruct ph; try done.
  rewrite resume_single. by rewrite finish_run.
Qed.

(** Replies and ends of saves that reach a tab with no refresh in flight
    change nothing. *)
Lemma run_at_rest es t n :
  Forall (λ e, e ≠ Call) es →
  run displayNames localeCompare engineSort es {| tab := t; flights := ∅; next := n |}
  = {| tab := t; flights := ∅; next := n |}.
Proof.
  induction 1 as [|e es He _ IH]; [done|]. cbn [run fold_left] in *.
  destruct e as [|i rep|i]; [done| |]; cbn [step flights]; by rewrite lookup_empty.
Qed.

Lemma afterFilter_in_steps i ph n t0 t saves :
  Forall (λ e, e = SaveDone i) saves → saves ≠ [] →
  run displayNames localeCompare engineSort saves
    (resume i (afterFilter t) {| tab := t0; flights := {[i := ph]}; next := n |})
  = {| tab := finished (selected t); flights := ∅; next := n |}.
Proof.
  intros Hs Hne. rewrite resume_single, afterFilter_run.
  assert (Hrest : Forall (λ e, e ≠ Call) saves).
  { eapply Forall_impl; [exact Hs|]. by intros e ->. }
  destruct (selectSaves t).
  - destruct Hs as [|e saves -> Hs]; [done|]. cbn [run fold_left].
    rewrite step_save_single. apply run_at_rest. by inversion Hrest.
  - by apply run_at_rest.
Qed.

Lemma afterReconcile_in_steps i ph n t0 l t saves :
  Forall (λ e, e = SaveDone i) saves → saves ≠ [] →
  run displayNames localeCompare engineSort saves
    (resume i (afterReconcile displayNames l t)
       {| tab := t0; flights := {[i := ph]}; next := n |})
  = {| tab :=
         if filterRaises displayNames l t
         then gaveUp (emit (Noticed "Failed to fetch tafsir editions. Check your internet connection.") t)
         else finished (selected (filtered displayNames l t));
       flights := ∅; next := n |}.
Proof.
  intros Hs Hne. rewrite afterReconcile_run.
  destruct (filterRaises _ _ _); [|by apply afterFilter_in_steps].
  rewrite resume_single. apply run_at_rest.
  eapply Forall_impl; [exact Hs|]. by intros e ->.
Qed.

Lemma reconciled_unchanged t : reconcileSaves t = false → reconciled t = t.
Proof.
  unfold reconcileSaves, reconciled. intros H. apply negb_false_iff in H. by rewrite H.
Qed.

Lemma tafsirs_in_steps net i n t :
  run displayNames localeCompare engineSort
    [Settle i (net GetTafsirEditions); SaveDone i; SaveDone i]
    {| tab := emit (Requested GetTafsirEditions) t; flights := {[i := AwaitTafsirs]}; next := n |}
  = {| tab :=
         match fetchAndProcessTafsirs displayNames localeCompare engineSort net t with
         | Normal _ c => finished c
         | Thrown c => gaveUp c
         end;
       flights := ∅; next := n |}.
Proof.
  assert (Hrest : ∀ k, Forall (λ e, e ≠ Call) (replicate k (SaveDone i))).
  { intros k. apply Forall_replicate. done. }
  change (run ?a ?b ?c (?e :: ?es) ?s) with (run a b c es (step a b c e s)).
  rewrite step_settle_single, onTafsirs_run, fetchAndProcessTafsirs_run. cbn zeta.
  cbn [languages emit].
  destruct (net GetTafsirEditions) as [|[| |l|]];
    try (rewrite resume_single; apply (run_at_rest _ _ _ (Hrest 2%nat))).
  destruct (tafsirCatalogLanguages _ _ _ _) as [tl|];
    [|rewrite resume_single; apply (run_at_rest _ _ _ (Hrest 2%nat))].
  set (t1 := set_tafsirLanguages tl _).
  destruct (reconcileSaves t1) eqn:Hr.
  - rewrite resume_single.
    change (run ?a ?b ?c (?e :: ?es) ?s) with (run a b c es (step a b c e s)).
    rewrite step_save_single.
    rewrite (afterReconcile_in_steps i _ n _ l (reconciled t1) [SaveDone i]);
      [|by repeat constructor|done].
    destruct (filterRaises _ _ _); reflexivity.
  - rewrite (afterReconcile_in_steps i _ n _ l t1 [SaveDone i; SaveDone i]);
      [|by repeat constructor|done].
    rewrite (reconciled_unchanged t1 Hr).
    destruct (filterRaises _ _ _) eqn:E; [reflexivity|].
    unfold processed. fold t1. by rewrite (reconciled_unchanged t1 Hr).
Qed.

(** The refresh cut at its awaits and the method run to its end agree:
    when the replies and the ends of the saves come with no other call
    in between, the session ends at rest on the tab [fetchMetadata]
    returns. *)
Lemma refresh_in_steps net t :
  isLoadingMetadata t = false →
  run displayNames localeCompare engineSort (Call :: answers net t 0) (idle t)
  = {| tab := tabOf (fetchMetadata displayNames localeCompare engineSort net t);
       flights := ∅; next := 1 |}.
Proof.
  intros Hf.
  assert (Hrest : ∀ es, Forall (λ e, e ≠ Call) es →
            ∀ c, run displayNames localeCompare engineSort es
                   {| tab := c; flights := ∅; next := 1 |}
                 = {| tab := c; flights := ∅; next := 1 |}).
  { intros es Hes c. by apply run_at_rest. }
  rewrite fetchMetadata_run, Hf, refreshBody_run, fetchLanguages_run. cbn [tabOf]. cbn zeta.
  unfold answers.
  change (run ?a ?b ?c (?e :: ?es) ?s) with (run a b c es (step a b c e s)).
  cbn [step idle tab flights next]. rewrite Hf, insert_empty.
  change (run ?a ?b ?c (?e :: ?es) ?s) with (run a b c es (step a b c e s)).
  rewrite step_settle_single, onLanguages_run. cbn zeta.
  destruct (net GetLanguages) as [|[lr| | |]];
    try (rewrite resume_single; apply Hrest; by repeat constructor).
  destruct (sortLanguages _ _ _) as [langs|];
    [|rewrite resume_single; apply Hrest; by repeat constructor].
  rewrite resume_single.
  change (run ?a ?b ?c (?e :: ?es) ?s) with (run a b c es (step a b c e s)).
  rewrite step_settle_single, onEditions_run, fetchTranslationEditions_run. cbn zeta.
  cbn [settings set_languages emit set_isLoadingMetadata].
  destruct (net (GetEditions _)) as [|[|er| |]];
    try (rewrite resume_single; apply Hrest; by repeat constructor).
  rewrite resume_single.
  match goal with
  | |- context [emit (Requested GetTafsirEditions) ?x] =>
      pose proof (tafsirs_in_steps net 0%nat 1%nat x) as HT
  end.
  etransitivity; [exact HT|]. f_equal.
  by destruct (fetchAndProcessTafsirs _ _ _ _ _) as [[] c|c].
Qed.

(** C9.  However calls of [fetchMetadata], replies and ends of saves
    follow one another on a tab that starts at rest, at most one refresh
    is in flight and [isLoadingMetadata] is set exactly while one is.  A
    call made while a refresh is in flight leaves the session as it is:
    no request, no notice, no catalog or setting changed, and no second
    invocation suspended for later; the method returns normally at once.
    A call made while none is in flight does start one, with the request
    for the languages. *)
Theorem fetchMetadata_busy_is_noop
    (es : list Event) (net : Request → Reply) (t0 : Tab) :
  isLoadingMetadata t0 = false →
  let s := run displayNames localeCompare engineSort es (idle t0) in
  let again := step displayNames localeCompare engineSort Call s in
  (size (flights s) ≤ 1)%nat
  ∧ (flights s ≠ ∅ ↔ isLoadingMetadata (tab s) = true)
  ∧ (flights s ≠ ∅ →
       again = s
       ∧ fetchMetadata displayNames localeCompare engineSort net (tab s) = Normal tt (tab s))
  ∧ (flights s = ∅ →
       flights again = {[next s := AwaitLanguages]}
       ∧ log (tab again) = log (tab s) ++ [Requested GetLanguages]).
Proof.
  intros Hf. cbn zeta.
  assert (Hex : exclusive (run displayNames localeCompare engineSort es (idle t0))).
  { apply run_exclusive. by left. }
  set (s := run _ _ _ _ _) in *.
  destruct Hex as [[Hfl Hflag]|(i & ph & Hfl & Hflag)].
  - split; [rewrite Hfl, map_size_empty; lia|].
    split; [split; [done|by rewrite Hflag]|].
    split; [done|]. intros _. cbn [step]. rewrite Hflag. cbn.
    split; [|done]. by rewrite Hfl, insert_empty.
  - assert (Hne : flights s ≠ ∅).
    { rewrite Hfl. apply map_non_empty_singleton. }
    split; [rewrite Hfl, map_size_singleton; lia|].
    split; [done|]. split; [|done]. intros _.
    split; [cbn [step]; by rewrite Hflag|].
    by rewrite fetchMetadata_run, Hflag.
Qed.

(** C6.  While a refresh waits for the tafsir index: if the index
    arrives, the tafsir languages are derived from it without an
    exception, and the configured tafsir language is not among their
    codes, then the configured language becomes the code of the first
    entry of that name-sorted list, or ["en"] when the list is empty; the
    settings are saved with it at once (they differ from the old ones in
    the tafsir language only), and the refresh is suspended on that save
    with the tafsir catalog still as it was.  Only when the save has
    ended is the catalog filtered, by the new language. *)
Theorem tafsir_language_reconciled
    (i : nat) (l : list CdnTafsirEdition.t) (tl : list Language.t) (s : Session) :
  flights s !! i = Some AwaitTafsirs →
  tafsirCatalogLanguages localeCompare engineSort (languages (tab s)) l = Some tl →
  QuranSettings.tafsirLanguage (settings (tab s)) ∉ Language.code <$> tl →
  let first :=
    match tl with
    | x :: _ => Language.code x
    | [] => "en"%string
    end in
  let s1 := step displayNames localeCompare engineSort (Settle i (Resolved (JTafsirs l))) s in
  let s2 := step displayNames localeCompare engineSort (SaveDone i) s1 in
  (∃ mapped,
     mapM (tafsirLanguageOf (languages (tab s)))
          (unique (CdnTafsirEdition.language_name <$> l)) = Some mapped
     ∧ tl = sortByName localeCompare mapped)
  ∧ ((∀ a b, localeCompare a b ≤ 0 ∨ localeCompare b a ≤ 0) →
     Sorted (nameLe localeCompare) tl)
  ∧ tafsirLanguages (tab s1) = tl
  ∧ settings (tab s1) = set_tafsirLanguage first (settings (tab s))
  ∧ stored (tab s1) = settings (tab s1)
  ∧ log (tab s1) = log (tab s) ++ [Saved (set_tafsirLanguage first (settings (tab s)))]
  ∧ tafsirEditions (tab s1) = tafsirEditions (tab s)
  ∧ flights s1 !! i = Some (AwaitReconcileSave l)
  ∧ (filterRaises displayNames l (tab s1) = false →
       tafsirEditions (tab s2) = matching displayNames l first
       ∧ QuranSettings.tafsirLanguage (settings (tab s2)) = first
       ∧ QuranSettings.tafsirLanguage (stored (tab s2)) = first).
Proof.
  intros Hfl Htl Hnot. cbn zeta.
  fold (replacementLanguage tl).
  destruct (tafsirCatalogLanguages_sorted _ _ _ Htl) as (mapped & Hm & Hs & _).
  split; [by exists mapped|].
  split; [intros Htotal; rewrite Hs; by apply sortByName_sorted|].
  cbn [step]. rewrite Hfl, onTafsirs_run. cbn zeta. rewrite Htl.
  set (t1 := set_tafsirLanguages tl (tab s)).
  assert (Hrec : reconciled t1
                 = persist (set_settings (set_tafsirLanguage (replacementLanguage tl)) t1)).
  { by apply reconciled_replaces. }
  assert (Hsaves : reconcileSaves t1 = true).
  { unfold reconcileSaves. apply negb_true_iff.
    destruct (existsb _ _) eqn:E; [|done]. by apply existsb_hasCode in E. }
  rewrite Hsaves, Hrec. cbn [resume tab flights].
  rewrite lookup_insert_eq. cbn [resume tab flights next].
  do 6 (split; [done|]).
  intros Hfilter. rewrite afterReconcile_run, Hfilter, afterFilter_run.
  set (t2 := persist _) in *.
  set (t3 := filtered displayNames l t2).
  destruct (selected_catalog t3) as (_ & _ & _ & S4 & S5 & S6).
  assert (H6 : QuranSettings.tafsirLanguage (stored (selected t3))
               = QuranSettings.tafsirLanguage (settings (selected t3))) by (by apply S6).
  destruct (selectSaves t3); cbn [resume tab].
  - rewrite S4, H6, S5. done.
  - destruct (finished_catalog (selected t3)) as (_ & _ & _ & F4 & F5 & F6).
    rewrite F4, F6, F5, S4, S5; done.
Qed.

End InFlight.

(** *** The catalogs after a refresh *)

(** The catalogs a refresh without an exception ends with. *)
Lemma refreshed_catalogs langs er tl l t :
  let t' := refreshed displayNames langs er tl l t in
  languages t' = langs
  ∧ tafsirLanguages t' = tl
  ∧ editions t' = filter (λ e, isTextTranslation e = true) (er_data er)
  ∧ tafsirEditions t'
    = matching displayNames l (QuranSettings.tafsirLanguage (settings t')).
Proof.
  cbn zeta. unfold refreshed.
  match goal with |- context [displayed ?x] =>
    destruct (displayed_catalog x) as (D1 & D2 & D3 & D4 & D5 & _) end.
  rewrite D1, D2, D3, D4, D5.
  cbn [languages tafsirLanguages editions tafsirEditions settings set_isLoadingMetadata].
  unfold processed.
  match goal with |- context [selected ?x] =>
    destruct (selected_catalog x) as (S1 & S2 & S3 & S4 & S5 & _) end.
  rewrite S1, S2, S3, S4, S5. unfold filtered at 1 2 3 4 5.
  cbn [languages tafsirLanguages editions tafsirEditions settings set_tafsirEditions].
  match goal with |- context [reconciled ?x] =>
    destruct (reconciled_fields x) as (R1 & R2 & R3 & _) end.
  rewrite R1, R2, R3. done.
Qed.

Lemma fetchLanguages_keeps net t :
  let t' := tabOf (fetchLanguages displayNames localeCompare engineSort net t) in
  settings t' = settings t ∧ stored t' = stored t
  ∧ tafsirLanguages t' = tafsirLanguages t ∧ editions t' = editions t
  ∧ tafsirEditions t' = tafsirEditions t
  ∧ isLoadingMetadata t' = isLoadingMetadata t.
Proof.
  cbn zeta. rewrite fetchLanguages_run. cbn zeta.
  destruct (net GetLanguages) as [|[lr| | |]]; [|destruct (sortLanguages _ _ _)| | |]; done.
Qed.

Lemma fetchTranslationEditions_keeps net t :
  let t' := tabOf (fetchTranslationEditions net t) in
  settings t' = settings t ∧ stored t' = stored t
  ∧ languages t' = languages t ∧ tafsirLanguages t' = tafsirLanguages t
  ∧ tafsirEditions t' = tafsirEditions t
  ∧ isLoadingMetadata t' = isLoadingMetadata t.
Proof.
  cbn zeta. rewrite fetchTranslationEditions_run. cbn zeta.
  by destruct (net _) as [|[|er| |]].
Qed.

(** [fetchAndProcessTafsirs] assigns the tafsir catalog last: when it
    raises, the catalog is the one it found. *)
Lemma fetchAndProcessTafsirs_raised net t :
  let c := fetchAndProcessTafsirs displayNames localeCompare engineSort net t in
  threw c = true →
  languages (tabOf c) = languages t
  ∧ editions (tabOf c) = editions t
  ∧ tafsirEditions (tabOf c) = tafsirEditions t
  ∧ QuranSettings.tafsir (settings (tabOf c)) = QuranSettings.tafsir (settings t)
  ∧ QuranSettings.tafsirName (settings (tabOf c)) = QuranSettings.tafsirName (settings t).
Proof.
  cbn zeta. rewrite fetchAndProcessTafsirs_run. cbn zeta.
  destruct (net GetTafsirEditions) as [|[| |l|]]; try done.
  destruct (tafsirCatalogLanguages _ _ _ _) as [tl|]; [|done].
  destruct (filterRaises _ _ _); [|done]. intros _. cbn [tabOf].
  match goal with |- context [reconciled ?x] =>
    destruct (reconciled_fields x) as (R1 & R2 & R3 & R4 & R5 & R6) end.
  cbn [languages editions tafsirEditions settings emit].
  rewrite R1, R3, R4, R5, R6. done.
Qed.

Lemma refreshBody_raised net t :
  let c := refreshBody displayNames localeCompare engineSort net t in
  threw c = true →
  tafsirEditions (tabOf c) = tafsirEditions t
  ∧ QuranSettings.tafsir (settings (tabOf c)) = QuranSettings.tafsir (settings t)
  ∧ QuranSettings.tafsirName (settings (tabOf c)) = QuranSettings.tafsirName (settings t).
Proof.
  cbn zeta. rewrite refreshBody_run.
  destruct (fetchLanguages_keeps net t) as (L1 & _ & _ & _ & L & _).
  destruct (fetchLanguages _ _ _ _ _) as [[] t1|t1]; cbn [tabOf] in *;
    [|by rewrite L1].
  destruct (fetchTranslationEditions_keeps net t1) as (E1 & _ & _ & _ & E & _).
  destruct (fetchTranslationEditions _ _) as [[] t2|t2]; cbn [tabOf] in *;
    [|intros _; by rewrite E1, L1, E, L].
  intros Hthrew.
  destruct (fetchAndProcessTafsirs_raised net t2 Hthrew) as (_ & _ & T & T1 & T2).
  by rewrite T, T1, T2, E1, L1, E, L.
Qed.

Lemma displayed_cleared b t :
  tafsirEditions t = [] →
  displayed (set_isLoadingMetadata b (cleared t))
  = emit Displayed (set_isLoadingMetadata b (cleared t)).
Proof. intros E. unfold displayed. cbn. by rewrite E. Qed.

Lemma cleared_fields t :
  QuranSettings.tafsir (settings (cleared t)) = String.EmptyString
  ∧ QuranSettings.tafsirName (settings (cleared t)) = String.EmptyString
  ∧ stored (cleared t) = settings (cleared t)
  ∧ log (cleared t) = log t ++ [Saved (settings (cleared t))].
Proof. done. Qed.

(** C7.  In a refresh none of whose three fetches raises, if no entry of
    the tafsir index matches the (possibly just replaced) tafsir
    language, the tafsir catalog is empty, the configured tafsir id and
    name are both the empty string, and the settings have been saved
    with them. *)
Theorem empty_tafsir_catalog_clears_selection
    (net : Request → Reply) (l : list CdnTafsirEdition.t) (t : Tab) :
  isLoadingMetadata t = false →
  threw (refreshBody displayNames localeCompare engineSort net (set_isLoadingMetadata true t))
  = false →
  net GetTafsirEditions = Resolved (JTafsirs l) →
  let t' := tabOf (fetchMetadata displayNames localeCompare engineSort net t) in
  filter (λ x, lowerName (getFullLanguageName displayNames
                            (QuranSettings.tafsirLanguage (settings t')))
               = Some (toLowerCase (CdnTafsirEdition.language_name x)))
         l = [] →
  tafsirEditions t' = []
  ∧ QuranSettings.tafsir (settings t') = String.EmptyString
  ∧ QuranSettings.tafsirName (settings t') = String.EmptyString
  ∧ stored t' = settings t'
  ∧ ∃ pre post, log t' = log t ++ pre ++ Saved (settings t') :: post.
Proof.
  intros Hf Hn Ht.
  destruct (fetchMetadata_normal net t Hf Hn)
    as (lr & langs & er & l' & tl & _ & _ & _ & Ht' & _ & _ & ->).
  rewrite Ht in Ht'. injection Ht' as <-.
  cbn [tabOf]. cbn zeta. intros Hempty.
  destruct (refreshed_catalogs langs er tl l t) as (_ & _ & _ & C3).
  unfold matching in C3. rewrite Hempty in C3. cbn in C3.
  unfold refreshed in *. unfold processed in *.
  set (t4 := filtered displayNames l _) in *.
  destruct (selected_catalog t4) as (_ & _ & _ & S4 & _).
  set (t5 := set_isLoadingMetadata false (selected t4)) in *.
  destruct (displayed_catalog t5) as (_ & _ & _ & D4 & _).
  assert (E4 : tafsirEditions t4 = []).
  { transitivity (tafsirEditions (selected t4)); [done|].
    transitivity (tafsirEditions t5); [done|]. by rewrite <- D4. }
  assert (Hsel : selected t4 = cleared t4).
  { unfold selected. by rewrite E4. }
  subst t5. rewrite Hsel, (displayed_cleared false t4 E4).
  destruct (cleared_fields t4) as (F1 & F2 & F3 & F4).
  cbn [tafsirEditions settings stored log emit set_isLoadingMetadata].
  split; [by rewrite <- E4|]. split; [done|]. split; [done|]. split; [done|].
  assert (Hpre : ∃ pre, log t4 = log t ++ pre).
  { subst t4. unfold filtered. cbn [log set_tafsirEditions].
    match goal with |- context [reconciled ?x] =>
      destruct (reconciled_frame x) as (_ & _ & (p & Lp) & _) end.
    rewrite Lp. cbn. eexists. rewrite <- !app_assoc. reflexivity. }
  destruct Hpre as (pre & Lpre).
  exists pre, [Displayed]. rewrite F4, Lpre, <- !app_assoc. done.
Qed.

Lemma translation_switch_run net val t :
  ∃ t1, onTranslationLanguageChange net val t = Normal tt (displayed (persist t1))
        ∧ QuranSettings.language (settings t1) = val
        ∧ (∀ first, head (editions t1) = Some first →
             QuranSettings.translation (settings t1) = Edition.identifier first
             ∧ quietly t t1)
        ∧ (editions t1 = [] →
             QuranSettings.translation (settings t1) = QuranSettings.translation (settings t)).
Proof.
  unfold onTranslationLanguageChange.
  unfold mbind at 1. unfold M_bind at 1. unfold modify at 1.
  unfold mbind at 1. unfold M_bind at 1. unfold modify at 1.
  unfold mbind at 1. unfold M_bind at 1. unfold tryCatch at 1.
  unfold mbind at 1. unfold M_bind at 1.
  set (t0 := set_editions [] (set_settings (set_language val) t)).
  rewrite fetchTranslationEditions_run. cbn zeta.
  change (QuranSettings.language (settings t0)) with val.
  destruct (net (GetEditions val)) as [|[r|er|l|]] eqn:E.
  3:{ unfold mbind at 1. unfold M_bind at 1. unfold gets at 1.
      cbn [editions set_editions].
      destruct (filter _ _) as [|first eds] eqn:EF.
      - eexists. split.
        { unfold_M. apply display_run. }
        cbn. repeat split; done.
      - eexists. split.
        { unfold_M. apply display_run. }
        cbn. split; [done|]. split; [|done].
        intros f [= <-]. split; [done|]. subst t0. quiet_emit. }
  all: exists (emit (Noticed "Failed to auto-select translation. Check your internet connection.")
      (emit (Noticed "Failed to fetch translations. Check your internet connection.")
        (emit (Requested (GetEditions val)) t0)));
      (split; [unfold_M; cbn; apply display_run|]);
      repeat split; done.
Qed.

Lemma tafsir_switch_run net val t :
  onTafsirLanguageChange displayNames localeCompare engineSort net val t
  = match fetchAndProcessTafsirs displayNames localeCompare engineSort net
            (persist (set_settings (set_tafsirLanguage val) t)) with
    | Normal _ c => Normal tt (displayed c)
    | Thrown c => Thrown c
    end.
Proof.
  unfold onTafsirLanguageChange.
  unfold mbind at 1. unfold M_bind at 1. unfold modify at 1.
  unfold mbind at 1. unfold M_bind at 1. unfold saveSettings at 1. unfold modify at 1.
  unfold mbind at 1. unfold M_bind at 1.
  destruct (fetchAndProcessTafsirs _ _ _ _ _) as [[] c|c]; [|done].
  apply display_run.
Qed.

(** A tafsir switch that does not raise: what the network answered and
    what the tab holds. *)
Lemma tafsir_switch_normal net val t :
  threw (onTafsirLanguageChange displayNames localeCompare engineSort net val t) = false →
  ∃ l tl,
    net GetTafsirEditions = Resolved (JTafsirs l)
    ∧ tafsirCatalogLanguages localeCompare engineSort (languages t) l = Some tl
    ∧ onTafsirLanguageChange displayNames localeCompare engineSort net val t
      = Normal tt (displayed (processed displayNames tl l
                                (persist (set_settings (set_tafsirLanguage val) t)))).
Proof.
  rewrite tafsir_switch_run, fetchAndProcessTafsirs_run. cbn zeta.
  destruct (net GetTafsirEditions) as [|[| |l|]] eqn:El; try done.
  cbn [languages persist set_settings].
  destruct (tafsirCatalogLanguages _ _ _ _) as [tl|] eqn:Etl; [|done].
  destruct (filterRaises _ _ _) eqn:Ef; [done|]. intros _. by exists l, tl.
Qed.

Lemma processed_catalog tl l t :
  let t' := processed displayNames tl l t in
  languages t' = languages t
  ∧ tafsirLanguages t' = tl
  ∧ editions t' = editions t
  ∧ tafsirEditions t' = matching displayNames l (QuranSettings.tafsirLanguage (settings t')).
Proof.
  cbn zeta. unfold processed.
  match goal with |- context [selected ?x] =>
    destruct (selected_catalog x) as (S1 & S2 & S3 & S4 & S5 & _) end.
  rewrite S1, S2, S3, S4, S5. unfold filtered at 1 2 3 4 5.
  cbn [languages tafsirLanguages editions tafsirEditions settings set_tafsirEditions].
  match goal with |- context [reconciled ?x] =>
    destruct (reconciled_fields x) as (R1 & R2 & R3 & _) end.
  rewrite R1, R2, R3. done.
Qed.

Lemma processed_valid tl l t :
  tafsirEditions (processed displayNames tl l t) ≠ [] →
  tafsirValid (processed displayNames tl l t).
Proof.
  unfold processed. intros Hne.
  match goal with |- context [selected ?x] =>
    destruct (selected_catalog x) as (_ & _ & _ & S4 & _) end.
  apply selected_valid. by rewrite <- S4.
Qed.

(** An id absent from the catalog just filtered is replaced by the first
    entry's id and name, and saved. *)
Lemma processed_picks_first tl l t first :
  let t' := processed displayNames tl l t in
  head (tafsirEditions t') = Some first →
  QuranSettings.tafsir (settings t) ∉ Edition.identifier <$> tafsirEditions t' →
  QuranSettings.tafsir (settings t') = Edition.identifier first
  ∧ QuranSettings.tafsirName (settings t') = Edition.name first
  ∧ stored t' = settings t'.
Proof.
  cbn zeta. unfold processed.
  set (t4 := filtered displayNames l _).
  destruct (selected_catalog t4) as (_ & _ & _ & S4 & _).
  rewrite S4. intros Hhd Hnot.
  assert (Hcur : QuranSettings.tafsir (settings t4) = QuranSettings.tafsir (settings t)).
  { subst t4. unfold filtered. cbn [settings set_tafsirEditions].
    match goal with |- context [reconciled ?x] =>
      destruct (reconciled_fields x) as (_ & _ & _ & _ & Q & _) end.
    by rewrite Q. }
  rewrite <- Hcur in Hnot.
  by rewrite (selected_picks_first t4 first Hhd Hnot).
Qed.

(** C5, amended.  Tafsir: a refresh none of whose fetches raises ends
    with the tafsir catalog equal to the index filtered by the
    configured tafsir language, with the configured tafsir id in that
    catalog whenever it is non-empty, and with no notice shown; an id
    absent from the catalog has been replaced by the first entry's id and
    name and saved.  The same holds after a tafsir-language switch that
    does not raise.  A refresh or a switch that does raise leaves the
    tafsir catalog as it was.  In every case a tafsir id that was in
    step with the stored one still is.  Translation: a
    translation-language switch always sets and saves the new language;
    when it ends with a non-empty catalog the configured translation is
    that catalog's first edition, saved, with no notice.  A refresh
    never changes the configured translation. *)
Theorem preferences_repaired_by_design
    (net : Request → Reply) (val : string) (t : Tab) :
  isLoadingMetadata t = false →
  let body := refreshBody displayNames localeCompare engineSort net
                (set_isLoadingMetadata true t) in
  let refresh := tabOf (fetchMetadata displayNames localeCompare engineSort net t) in
  let tafsirSwitch := onTafsirLanguageChange displayNames localeCompare engineSort net val t in
  let translationSwitch := tabOf (onTranslationLanguageChange net val t) in
  (threw body = false →
     ∃ l, net GetTafsirEditions = Resolved (JTafsirs l)
       ∧ tafsirEditions refresh
         = matching displayNames l (QuranSettings.tafsirLanguage (settings refresh))
       ∧ (tafsirEditions refresh ≠ [] → tafsirValid refresh)
       ∧ quietly t refresh
       ∧ ∀ first, head (tafsirEditions refresh) = Some first →
           QuranSettings.tafsir (settings t) ∉ Edition.identifier <$> tafsirEditions refresh →
           QuranSettings.tafsir (settings refresh) = Edition.identifier first
           ∧ QuranSettings.tafsirName (settings refresh) = Edition.name first
           ∧ stored refresh = settings refresh)
  ∧ (threw body = true → tafsirEditions refresh = tafsirEditions t)
  ∧ (tafsirSynced t → tafsirSynced refresh)
  ∧ (threw tafsirSwitch = false →
     ∃ l, net GetTafsirEditions = Resolved (JTafsirs l)
       ∧ tafsirEditions (tabOf tafsirSwitch)
         = matching displayNames l
             (QuranSettings.tafsirLanguage (settings (tabOf tafsirSwitch)))
       ∧ (tafsirEditions (tabOf tafsirSwitch) ≠ [] → tafsirValid (tabOf tafsirSwitch))
       ∧ quietly t (tabOf tafsirSwitch)
       ∧ ∀ first, head (tafsirEditions (tabOf tafsirSwitch)) = Some first →
           QuranSettings.tafsir (settings t)
             ∉ Edition.identifier <$> tafsirEditions (tabOf tafsirSwitch) →
           QuranSettings.tafsir (settings (tabOf tafsirSwitch)) = Edition.identifier first
           ∧ QuranSettings.tafsirName (settings (tabOf tafsirSwitch)) = Edition.name first
           ∧ stored (tabOf tafsirSwitch) = settings (tabOf tafsirSwitch))
  ∧ (threw tafsirSwitch = true → tafsirEditions (tabOf tafsirSwitch) = tafsirEditions t)
  ∧ tafsirSynced (tabOf tafsirSwitch)
  ∧ QuranSettings.language (settings translationSwitch) = val
  ∧ stored translationSwitch = settings translationSwitch
  ∧ (∀ first, head (editions translationSwitch) = Some first →
       QuranSettings.translation (settings translationSwitch) = Edition.identifier first
       ∧ translationValid translationSwitch
       ∧ quietly t translationSwitch)
  ∧ QuranSettings.translation (settings refresh) = QuranSettings.translation (settings t).
Proof.
  intros Hf. cbn zeta.
  destruct (refresh_frame net t Hf) as ((R1 & R2 & R3 & R4) & _).
  split.
  { intros Hn.
    destruct (fetchMetadata_normal net t Hf Hn)
      as (lr & langs & er & l & tl & _ & _ & _ & Ht & _ & _ & ->).
    cbn [tabOf]. exists l. split; [done|].
    destruct (refreshed_catalogs langs er tl l t) as (_ & _ & _ & C4).
    split; [exact C4|]. clear C4.
    unfold refreshed.
    set (t5 := set_isLoadingMetadata false (processed displayNames tl l _)).
    destruct (displayed_catalog t5) as (_ & _ & _ & D4 & _).
    split.
    { intros Hne. apply displayed_valid. rewrite D4 in Hne.
      apply (processed_valid tl l _ Hne). }
    split; [apply refreshed_quietly|].
    intros first Hhd Hnot. rewrite D4 in Hhd, Hnot.
    destruct (processed_picks_first tl l _ first Hhd Hnot) as (P1 & P2 & P3).
    destruct (displayed_keeps_first t5 first Hhd) as (K1 & K2); [done..|].
    split; [done|]. split; [done|]. by apply displayed_stored. }
  split.
  { intros Hthrew. rewrite fetchMetadata_run, Hf. cbn [tabOf].
    match goal with |- context [displayed ?x] =>
      destruct (displayed_catalog x) as (_ & _ & _ & D4 & _) end.
    rewrite D4. cbn [tafsirEditions set_isLoadingMetadata].
    pose proof (refreshBody_raised net (set_isLoadingMetadata true t) Hthrew) as (Hb & _).
    by destruct (refreshBody _ _ _ _ _). }
  split; [done|].
  rewrite tafsir_switch_run.
  set (t1 := persist (set_settings (set_tafsirLanguage val) t)).
  split.
  { intros Hn.
    destruct (tafsir_switch_normal net val t) as (l & tl & Ht & _ & Hrun).
    { by rewrite tafsir_switch_run. }
    rewrite tafsir_switch_run in Hrun. fold t1 in Hrun. rewrite Hrun.
    cbn [tabOf]. exists l. split; [done|].
    destruct (displayed_catalog (processed displayNames tl l t1)) as (_ & _ & _ & D4 & D5 & _).
    destruct (processed_catalog tl l t1) as (_ & _ & _ & P4).
    split; [by rewrite D4, D5|].
    split.
    { intros Hne. apply displayed_valid. rewrite D4 in Hne.
      by apply processed_valid. }
    split.
    { eapply quietly_trans; [|apply displayed_quietly].
      eapply quietly_trans; [|apply processed_quietly].
      subst t1. quiet_emit. }
    intros first Hhd Hnot. rewrite D4 in Hhd, Hnot.
    destruct (processed_picks_first tl l t1 first Hhd Hnot) as (Q1 & Q2 & Q3).
    destruct (displayed_keeps_first _ first Hhd) as (K1 & K2); [done..|].
    split; [done|]. split; [done|]. by apply displayed_stored. }
  split.
  { intros Hthrew.
    pose proof (fetchAndProcessTafsirs_raised net t1) as Hr. cbn zeta in Hr.
    destruct (fetchAndProcessTafsirs _ _ _ _ _) as [[] c|c]; [done|].
    by destruct (Hr eq_refl) as (_ & _ & T & _). }
  split.
  { pose proof (fetchAndProcessTafsirs_frame net t1) as (_ & _ & _ & F).
    destruct (fetchAndProcessTafsirs _ _ _ _ _) as [[] c|c]; cbn [tabOf] in *.
    - apply displayed_frame, F. by subst t1.
    - apply F. by subst t1. }
  destruct (translation_switch_run net val t) as (t2 & -> & T1 & T2 & T3).
  cbn [tabOf].
  destruct (displayed_frame (persist t2)) as (F1 & F2 & _ & _).
  destruct (displayed_catalog (persist t2)) as (_ & _ & D3 & _).
  split; [by rewrite F2|].
  split; [by apply displayed_stored|].
  split; [|done].
  intros first Hhd. rewrite D3 in Hhd. cbn [editions persist] in Hhd.
  destruct (T2 first Hhd) as (T4 & T5).
  split; [by rewrite F1|]. split.
  - unfold translationValid. rewrite F1, D3. cbn [settings editions persist]. rewrite T4.
    destruct (editions t2) as [|f eds]; [done|]. injection Hhd as ->. left.
  - eapply quietly_trans; [exact T5|].
    eapply quietly_trans; [apply persist_quietly|apply displayed_quietly].
Qed.


End MetadataResolverFacts.

(** ** The resolver on the sample environment *)

Lemma order_total a b :
  MetadataResolver.Sample.order a b ≤ 0 ∨ MetadataResolver.Sample.order b a ≤ 0.
Proof.
  unfold MetadataResolver.Sample.order. rewrite (String.compare_antisym a b).
  destruct (String.compare b a); cbn; lia.
Qed.

Section SampleRuns.

Import MetadataResolver Refresh.

(** C5, as the claim states it, fails: after a first refresh, switching
    the translation language to French while the network is down leaves
    the English edition selected and shows a notice, and a later refresh
    that fetches the French catalog does not put the selection back into
    it. *)
Lemma refresh_leaves_invalid_translation :
  let switched := tabOf (onTranslationLanguageChange Sample.offline "fr" Sample.loaded) in
  let t' := tabOf (fetchMetadata Sample.names Sample.order Sample.engine Sample.online switched) in
  Noticed "Failed to auto-select translation. Check your internet connection."
    ∈ log switched
  ∧ QuranSettings.language (settings t') = "fr"%string
  ∧ Edition.identifier <$> editions t' = ["fr.hamidullah"]%string
  ∧ QuranSettings.translation (settings t') = "en.itani"%string
  ∧ ¬ translationValid t'.
Proof.
  cbn zeta. split.
  { vm_compute. repeat first [by left | right]. }
  split; [reflexivity|]. split; [reflexivity|]. split; [reflexivity|].
  unfold translationValid.
  replace (Edition.identifier <$> editions _) with ["fr.hamidullah"%string] by reflexivity.
  replace (QuranSettings.translation _) with "en.itani"%string by reflexivity.
  intros H. apply list_elem_of_singleton in H. discriminate.
Qed.

Lemma preferences_repaired_by_design_witness :
  let refresh := tabOf (fetchMetadata Sample.names Sample.order Sample.engine
                          Sample.online Sample.staleLanguage) in
  let t' := tabOf (onTranslationLanguageChange Sample.online "fr" Sample.staleLanguage) in
  Edition.identifier <$> tafsirEditions refresh = ["ar-tafsir-al-tabari"]%string
  ∧ tafsirValid refresh
  ∧ QuranSettings.language (settings t') = "fr"%string
  ∧ stored t' = settings t'
  ∧ QuranSettings.translation (settings t') = "fr.hamidullah"%string
  ∧ translationValid t'.
Proof.
  pose proof (preferences_repaired_by_design Sample.names Sample.order Sample.engine
                Sample.online "fr" Sample.staleLanguage eq_refl)
    as (H1 & _ & _ & _ & _ & _ & H5 & H6 & H7 & _).
  destruct (H1 eq_refl) as (l & _ & _ & Hvalid & _).
  destruct (H7 (Sample.translationEdition "fr.hamidullah" "fr" "Hamidullah") eq_refl)
    as (H8 & H9 & _).
  split; [reflexivity|]. split; [apply Hvalid; discriminate|].
  split; [exact H5|]. split; [exact H6|]. split; [exact H8|exact H9].
Defined.

Lemma tafsir_language_reconciled_witness :
  let s := run Sample.names Sample.order Sample.engine
             [Call; Settle 0 (Sample.online GetLanguages);
              Settle 0 (Sample.online (GetEditions "en"))]
             (idle Sample.staleLanguage) in
  let s1 := step Sample.names Sample.order Sample.engine
              (Settle 0 (Resolved (JTafsirs Sample.tafsirIndex))) s in
  let s2 := step Sample.names Sample.order Sample.engine (SaveDone 0) s1 in
  QuranSettings.tafsirLanguage (settings (tab s)) = "de"%string
  ∧ Language.code <$> tafsirLanguages (tab s1) = ["ar"; "en"; "kurdish"]%string
  ∧ QuranSettings.tafsirLanguage (stored (tab s1)) = "ar"%string
  ∧ tafsirEditions (tab s1) = []
  ∧ Edition.identifier <$> tafsirEditions (tab s2) = ["ar-tafsir-al-tabari"]%string.
Proof.
  cbn zeta.
  set (s := run _ _ _ _ _).
  set (tl := [ {| Language.code := "ar"; Language.name := Text "Arabic" |};
               {| Language.code := "en"; Language.name := Text "English" |};
               {| Language.code := "kurdish"; Language.name := Text "Kurdish" |} ]).
  assert (Hnot : QuranSettings.tafsirLanguage (settings (tab s)) ∉ Language.code <$> tl).
  { replace (QuranSettings.tafsirLanguage _) with "de"%string by reflexivity.
    intros H. cbn in H. repeat (apply elem_of_cons in H as [H|H]; [discriminate|]).
    by apply elem_of_nil in H. }
  pose proof (tafsir_language_reconciled Sample.names Sample.order Sample.engine
                0%nat Sample.tafsirIndex tl s eq_refl eq_refl Hnot)
    as (_ & _ & H3 & H4 & H5 & _ & H7 & _ & H9).
  destruct (H9 eq_refl) as (H10 & _).
  split; [reflexivity|].
  split; [by rewrite H3|].
  split; [by rewrite H5, H4|].
  split; [by rewrite H7|].
  by rewrite H10.
Defined.

Lemma empty_tafsir_catalog_clears_selection_witness :
  let t' := tabOf (fetchMetadata Sample.names Sample.order Sample.engine
                     Sample.withoutTafsirs Sample.fresh) in
  QuranSettings.tafsir (settings t') = String.EmptyString
  ∧ QuranSettings.tafsirName (settings t') = String.EmptyString
  ∧ stored t' = settings t'.
Proof.
  pose proof (empty_tafsir_catalog_clears_selection Sample.names Sample.order Sample.engine
                Sample.withoutTafsirs [] Sample.fresh eq_refl eq_refl eq_refl eq_refl)
    as (_ & H2 & H3 & H4 & _).
  split; [exact H2|]. split; [exact H3|exact H4].
Defined.



Lemma fetchMetadata_busy_is_noop_witness :
  let s := run Sample.names Sample.order Sample.engine [Call] (idle Sample.fresh) in
  flights s = {[0%nat := AwaitLanguages]}
  ∧ step Sample.names Sample.order Sample.engine Call s = s
  ∧ fetchMetadata Sample.names Sample.order Sample.engine Sample.online (tab s)
    = Normal tt (tab s).
Proof.
  cbn zeta.
  pose proof (fetchMetadata_busy_is_noop Sample.names Sample.order Sample.engine
                [Call] Sample.online Sample.fresh eq_refl) as (_ & H2 & H3 & _).
  cbn zeta in H2, H3.
  split; [reflexivity|]. apply H3, H2. reflexivity.
Defined.

Lemma fetchMetadata_resets_busy_flag_witness :
  isLoadingMetadata
    (tabOf (fetchMetadata Sample.names Sample.order Sample.engine Sample.offline Sample.fresh))
  = false.
Proof.
  exact (proj1 (proj2 (fetchMetadata_resets_busy_flag Sample.names Sample.order Sample.engine
                         Sample.offline Sample.online Sample.fresh eq_refl))).
Defined.

End SampleRuns.

(** ** Glyphs of a verse number *)

Section GlyphFacts.

Import ArabicDigits.

Lemma uintDigits_inj d d' : uintDigits d = uintDigits d' → d = d'.
Proof.
  revert d'. induction d; intros d' H; destruct d'; cbn in H; try discriminate;
    try done; injection H as H; f_equal; by apply IHd.
Qed.

Lemma uintDigits_digits d : Forall (λ x, (x < 10)%N) (uintDigits d).
Proof. induction d; cbn; constructor; try done; lia. Qed.

Lemma decimalDigits_inj n m : decimalDigits n = decimalDigits m → n = m.
Proof. intros H. apply DecimalN.Unsigned.to_uint_inj. by apply uintDigits_inj. Qed.

Lemma glyph_inj d d' : (d < 10)%N → (d' < 10)%N → glyph d = glyph d' → d = d'.
Proof.
  intros Hd Hd'.
  assert (Hc : ∀ x, (x < 10)%N → glyph x = (0x660 + x)%N).
  { intros x Hx.
    assert (Hin : x ∈ [0; 1; 2; 3; 4; 5; 6; 7; 8; 9]%N).
    { destruct x as [|q]; [set_solver|].
      do 9 (destruct q as [q|q|]; try lia; try set_solver). }
    repeat (apply elem_of_cons in Hin as [->|Hin]; [reflexivity|]).
    by apply elem_of_nil in Hin. }
  rewrite !Hc by done. lia.
Qed.

Lemma glyphs_inj ds ds' :
  Forall (λ x, (x < 10)%N) ds → Forall (λ x, (x < 10)%N) ds' →
  glyph <$> ds = glyph <$> ds' → ds = ds'.
Proof.
  intros H. revert ds'. induction H as [|d ds Hd _ IH]; intros ds' H' E.
  - by destruct ds'.
  - destruct H' as [|d' ds' Hd' H']; [done|]. cbn in E. injection E as E1 E2.
    f_equal; [by apply glyph_inj|by apply IH].
Qed.

Lemma toArabicDigits_pos p :
  toArabicDigits (Zpos p) = glyph <$> decimalDigits (Npos p).
Proof.
  unfold toArabicDigits. cbn [toString].
  apply replaceDigits_digitUnits, uintDigits_digits.
Qed.

Lemma toArabicDigits_neg p :
  toArabicDigits (Zneg p) = minusUnit :: (glyph <$> decimalDigits (Npos p)).
Proof.
  unfold toArabicDigits. cbn [toString]. unfold replaceDigits. cbn [fmap list_fmap].
  change (isDigit minusUnit) with false. cbn iota. f_equal.
  apply replaceDigits_digitUnits, uintDigits_digits.
Qed.

Lemma glyph_not_minus d ds : Forall (λ x, (x < 10)%N) (d :: ds) → glyph d ≠ minusUnit.
Proof.
  intros H. apply Forall_cons in H as [Hd _].
  assert (Hin : d ∈ [0; 1; 2; 3; 4; 5; 6; 7; 8; 9]%N).
  { destruct d as [|q]; [set_solver|].
    do 9 (destruct q as [q|q|]; try lia; try set_solver). }
  repeat (apply elem_of_cons in Hin as [->|Hin]; [discriminate|]).
  by apply elem_of_nil in Hin.
Qed.

Lemma glyphs_not_minus n ds :
  glyph <$> decimalDigits n = minusUnit :: ds → False.
Proof.
  pose proof (uintDigits_digits (N.to_uint n)) as H. unfold decimalDigits.
  destruct (uintDigits (N.to_uint n)) as [|d l]; [done|].
  cbn. intros [= E _]. by eapply glyph_not_minus.
Qed.

(** X5.  [toArabicDigits] is injective on the integers a number of the
    payload holds exactly, those of magnitude below 2^53: two such verse
    numbers with the same rendering in Arabic-Indic digits are the same
    number. *)
Theorem toArabicDigits_injective (n m : Z) :
  - 2 ^ 53 < n < 2 ^ 53 →
  - 2 ^ 53 < m < 2 ^ 53 →
  toArabicDigits n = toArabicDigits m → n = m.
Proof.
  intros _ _.
  assert (H0 : toArabicDigits 0 = glyph <$> decimalDigits 0) by reflexivity.
  destruct n as [|p|p], m as [|q|q]; try done;
    rewrite ?H0, ?toArabicDigits_pos, ?toArabicDigits_neg; intros E;
    first
      [ by apply glyphs_not_minus in E
      | by (symmetry in E; apply glyphs_not_minus in E)
      | try injection E as E;
        apply glyphs_inj in E; [|apply uintDigits_digits..];
        apply decimalDigits_inj in E; congruence ].
Qed.

Lemma toArabicDigits_injective_witness :
  toArabicDigits 286 = toArabicDigits 286 ∧ (286 : Z) = 286.
Proof.
  split; [reflexivity|].
  exact (toArabicDigits_injective 286 286 ltac:(lia) ltac:(lia) eq_refl).
Defined.

End GlyphFacts.

(** ** The render and retry cycle *)

Section VerseCycleFacts.

Import ArabicDigits VerseFetcher VerseCycle.

Lemma loadingCard_without_skeletons :
  filter (λ n, isSkeleton n = false) loadingCard = [Header].
Proof. reflexivity. Qed.

(** X1.  The last step of a successful invocation.  When both edition
    replies carry code 200 and a payload, the container of the suspended
    invocation ends up with exactly the header, the Arabic text followed
    by the end-of-ayah sign and the verse number, the translation and the
    footer, in this order and without a skeleton.  No other container
    changes, the invocation is over, and no timeout, cleanup or request
    is added.  If the container is on screen, so is its reload button. *)
Theorem resolved_editions_show_verse
    (w : World) (c : nat) (arJson trJson : ApiResponse) (arData trData : AyahData) :
  reachable w →
  tasks w !! c = Some AwaitEditions →
  code arJson = 200 → data arJson = Some arData →
  code trJson = 200 → data trJson = Some trData →
  let w' := step (EditionsReply c (Resolved arJson) (Resolved trJson)) w in
  cards w' !! c = Some (verseCard arData trData)
  ∧ (∀ c', c' ≠ c → cards w' !! c' = cards w !! c')
  ∧ tasks w' = delete c (tasks w)
  ∧ timers w' = timers w
  ∧ cleanups w' = cleanups w
  ∧ requests w' = requests w
  ∧ (isConnected c w = true → reloadVisible w' = true).
Proof.
  intros Hreach Hk Ha Hda Ht Hdt. apply reachable_inv in Hreach as [I1 _].
  pose proof (I1 _ _ Hk) as Hcard.
  cbn zeta. cbn [step]. rewrite Hk. unfold onEditions, editionsBody.
  rewrite Hda, Hdt.
  rewrite (bool_decide_eq_false_2 (code arJson ≠ 200)) by (intros H; by apply H).
  rewrite (bool_decide_eq_false_2 (code trJson ≠ 200)) by (intros H; by apply H).
  cbn [orb tryCatch].
  unfold appendNode, removeSkeletons.
  cbn [set_tasks set_cards cards tasks timers cleanups requests].
  assert (Hc : alter (λ l, l ++ [Footer (metaText trData)]) c
             (alter (λ l, l ++ [QuranTranslation (isTranslationRtl trData) (text trData)]) c
               (alter (λ l, l ++ [QuranArabic (arabicText arData)]) c
                 (alter (filter (λ n, isSkeleton n = false)) c (cards w)))) !! c
           = Some (verseCard arData trData)).
  { rewrite !lookup_alter_eq, Hcard. reflexivity. }
  split; [done|]. split.
  { intros c' Hne. by rewrite !lookup_alter_ne. }
  repeat split; try done.
  intros Hconn. unfold isConnected in Hconn. apply andb_true_iff in Hconn as [Hc1 Hc2].
  apply bool_decide_eq_true in Hc2.
  unfold reloadVisible. cbn [connected mounted cards set_tasks set_cards].
  rewrite Hc1, Hc2, Hc. reflexivity.
Qed.

Lemma resolved_editions_show_verse_witness :
  let w := run [LookupReply 0 (Resolved (sampleJson 777))] (mount "en.itani" 499) in
  cards (step (EditionsReply 0 (Resolved (sampleJson 777)) (Resolved (sampleJson 777))) w)
    !! 0%nat
  = Some (verseCard (sampleAyah 777) (sampleAyah 777)).
Proof.
  intros w.
  assert (Hr : reachable w).
  { exists "en.itani"%string, 499, [LookupReply 0 (Resolved (sampleJson 777))]. reflexivity. }
  exact (proj1 (resolved_editions_show_verse w 0 (sampleJson 777) (sampleJson 777)
                  (sampleAyah 777) (sampleAyah 777) Hr eq_refl eq_refl eq_refl eq_refl eq_refl)).
Defined.

(** X2.  Code 200 without a payload.  Replies with code 200 pass the
    test of the code, so the four skeletons are removed before the first
    access to a field of the missing [data] raises.  The card is left
    with the header alone, or with the header and the Arabic text when
    only the translation has no payload; the [catch] block then registers
    the timeout 5000 ms ahead, the invocation is over and no request is
    added. *)
Theorem payload_without_data_leaves_partial_card
    (w : World) (c : nat) (arJson trJson : ApiResponse) :
  reachable w →
  tasks w !! c = Some AwaitEditions →
  code arJson = 200 → code trJson = 200 →
  data arJson = None ∨ data trJson = None →
  let w' := step (EditionsReply c (Resolved arJson) (Resolved trJson)) w in
  cards w' !! c
  = Some (match data arJson with
          | None => [Header]
          | Some arData => [Header; QuranArabic (arabicText arData)]
          end)
  ∧ timers w' = <[next w := {| due := now w + 5000; owner := c |}]> (timers w)
  ∧ tasks w' = delete c (tasks w)
  ∧ requests w' = requests w.
Proof.
  intros Hreach Hk Ha Ht Hd. apply reachable_inv in Hreach as [I1 _].
  pose proof (I1 _ _ Hk) as Hcard.
  cbn zeta. cbn [step]. rewrite Hk. unfold onEditions, editionsBody.
  rewrite (bool_decide_eq_false_2 (code arJson ≠ 200)) by (intros H; by apply H).
  rewrite (bool_decide_eq_false_2 (code trJson ≠ 200)) by (intros H; by apply H).
  cbn [orb]. unfold appendNode, removeSkeletons.
  destruct (data arJson) as [arData|] eqn:Ea.
  - destruct Hd as [Hd|Hd]; [done|]. rewrite Hd.
    cbn [tryCatch scheduleRetry set_tasks set_cards cards tasks timers requests next now].
    rewrite !lookup_alter_eq, Hcard. done.
  - cbn [tryCatch scheduleRetry set_tasks set_cards cards tasks timers requests next now].
    rewrite !lookup_alter_eq, Hcard. done.
Qed.

Lemma payload_without_data_leaves_partial_card_witness :
  let empty := {| code := 200; status := "OK"; data := None |} in
  let w := run [LookupReply 0 (Resolved (sampleJson 777))] (mount "en.itani" 499) in
  cards (step (EditionsReply 0 (Resolved empty) (Resolved (sampleJson 777))) w) !! 0%nat
  = Some [Header].
Proof.
  intros empty w.
  assert (Hr : reachable w).
  { exists "en.itani"%string, 499, [LookupReply 0 (Resolved (sampleJson 777))]. reflexivity. }
  exact (proj1 (payload_without_data_leaves_partial_card w 0 empty (sampleJson 777)
                  Hr eq_refl eq_refl eq_refl (or_introl eq_refl))).
Defined.


Lemma retryInv_tryCatch c body w :
  retryInv w →
  is_Some (tasks w !! c) →
  match body with
  | Thrown w0 =>
      timers w0 = timers w ∧ tasks w0 = tasks w ∧ next w0 = next w
  | Normal w0 =>
      timers w0 = timers w ∧ next w0 = next w
      ∧ (tasks w0 = <[c := AwaitEditions]> (tasks w) ∨ tasks w0 = delete c (tasks w))
  end →
  retryInv (tryCatch c body).
Proof.
  intros (J1 & J2 & J3 & J4) [ph Hc] Hb. destruct body as [w0|w0]; cbn [tryCatch].
  - destruct Hb as (Ht & Hn & Hk). unfold retryInv. rewrite Ht, Hn.
    split; [|split; [done|split; [done|]]].
    + intros t tm Htm. pose proof (J1 _ _ Htm) as Hnone. destruct Hk as [Hk|Hk]; rewrite Hk.
      * rewrite lookup_insert_ne; [done|]. intros E. rewrite <- E in Hnone. congruence.
      * destruct (decide (c = owner tm)) as [<-|Hne];
          [by rewrite lookup_delete_eq|by rewrite lookup_delete_ne].
    + intros c' ph' Hc'. destruct Hk as [Hk|Hk]; rewrite Hk in Hc'.
      * destruct (decide (c = c')) as [<-|Hne]; [eauto|].
        rewrite lookup_insert_ne in Hc' by done. eauto.
      * apply lookup_delete_Some in Hc' as [_ Hc']. eauto.
  - destruct Hb as (Ht & Hk & Hn). unfold retryInv.
    cbn [scheduleRetry set_tasks timers tasks next]. rewrite Ht, Hk, Hn.
    split; [|split; [|split]].
    + intros t tm Htm. destruct (decide (next w = t)) as [<-|Hne].
      * rewrite lookup_insert_eq in Htm. injection Htm as <-. cbn.
        by rewrite lookup_delete_eq.
      * rewrite lookup_insert_ne in Htm by done. pose proof (J1 _ _ Htm).
        destruct (decide (c = owner tm)) as [<-|Hne'];
          [by rewrite lookup_delete_eq|by rewrite lookup_delete_ne].
    + intros t1 t2 tm1 tm2 H1 H2 Ho.
      destruct (decide (next w = t1)) as [<-|Hn1];
        destruct (decide (next w = t2)) as [<-|Hn2]; [done|..].
      * rewrite lookup_insert_eq in H1. injection H1 as <-. cbn in Ho.
        rewrite lookup_insert_ne in H2 by done.
        pose proof (J1 _ _ H2) as Hnone. rewrite <- Ho in Hnone. congruence.
      * rewrite lookup_insert_eq in H2. injection H2 as <-. cbn in Ho.
        rewrite lookup_insert_ne in H1 by done.
        pose proof (J1 _ _ H1) as Hnone. rewrite Ho in Hnone. congruence.
      * rewrite lookup_insert_ne in H1, H2 by done. eauto.
    + intros t tm Htm. destruct (decide (next w = t)) as [<-|Hne].
      * rewrite lookup_insert_eq in Htm. injection Htm as <-. cbn.
        pose proof (J4 _ _ Hc). lia.
      * rewrite lookup_insert_ne in Htm by done. pose proof (J3 _ _ Htm). lia.
    + intros c' ph' Hc'. apply lookup_delete_Some in Hc' as [_ Hc'].
      pose proof (J4 _ _ Hc'). lia.
Qed.

Lemma retryInv_renderVerse r w : retryInv w → retryInv (renderVerse r w).
Proof.
  intros (J1 & J2 & J3 & J4). unfold retryInv. cbn [renderVerse timers tasks next].
  split; [|split; [done|split]].
  - intros t tm Htm. pose proof (J3 _ _ Htm). rewrite lookup_insert_ne by lia. eauto.
  - intros t tm Htm. pose proof (J3 _ _ Htm). lia.
  - intros c ph Hc. destruct (decide (next w = c)) as [<-|Hne]; [lia|].
    rewrite lookup_insert_ne in Hc by done. pose proof (J4 _ _ Hc). lia.
Qed.

Lemma retryInv_fewer_timers w w' :
  retryInv w →
  (∀ t tm, timers w' !! t = Some tm → timers w !! t = Some tm) →
  tasks w' = tasks w → next w' = next w →
  retryInv w'.
Proof.
  intros (J1 & J2 & J3 & J4) Hsub Hk Hn. unfold retryInv. rewrite Hk, Hn.
  repeat split; eauto.
Qed.

Lemma retryInv_unload w : retryInv w → retryInv (unload w).
Proof.
  intros HJ. unfold unload. destruct (loaded w); [|done].
  destruct (timers_foldr_clear (cleanups w) w) as (Ht & Hk & _).
  apply (retryInv_fewer_timers w); [done| |done|].
  - cbn [timers]. rewrite Ht. intros t tm. rewrite lookup_foldr_delete. by case_decide.
  - cbn [next]. clear. induction (cleanups w) as [|x l IH]; [done|]. cbn. exact IH.
Qed.

Lemma retryInv_step e w : retryInv w → retryInv (step e w).
Proof.
  intros HJ. destruct e; cbn [step].
  - by apply (retryInv_fewer_timers w).
  - destruct (timers w !! t) as [tm|] eqn:Ht; [|done]. case_bool_decide; [|done].
    assert (retryInv (set_timers (delete t) w)) as HJ'.
    { apply (retryInv_fewer_timers w); [done| |done|done].
      cbn. intros t' tm' H'. by apply lookup_delete_Some in H' as [_ H']. }
    unfold retryCallback. case_match; [|done]. by apply retryInv_renderVerse.
  - destruct (tasks w !! c) as [[]|] eqn:Hc; try done.
    apply (retryInv_tryCatch c _ w); [done|by rewrite Hc|].
    unfold lookupBody. repeat case_match; simplify_eq/=; auto.
  - destruct (tasks w !! c) as [[]|] eqn:Hc; try done.
    apply (retryInv_tryCatch c _ w); [done|by rewrite Hc|].
    unfold editionsBody. repeat case_match; simplify_eq/=; auto.
  - case_match; [|done]. by apply retryInv_renderVerse.
  - by apply retryInv_unload.
  - by apply (retryInv_fewer_timers w).
  - apply (retryInv_fewer_timers (unload w)); [by apply retryInv_unload|done..].
Qed.

Lemma reachable_retryInv w : reachable w → retryInv w.
Proof.
  intros (tr & r & es & ->). induction es as [|e es IH] using rev_ind.
  - apply retryInv_renderVerse. unfold retryInv. cbn.
    repeat split; intros *; rewrite ?lookup_empty; done.
  - rewrite run_snoc. by apply retryInv_step.
Qed.

(** X3.  At most one retry per card.  In every reachable world two
    pending timeouts of the same container are the same timeout, a
    container with a pending timeout has no invocation suspended on it,
    and at most one pending timeout belongs to a container that is on
    screen. *)
Theorem one_retry_per_card (w : World) (t1 t2 : nat) (tm1 tm2 : Timer) :
  reachable w →
  timers w !! t1 = Some tm1 →
  timers w !! t2 = Some tm2 →
  (owner tm1 = owner tm2 → t1 = t2)
  ∧ tasks w !! owner tm1 = None
  ∧ (isConnected (owner tm1) w = true → isConnected (owner tm2) w = true → t1 = t2).
Proof.
  intros Hreach H1 H2. apply reachable_retryInv in Hreach as (J1 & J2 & _).
  split; [eauto|]. split; [eauto|].
  unfold isConnected. intros Ha Hb.
  apply andb_true_iff in Ha as [_ Ha]. apply andb_true_iff in Hb as [_ Hb].
  apply bool_decide_eq_true in Ha. apply bool_decide_eq_true in Hb.
  eapply J2; [done..|congruence].
Qed.

Lemma one_retry_per_card_witness :
  let w := run [LookupReply 0 Rejected] (mount "en.itani" 499) in
  tasks w !! 0%nat = None.
Proof.
  intros w.
  assert (Hr : reachable w).
  { exists "en.itani"%string, 499, [LookupReply 0 Rejected]. reflexivity. }
  exact (proj1 (proj2 (one_retry_per_card w 1 1 {| due := 5000; owner := 0 |}
                         {| due := 5000; owner := 0 |} Hr eq_refl eq_refl))).
Defined.

Lemma retry_round w c r :
  loadingAt c w →
  (∀ c' ph, tasks w !! c' = Some ph → (c' < next w)%nat) →
  let w' := run [LookupReply c Rejected; Tick 5000; Fire (next w) r] w in
  loadingAt (S (next w)) w'
  ∧ (∀ c' ph, tasks w' !! c' = Some ph → (c' < next w')%nat)
  ∧ next w' = S (S (next w))
  ∧ requests w' = requests w ++ [AyahByNumber (r + 1)]
  ∧ now w' = now w + 5000
  ∧ cards w' !! c = Some loadingCard.
Proof.
  intros (Hcon & Hm & Hk & Hcard) Hfresh. cbn zeta. unfold run. cbn [fold_left].
  assert (H1 : step (LookupReply c Rejected) w = scheduleRetry c (set_tasks (delete c) w)).
  { cbn [step]. by rewrite Hk. }
  rewrite H1. cbn [step advance timers scheduleRetry set_tasks next now].
  rewrite lookup_insert_eq. cbn [due owner].
  rewrite bool_decide_eq_true_2 by lia.
  unfold retryCallback, isConnected.
  cbn [connected mounted set_timers advance scheduleRetry set_tasks].
  rewrite Hcon, Hm, bool_decide_eq_true_2 by done.
  cbn [andb renderVerse]. unfold loadingAt.
  cbn [connected mounted tasks cards next requests now renderVerse set_timers advance
       scheduleRetry set_tasks].
  rewrite !lookup_insert_eq.
  pose proof (Hfresh _ _ Hk) as Hlt.
  split; [done|]. split.
  { intros c' ph Hc'. destruct (decide (S (next w) = c')) as [<-|Hne]; [lia|].
    rewrite lookup_insert_ne in Hc' by done.
    apply lookup_delete_Some in Hc' as [_ Hc']. pose proof (Hfresh _ _ Hc'). lia. }
  repeat split; try done; try lia.
  rewrite lookup_insert_ne by lia. done.
Qed.

(** X4.  While the lookup keeps being rejected, the card retries for
    ever, once every 5000 ms.  From a reachable world whose mounted card
    is loading, each round (rejection, five seconds, the timeout firing)
    issues exactly one request, for the reference drawn then plus one,
    and ends with a fresh mounted card that is loading again: after [n]
    rounds the clock has advanced by [5000 * n] and [n] lookups were
    added, in the order of the draws. *)
Theorem rejected_lookups_retry_every_five_seconds
    (w : World) (c : nat) (draws : list Z) :
  reachable w →
  loadingAt c w →
  let w' := run (retryEvents (next w) c draws) w in
  requests w' = requests w ++ ((λ r, AyahByNumber (r + 1)) <$> draws)
  ∧ now w' = now w + 5000 * Z.of_nat (length draws)
  ∧ ∃ c', loadingAt c' w'.
Proof.
  intros Hreach Hload. apply reachable_retryInv in Hreach as (_ & _ & _ & Hfresh).
  cbn zeta. revert w c Hload Hfresh.
  induction draws as [|r draws IH]; intros w c Hload Hfresh.
  - cbn. rewrite app_nil_r. split; [done|]. split; [lia|by exists c].
  - cbn [retryEvents].
    change (LookupReply c Rejected :: Tick 5000 :: Fire (next w) r
              :: retryEvents (S (S (next w))) (S (next w)) draws)
      with ([LookupReply c Rejected; Tick 5000; Fire (next w) r]
              ++ retryEvents (S (S (next w))) (S (next w)) draws).
    rewrite run_app.
    destruct (retry_round w c r Hload Hfresh) as (L & F & N & R & T & _).
    set (w1 := run [LookupReply c Rejected; Tick 5000; Fire (next w) r] w) in *.
    rewrite <- N. destruct (IH w1 (S (next w)) L F) as (R' & T' & E').
    rewrite R', T', R, T. split; [|split; [|done]].
    + cbn [fmap list_fmap]. by rewrite <- app_assoc.
    + cbn [length]. lia.
Qed.

Lemma rejected_lookups_retry_every_five_seconds_witness :
  let w := run (retryEvents 1 0 [6; 41]) (mount "en.itani" 499) in
  requests w = [AyahByNumber 500; AyahByNumber 7; AyahByNumber 42]
  ∧ now w = 10000.
Proof.
  intros w.
  assert (Hr : reachable (mount "en.itani" 499)).
  { exists "en.itani"%string, 499, []. reflexivity. }
  assert (Hl : loadingAt 0 (mount "en.itani" 499)) by (repeat split).
  pose proof (rejected_lookups_retry_every_five_seconds (mount "en.itani" 499) 0 [6; 41]
                Hr Hl) as (H1 & H2 & _).
  split; [exact H1|exact H2].
Defined.

End VerseCycleFacts.

Section SettledFacts.

Import ArabicDigits VerseFetcher VerseCycle.

Lemma settled_renderVerse r w c :
  settled c w →
  settled c (renderVerse r w) ∧ cards (renderVerse r w) !! c = cards w !! c.
Proof.
  intros [Hlt Hk]. unfold settled, renderVerse. cbn.
  rewrite !lookup_insert_ne by lia. split; [split; [lia|done]|done].
Qed.

Lemma settled_scheduleRetry c' w c :
  settled c w →
  settled c (scheduleRetry c' (set_tasks (delete c') w))
  ∧ cards (scheduleRetry c' (set_tasks (delete c') w)) !! c = cards w !! c.
Proof.
  intros [Hlt Hk]. unfold settled. cbn. split; [split; [lia|]|done].
  apply lookup_delete_None. by right.
Qed.

Lemma settled_unload w c :
  settled c w → settled c (unload w) ∧ cards (unload w) !! c = cards w !! c.
Proof.
  intros [Hlt Hk]. unfold unload, settled. destruct (loaded w); [|done].
  destruct (timers_foldr_clear (cleanups w) w) as (_ & Ht & Hc & _).
  cbn. rewrite Ht, Hc. repeat split; try done.
  clear -Hlt. induction (cleanups w) as [|x l IH]; [done|]. cbn. exact IH.
Qed.

Lemma settled_step e w c :
  settled c w → settled c (step e w) ∧ cards (step e w) !! c = cards w !! c.
Proof.
  intros Hs. pose proof Hs as [Hlt Hk]. destruct e; cbn [step].
  - done.
  - destruct (timers w !! t) as [tm|]; [|done]. case_bool_decide; [|done].
    unfold retryCallback. case_match; [|done].
    by apply (settled_renderVerse r (set_timers (delete t) w)).
  - destruct (tasks w !! c0) as [[]|] eqn:Hc; try done.
    assert (c0 ≠ c) as Hne by (intros ->; congruence).
    unfold onLookup, lookupBody.
    repeat case_match; simplify_eq/=; try by apply settled_scheduleRetry.
    unfold settled. cbn. by rewrite lookup_insert_ne.
  - destruct (tasks w !! c0) as [[]|] eqn:Hc; try done.
    assert (c0 ≠ c) as Hne by (intros ->; congruence).
    unfold onEditions, editionsBody, appendNode, removeSkeletons.
    repeat case_match; simplify_eq/=; try by apply settled_scheduleRetry.
    all: unfold settled; cbn; rewrite ?lookup_alter_ne by done;
      repeat split; try done; try lia; try (apply lookup_delete_None; by right).
  - case_match; [|done]. by apply settled_renderVerse.
  - by apply settled_unload.
  - done.
  - unfold teardown. destruct (settled_unload w c Hs) as [Hs' Hc'].
    split; [exact Hs'|exact Hc'].
Qed.

(** X22.  A container whose invocation has ended never changes again.
    Once a container exists and no invocation is suspended on it,
    whatever the event loop delivers afterwards (late or repeated replies
    addressed to it, timeouts, reload clicks, unloading, detaching) leaves
    its children as they are and never suspends an invocation on it
    again.  A verse on screen is never overwritten by a stale reply, and
    a failed card keeps its skeletons until the retry replaces it. *)
Theorem settled_card_never_changes (w : World) (c : nat) (es : list Event) :
  (c < next w)%nat →
  tasks w !! c = None →
  cards (run es w) !! c = cards w !! c
  ∧ tasks (run es w) !! c = None.
Proof.
  intros Hlt Hk.
  assert (settled c (run es w) ∧ cards (run es w) !! c = cards w !! c)
    as [[_ Hk'] Hc'].
  { induction es as [|e es IH] using rev_ind; [done|].
    rewrite run_snoc. destruct IH as [Hs Hc].
    destruct (settled_step e _ c Hs) as [Hs' Hc']. split; [done|]. by rewrite Hc'. }
  done.
Qed.

Lemma settled_card_never_changes_witness :
  let w := run [LookupReply 0 Rejected] (mount "en.itani" 499) in
  cards (run [Tick 5000; Fire 1 6; LookupReply 0 (Resolved (sampleJson 7));
              LookupReply 2 (Resolved (sampleJson 7))] w) !! 0%nat
  = Some loadingCard.
Proof.
  intros w.
  exact (proj1 (settled_card_never_changes w 0
           [Tick 5000; Fire 1 6; LookupReply 0 (Resolved (sampleJson 7));
            LookupReply 2 (Resolved (sampleJson 7))]
           ltac:(vm_compute; lia) eq_refl)).
Defined.

End SettledFacts.

(** ** The commentary button *)

Section CommentaryFacts.

Import JsValues Commentary.

Lemma findAyah_found ayahNum ayahs a :
  findAyah ayahNum ayahs = Some (Some a) ↔ firstMatch ayahNum ayahs a.
Proof.
  split.
  - induction ayahs as [|x l IH]; [done|]. cbn.
    destruct (isAyah ayahNum x) as [[|]|] eqn:E; [| |done].
    + intros [= ->]. exists [], l. by repeat split.
    + intros H. destruct (IH H) as (pre & post & -> & Ha & Hpre).
      exists (x :: pre), post. repeat split; [done|]. by constructor.
  - intros (pre & post & -> & Ha & Hpre).
    induction Hpre as [|x pre Hx _ IH]; cbn; [by rewrite Ha|by rewrite Hx].
Qed.

Lemma isAyah_true_truthy ayahNum a : isAyah ayahNum a = Some true → truthyValue a = true.
Proof. destruct a; cbn; try done. Qed.

Lemma added_emit b b' l : log b' = log b ++ l → added b b' = l.
Proof. intros H. unfold added. by rewrite H, drop_app_length. Qed.

(** X6.  Every click on the commentary button ends with the lightbulb
    icon back and the button enabled, whatever the reply.  With no tafsir
    edition configured nothing is requested and the only effect is the
    notice asking to select one; otherwise exactly one request is made,
    for the configured edition and the surah of the verse, followed by
    exactly one modal or notice. *)
Theorem commentary_click_gives_one_feedback
    (tafsir name : string) (arData : VerseFetcher.AyahData) (rep : Reply) (b : Button) :
  let b' := handleClick tafsir name arData rep b in
  let surahNum := VerseFetcher.surah_number (VerseFetcher.surah arData) in
  icon b' = Lightbulb ∧ disabled b' = false
  ∧ (if MetadataResolver.truthy tafsir
     then ∃ e, added b b' = [Requested tafsir surahNum; e]
               ∧ match e with Requested _ _ => False | _ => True end
     else added b b' = [Noticed (VerseFetcher.units
            "No tafsir edition selected. Please select one in plugin settings.")]).
Proof.
  cbn zeta. unfold handleClick, tryBody. split; [done|]. split; [done|].
  destruct (MetadataResolver.truthy tafsir); cbn [negb].
  - destruct rep as [|json]; [eexists; split; [by apply added_emit; cbn; rewrite <- app_assoc|done]|].
    destruct (ayahsOf json) as [ayahs|];
      [|eexists; split; [by apply added_emit; cbn; rewrite <- app_assoc|done]].
    destruct (findAyah _ ayahs) as [[a|]|];
      [destruct (truthyValue a)| |];
      (eexists; split; [by apply added_emit; cbn; rewrite <- app_assoc|done]).
  - by apply added_emit.
Qed.

(** X7.  The modal opens exactly when a tafsir edition is configured, the
    reply is an object whose [ayahs] is an array, and that array has an
    entry whose [ayah] is the verse number with no [null] entry before
    it.  It then shows the first such entry, under the tafsir name
    configured when the reply arrived. *)
Theorem commentary_modal_shows_first_matching_ayah
    (tafsir name : string) (arData : VerseFetcher.AyahData) (rep : Reply) (b : Button)
    (m : TafsirModal) :
  let b' := handleClick tafsir name arData rep b in
  Opened m ∈ added b b'
  ↔ MetadataResolver.truthy tafsir = true
    ∧ tafsirName m = name
    ∧ ∃ json ayahs, rep = Resolved json ∧ ayahsOf json = Some ayahs
        ∧ firstMatch (VerseFetcher.numberInSurah arData) ayahs (tafsirAyahData m).
Proof.
  cbn zeta. unfold handleClick, tryBody.
  destruct (MetadataResolver.truthy tafsir) eqn:Ht; cbn [negb].
  2:{ rewrite (added_emit _ _ [Noticed (VerseFetcher.units
        "No tafsir edition selected. Please select one in plugin settings.")]) by done.
      split; [|by intros [? _]].
      intros H. apply list_elem_of_singleton in H. done. }
  set (surahNum := VerseFetcher.surah_number (VerseFetcher.surah arData)).
  set (ayahNum := VerseFetcher.numberInSurah arData).
  assert (Hfail : ∀ msg,
    Opened m ∈ [Requested tafsir surahNum; Noticed msg] → False).
  { intros msg H. apply elem_of_cons in H as [H|H]; [done|].
    apply list_elem_of_singleton in H. done. }
  destruct rep as [|json].
  { rewrite (added_emit _ _ [Requested tafsir surahNum; Noticed (VerseFetcher.units
      "Failed to load commentary. Check if a valid tafsir edition is selected.")])
      by (cbn; by rewrite <- app_assoc).
    split; [intros H; by apply Hfail in H|]. by intros (_ & _ & ? & ? & ? & _). }
  destruct (ayahsOf json) as [ayahs|] eqn:Ea.
  2:{ rewrite (added_emit _ _ [Requested tafsir surahNum; Noticed (VerseFetcher.units
        "Failed to load commentary. Check if a valid tafsir edition is selected.")])
        by (cbn; by rewrite <- app_assoc).
      split; [intros H; by apply Hfail in H|].
      intros (_ & _ & j & l & [= <-] & Hj & _). by rewrite Ea in Hj. }
  destruct (findAyah ayahNum ayahs) as [[a|]|] eqn:Ef.
  - apply findAyah_found in Ef as Hfm.
    destruct Hfm as (pre & post & Hsplit & Ha & Hpre).
    rewrite (isAyah_true_truthy _ _ Ha).
    rewrite (added_emit _ _ [Requested tafsir surahNum;
      Opened {| tafsirAyahData := a; tafsirName := name |}])
      by (cbn; by rewrite <- app_assoc).
    split.
    + intros H. apply elem_of_cons in H as [H|H]; [done|].
      apply list_elem_of_singleton in H. injection H as ->. cbn.
      repeat split. exists json, ayahs. repeat split; try done.
      by apply findAyah_found.
    + intros (_ & Hname & j & l & [= <-] & Hj & Hfm).
      rewrite Ea in Hj. injection Hj as <-.
      apply findAyah_found in Hfm. rewrite Ef in Hfm. injection Hfm as Hd.
      destruct m as [d nm]. cbn in Hname, Hd. subst nm d. right. left.
  - rewrite (added_emit _ _ [Requested tafsir surahNum; Noticed (notFound ayahNum surahNum)])
      by (cbn; by rewrite <- app_assoc).
    split; [intros H; by apply Hfail in H|].
    intros (_ & _ & j & l & [= <-] & Hj & Hfm).
    rewrite Ea in Hj. injection Hj as <-.
    apply findAyah_found in Hfm. by rewrite Ef in Hfm.
  - rewrite (added_emit _ _ [Requested tafsir surahNum; Noticed (VerseFetcher.units
      "Failed to load commentary. Check if a valid tafsir edition is selected.")])
      by (cbn; by rewrite <- app_assoc).
    split; [intros H; by apply Hfail in H|].
    intros (_ & _ & j & l & [= <-] & Hj & Hfm).
    rewrite Ea in Hj. injection Hj as <-.
    apply findAyah_found in Hfm. by rewrite Ef in Hfm.
Qed.

End CommentaryFacts.

(** ** Calls, notices and dropdowns of the settings panel *)

Section SettingsPanelFacts.

Import MetadataResolver SettingsPanel.

Variable displayNames : option (string → IntlResult).
Variable localeCompare : string → string → Z.
Variable engineSort : list Language.t → option (list Language.t).

Ltac run_M :=
  unfold mbind, M_bind, mret, M_ret, gets, modify, saveSettings, notice, throw,
    tryCatch, tryFinally, requestUrl.

Lemma refresh_without_languages net t :
  isLoadingMetadata t = false →
  noLanguages (net GetLanguages) →
  fetchMetadata displayNames localeCompare engineSort net t
  = Normal tt (displayed (set_isLoadingMetadata false
      (emit (Noticed "An unexpected error occurred. Please check the console for details.")
        (emit (Noticed "Failed to fetch languages. Check your internet connection.")
          (emit (Requested GetLanguages) (set_isLoadingMetadata true t)))))).
Proof.
  intros Hf Hn. rewrite fetchMetadata_run, Hf, refreshBody_run, fetchLanguages_run.
  cbn zeta. by destruct (net GetLanguages) as [|[]].
Qed.

Lemma refresh_without_editions net lr langs t :
  isLoadingMetadata t = false →
  net GetLanguages = Resolved (JLanguages lr) →
  sortLanguages localeCompare engineSort (mappedLanguages displayNames lr) = Some langs →
  noEditions (net (GetEditions (QuranSettings.language (settings t)))) →
  fetchMetadata displayNames localeCompare engineSort net t
  = Normal tt (displayed (set_isLoadingMetadata false
      (emit (Noticed "An unexpected error occurred. Please check the console for details.")
        (emit (Noticed "Failed to fetch translations. Check your internet connection.")
          (emit (Requested (GetEditions (QuranSettings.language (settings t))))
            (set_languages langs
              (emit (Requested GetLanguages) (set_isLoadingMetadata true t)))))))).
Proof.
  intros Hf Hl Hs Hn. rewrite fetchMetadata_run, Hf, refreshBody_run, fetchLanguages_run.
  cbn zeta. rewrite Hl, Hs, fetchTranslationEditions_run. cbn zeta.
  cbn [settings set_languages emit set_isLoadingMetadata].
  by destruct (net (GetEditions _)) as [|[]].
Qed.

Lemma refresh_without_tafsirs net lr langs er t :
  isLoadingMetadata t = false →
  net GetLanguages = Resolved (JLanguages lr) →
  sortLanguages localeCompare engineSort (mappedLanguages displayNames lr) = Some langs →
  net (GetEditions (QuranSettings.language (settings t))) = Resolved (JEditions er) →
  noTafsirs (net GetTafsirEditions) →
  fetchMetadata displayNames localeCompare engineSort net t
  = Normal tt (displayed (set_isLoadingMetadata false
      (emit (Noticed "An unexpected error occurred. Please check the console for details.")
        (emit (Noticed "Failed to fetch tafsir editions. Check your internet connection.")
          (emit (Requested GetTafsirEditions) (fetchedCatalogs langs er t)))))).
Proof.
  intros Hf Hl Hs He Hn. rewrite fetchMetadata_run, Hf, refreshBody_run, fetchLanguages_run.
  cbn zeta. rewrite Hl, Hs, fetchTranslationEditions_run. cbn zeta.
  cbn [settings set_languages emit set_isLoadingMetadata]. rewrite He.
  rewrite fetchAndProcessTafsirs_run. cbn zeta.
  by destruct (net GetTafsirEditions) as [|[]].
Qed.

Lemma locally_refl t : locally t t.
Proof. exists []. by rewrite app_nil_r. Qed.

Lemma locally_trans t1 t2 t3 : locally t1 t2 → locally t2 t3 → locally t1 t3.
Proof.
  intros (p & A & HA) (q & B & HB). exists (p ++ q).
  rewrite B, A, app_assoc. split; [done|]. by apply Forall_app.
Qed.

Lemma locally_emit e t t' :
  isLocal e = true → log t' = log t ++ [e] → locally t t'.
Proof. intros He Hl. exists [e]. split; [done|]. by constructor. Qed.

Ltac local_emit := eapply locally_emit; [|cbn; reflexivity]; reflexivity.
Ltac local_same := exists []; split; [cbn; by rewrite app_nil_r|constructor].

Lemma reconciled_locally t : locally t (reconciled t).
Proof. unfold reconciled. destruct (existsb _ _); [apply locally_refl|local_emit]. Qed.

Lemma selected_locally t : locally t (selected t).
Proof.
  unfold selected, chooseFirst, cleared.
  destruct (tafsirEditions t); [|destruct (_ || _)]; first [local_emit|local_same].
Qed.

Lemma displayed_locally t : locally t (displayed t).
Proof.
  assert (locally t (emit Displayed t)) as H0 by local_emit.
  unfold displayed, chooseFirst, cleared.
  destruct (tafsirEditions t); [destruct (truthy _)|destruct (_ || _)]; try done;
    (eapply locally_trans; [exact H0|]; local_emit).
Qed.

Lemma requestsOf_app l1 l2 : requestsOf (l1 ++ l2) = requestsOf l1 ++ requestsOf l2.
Proof. unfold requestsOf. apply omap_app. Qed.

Lemma requestsOf_local l : Forall (λ e, isLocal e = true) l → requestsOf l = [].
Proof.
  induction 1 as [|e l He _ IH]; [done|]. unfold requestsOf in *. cbn.
  destruct e; try done.
Qed.

Lemma requestsOf_cons q l : requestsOf (Requested q :: l) = q :: requestsOf l.
Proof. reflexivity. Qed.

Lemma noticesOf_app l1 l2 : noticesOf (l1 ++ l2) = noticesOf l1 ++ noticesOf l2.
Proof. unfold noticesOf. apply omap_app. Qed.

Lemma noticesOf_local l : Forall (λ e, isLocal e = true) l → noticesOf l = [].
Proof.
  induction 1 as [|e l He _ IH]; [done|]. unfold noticesOf in *. cbn.
  destruct e; try done.
Qed.

Lemma added_app t t' post : log t' = log t ++ post → added t t' = post.
Proof. intros H. unfold added. by rewrite H, drop_app_length. Qed.

(** The effects of a refresh are those of its [try] block followed by
    local ones. *)
Lemma added_after_display t c pre :
  log c = log t ++ pre →
  ∃ post, added t (displayed (set_isLoadingMetadata false c)) = pre ++ post
          ∧ Forall (λ e, isLocal e = true) post.
Proof.
  intros Hc. destruct (displayed_locally (set_isLoadingMetadata false c)) as (post & L & HL).
  exists post. split; [|done]. apply added_app. rewrite L. cbn. by rewrite Hc, app_assoc.
Qed.

Lemma processed_log tl l t :
  ∃ post, log (processed displayNames tl l t)
          = log t ++ Requested GetTafsirEditions :: post
          ∧ Forall (λ e, isLocal e = true) post.
Proof.
  unfold processed.
  match goal with |- context [selected ?x] =>
    destruct (selected_locally x) as (p1 & L1 & H1) end.
  unfold filtered in L1 at 2. cbn [log set_tafsirEditions] in L1.
  match type of L1 with context [reconciled ?x] =>
    destruct (reconciled_locally x) as (p2 & L2 & H2) end.
  cbn in L2. exists (p2 ++ p1). rewrite L1, L2.
  split; [by rewrite <- !app_assoc|]. by apply Forall_app.
Qed.

(** *** Calls and notices, step by step *)

Lemma adds_trans rs1 ns1 rs2 ns2 t1 t2 t3 :
  adds rs1 ns1 t1 t2 → adds rs2 ns2 t2 t3 → adds (rs1 ++ rs2) (ns1 ++ ns2) t1 t3.
Proof.
  intros (p & A & A1 & A2) (q & B & B1 & B2). exists (p ++ q).
  rewrite B, A, app_assoc, requestsOf_app, noticesOf_app, A1, A2, B1, B2. done.
Qed.

Lemma adds_locally t t' : locally t t' → adds [] [] t t'.
Proof.
  intros (p & A & HA). exists p.
  by rewrite (requestsOf_local p), (noticesOf_local p).
Qed.

Lemma adds_added rs ns t t' :
  adds rs ns t t' → requestsOf (added t t') = rs ∧ noticesOf (added t t') = ns.
Proof. intros (p & A & A1 & A2). by rewrite (added_app t t' p A). Qed.

Lemma adds_emit_notice m t : adds [] [m] t (emit (Noticed m) t).
Proof. by exists [Noticed m]. Qed.

Lemma adds_emit_request q t : adds [q] [] t (emit (Requested q) t).
Proof. by exists [Requested q]. Qed.

Lemma fetchLanguages_adds net t :
  let c := fetchLanguages displayNames localeCompare engineSort net t in
  adds [GetLanguages]
    (if threw c then ["Failed to fetch languages. Check your internet connection."%string]
     else []) t (tabOf c).
Proof.
  cbn zeta. rewrite fetchLanguages_run. cbn zeta.
  destruct (net GetLanguages) as [|[lr| | |]]; [|destruct (sortLanguages _ _ _)| | |];
    cbn [threw tabOf].
  2:{ by exists [Requested GetLanguages]. }
  all: eexists; split; [cbn; rewrite <- ?app_assoc; reflexivity|done].
Qed.

Lemma fetchTranslationEditions_adds net t :
  let c := fetchTranslationEditions net t in
  adds [GetEditions (QuranSettings.language (settings t))]
    (if threw c then ["Failed to fetch translations. Check your internet connection."%string]
     else []) t (tabOf c).
Proof.
  cbn zeta. rewrite fetchTranslationEditions_run. cbn zeta.
  destruct (net _) as [|[|er| |]]; cbn [threw tabOf].
  3:{ by eexists [Requested _]. }
  all: eexists; split; [cbn; rewrite <- ?app_assoc; reflexivity|done].
Qed.

Lemma fetchAndProcessTafsirs_adds net t :
  let c := fetchAndProcessTafsirs displayNames localeCompare engineSort net t in
  adds [GetTafsirEditions]
    (if threw c then ["Failed to fetch tafsir editions. Check your internet connection."%string]
     else []) t (tabOf c).
Proof.
  cbn zeta. rewrite fetchAndProcessTafsirs_run. cbn zeta.
  assert (Hfail : adds [GetTafsirEditions]
            ["Failed to fetch tafsir editions. Check your internet connection."%string] t
            (emit (Noticed "Failed to fetch tafsir editions. Check your internet connection.")
               (emit (Requested GetTafsirEditions) t))).
  { eexists; split; [cbn; rewrite <- ?app_assoc; reflexivity|done]. }
  destruct (net GetTafsirEditions) as [|[| |l|]]; try exact Hfail.
  destruct (tafsirCatalogLanguages _ _ _ _) as [tl|]; [|exact Hfail].
  destruct (filterRaises _ _ _); cbn [threw tabOf].
  - apply (adds_trans [GetTafsirEditions] [] [] [_] t
             (reconciled (set_tafsirLanguages tl (emit (Requested GetTafsirEditions) t))));
      [|apply adds_emit_notice].
    apply (adds_trans [GetTafsirEditions] [] [] [] t
             (set_tafsirLanguages tl (emit (Requested GetTafsirEditions) t)));
      [by exists [Requested GetTafsirEditions]|].
    apply adds_locally, reconciled_locally.
  - destruct (processed_log tl l t) as (p & L & HL).
    exists (Requested GetTafsirEditions :: p). split; [done|].
    rewrite requestsOf_cons, (requestsOf_local p HL).
    split; [done|]. change (noticesOf (?e :: p)) with (noticesOf p).
    by rewrite (noticesOf_local p HL).
Qed.

(** The calls and notices of a refresh, by the fetch that raises. *)
Lemma refresh_adds net t :
  isLoadingMetadata t = false →
  let lang := QuranSettings.language (settings t) in
  let general := "An unexpected error occurred. Please check the console for details."%string in
  adds
    (if languagesRaise displayNames localeCompare engineSort net t then [GetLanguages]
     else if editionsRaise displayNames localeCompare engineSort net t
          then [GetLanguages; GetEditions lang]
          else [GetLanguages; GetEditions lang; GetTafsirEditions])
    (if languagesRaise displayNames localeCompare engineSort net t
     then ["Failed to fetch languages. Check your internet connection."%string; general]
     else if editionsRaise displayNames localeCompare engineSort net t
          then ["Failed to fetch translations. Check your internet connection."%string; general]
          else if tafsirsRaise displayNames localeCompare engineSort net t
               then ["Failed to fetch tafsir editions. Check your internet connection."%string;
                     general]
               else [])
    t (tabOf (fetchMetadata displayNames localeCompare engineSort net t)).
Proof.
  intros Hf. cbn zeta. rewrite fetchMetadata_run, Hf, refreshBody_run. cbn [tabOf].
  unfold languagesRaise, editionsRaise, tafsirsRaise, atTafsirs, atEditions, atLanguages.
  set (t0 := set_isLoadingMetadata true t).
  pose proof (fetchLanguages_adds net t0) as A1. cbn zeta in A1.
  destruct (fetchLanguages_keeps displayNames localeCompare engineSort net t0) as (K1 & _).
  assert (A0 : adds [] [] t t0) by (by exists []; rewrite app_nil_r).
  assert (Hend : ∀ rs ns c, adds rs ns t0 c →
            adds rs ns t (displayed (set_isLoadingMetadata false c))).
  { intros rs ns c Hc.
    pose proof (adds_trans _ _ _ _ _ _ _ A0 Hc) as H1. cbn [app] in H1.
    assert (A2 : adds [] [] c (displayed (set_isLoadingMetadata false c))).
    { destruct (displayed_locally (set_isLoadingMetadata false c)) as (p & L & HL).
      exists p. by rewrite (requestsOf_local p), (noticesOf_local p). }
    pose proof (adds_trans _ _ _ _ _ _ _ H1 A2) as H2.
    by rewrite !app_nil_r in H2. }
  destruct (fetchLanguages _ _ _ _ _) as [[] t1|t1]; cbn [threw tabOf] in *.
  2:{ apply Hend.
      apply (adds_trans [GetLanguages] [_] [] [_] t0 t1 _ A1), adds_emit_notice. }
  pose proof (fetchTranslationEditions_adds net t1) as A2. cbn zeta in A2.
  rewrite K1 in A2. change (settings t0) with (settings t) in A2.
  destruct (fetchTranslationEditions _ _) as [[] t2|t2]; cbn [threw tabOf] in *.
  2:{ apply Hend.
      pose proof (adds_trans _ _ _ _ _ _ _ A1 A2) as A12.
      apply (adds_trans _ _ [] [_] t0 t2 _ A12), adds_emit_notice. }
  pose proof (fetchAndProcessTafsirs_adds net t2) as A3. cbn zeta in A3.
  pose proof (adds_trans _ _ _ _ _ _ _ (adds_trans _ _ _ _ _ _ _ A1 A2) A3) as A123.
  destruct (fetchAndProcessTafsirs _ _ _ _ _) as [[] t3|t3]; cbn [threw tabOf] in *.
  - by apply Hend.
  - apply Hend. apply (adds_trans _ _ [] [_] t0 t3 _ A123), adds_emit_notice.
Qed.

Lemma languagesRaise_iff net t :
  languagesRaise displayNames localeCompare engineSort net t = true
  ↔ noLanguages (net GetLanguages)
    ∨ ∃ lr, net GetLanguages = Resolved (JLanguages lr)
            ∧ sortLanguages localeCompare engineSort (mappedLanguages displayNames lr) = None.
Proof.
  unfold languagesRaise. rewrite fetchLanguages_run. cbn zeta.
  destruct (net GetLanguages) as [|[lr| | |]] eqn:E; cbn; try (split; [by left|done]).
  destruct (sortLanguages _ _ _) eqn:Es; cbn.
  - split; [done|]. intros [[]|(lr' & [= <-] & H)]. congruence.
  - split; [|done]. intros _. right. by exists lr.
Qed.

Lemma editionsRaise_iff net t :
  editionsRaise displayNames localeCompare engineSort net t = true
  ↔ noEditions (net (GetEditions (QuranSettings.language (settings t)))).
Proof.
  unfold editionsRaise, atEditions, atLanguages. rewrite fetchTranslationEditions_run.
  cbn zeta.
  destruct (fetchLanguages_keeps displayNames localeCompare engineSort net
              (set_isLoadingMetadata true t)) as (K1 & _).
  rewrite K1. cbn [settings set_isLoadingMetadata].
  by destruct (net (GetEditions _)) as [|[|er| |]].
Qed.

(** X8.  A refresh that finds the busy flag clear calls the language
    list, the editions of the configured translation language and the
    tafsir index, in this order, and stops at the first fetch that
    raises: the calls it makes are a prefix of these three, cut right
    after the fetch that raised.  The fetch of the languages raises when
    its call is rejected, when its body fails the type guard, or when
    sorting the languages raises; the fetch of the editions raises
    exactly when its call is rejected or its body fails the guard. *)
Theorem refresh_calls_stop_at_first_failure (net : Request → Reply) (t : Tab) :
  isLoadingMetadata t = false →
  let t' := tabOf (fetchMetadata displayNames localeCompare engineSort net t) in
  let lang := QuranSettings.language (settings t) in
  let calls := requestsOf (added t t') in
  let languagesFail := languagesRaise displayNames localeCompare engineSort net t in
  let editionsFail := editionsRaise displayNames localeCompare engineSort net t in
  calls `prefix_of` [GetLanguages; GetEditions lang; GetTafsirEditions]
  ∧ (languagesFail = true → calls = [GetLanguages])
  ∧ (languagesFail = false → editionsFail = true →
     calls = [GetLanguages; GetEditions lang])
  ∧ (languagesFail = false → editionsFail = false →
     calls = [GetLanguages; GetEditions lang; GetTafsirEditions])
  ∧ (languagesFail = true
     ↔ noLanguages (net GetLanguages)
       ∨ ∃ lr, net GetLanguages = Resolved (JLanguages lr)
               ∧ sortLanguages localeCompare engineSort (mappedLanguages displayNames lr)
                 = None)
  ∧ (editionsFail = true ↔ noEditions (net (GetEditions lang))).
Proof.
  intros Hf. cbn zeta.
  destruct (adds_added _ _ _ _ (refresh_adds net t Hf)) as (-> & _).
  split.
  { destruct (languagesRaise _ _ _ _ _); [by eexists|].
    destruct (editionsRaise _ _ _ _ _); [by eexists|done]. }
  split; [by intros ->|]. split; [by intros -> ->|]. split; [by intros -> ->|].
  split; [apply languagesRaise_iff|apply editionsRaise_iff].
Qed.

(** X9.  A refresh that fails keeps the catalogs it did not reach and
    replaces those it fetched before the failure: none when the language
    list is rejected or fails its guard, [languages] (by the sorted list
    of the response) when the translation editions fail, [languages] and
    [editions] when the tafsir index fails (the configured tafsir
    language is then kept too).  When it is the sort of the languages
    that raises, [languages] holds the codes of the response, in some
    order, and the other catalogs are kept.  In each case exactly two notices are
    shown, the one of the failed fetch followed by the general one. *)
Theorem failed_refresh_keeps_unfetched_catalogs
    (net : Request → Reply) (t : Tab) :
  isLoadingMetadata t = false →
  let t' := tabOf (fetchMetadata displayNames localeCompare engineSort net t) in
  let lang := QuranSettings.language (settings t) in
  let sorted lr := sortLanguages localeCompare engineSort (mappedLanguages displayNames lr) in
  (noLanguages (net GetLanguages) →
     languages t' = languages t ∧ editions t' = editions t
     ∧ tafsirLanguages t' = tafsirLanguages t ∧ tafsirEditions t' = tafsirEditions t
     ∧ noticesOf (added t t')
       = ["Failed to fetch languages. Check your internet connection.";
          "An unexpected error occurred. Please check the console for details."]%string)
  ∧ (∀ lr, net GetLanguages = Resolved (JLanguages lr) → sorted lr = None →
     Language.code <$> languages t' ≡ₚ lr_data lr
     ∧ editions t' = editions t
     ∧ tafsirLanguages t' = tafsirLanguages t ∧ tafsirEditions t' = tafsirEditions t
     ∧ noticesOf (added t t')
       = ["Failed to fetch languages. Check your internet connection.";
          "An unexpected error occurred. Please check the console for details."]%string)
  ∧ (∀ lr langs, net GetLanguages = Resolved (JLanguages lr) → sorted lr = Some langs →
     noEditions (net (GetEditions lang)) →
     languages t' = langs
     ∧ editions t' = editions t
     ∧ tafsirLanguages t' = tafsirLanguages t ∧ tafsirEditions t' = tafsirEditions t
     ∧ noticesOf (added t t')
       = ["Failed to fetch translations. Check your internet connection.";
          "An unexpected error occurred. Please check the console for details."]%string)
  ∧ (∀ lr langs er, net GetLanguages = Resolved (JLanguages lr) → sorted lr = Some langs →
     net (GetEditions lang) = Resolved (JEditions er) →
     noTafsirs (net GetTafsirEditions) →
     languages t' = langs
     ∧ editions t' = filter (λ e, isTextTranslation e = true) (er_data er)
     ∧ tafsirLanguages t' = tafsirLanguages t ∧ tafsirEditions t' = tafsirEditions t
     ∧ QuranSettings.tafsirLanguage (settings t') = QuranSettings.tafsirLanguage (settings t)
     ∧ noticesOf (added t t')
       = ["Failed to fetch tafsir editions. Check your internet connection.";
          "An unexpected error occurred. Please check the console for details."]%string).
Proof.
  intros Hf. cbn zeta. split; [|split; [|split]].
  - intros Hn. rewrite (refresh_without_languages net) by done. cbn [tabOf].
    match goal with |- context [displayed (set_isLoadingMetadata false ?x)] =>
      destruct (displayed_catalog (set_isLoadingMetadata false x)) as (D1 & D2 & D3 & D4 & _);
      destruct (added_after_display t x
        [Requested GetLanguages;
         Noticed "Failed to fetch languages. Check your internet connection.";
         Noticed "An unexpected error occurred. Please check the console for details."])
        as (q & Hq & HQ); [cbn; by rewrite <- !app_assoc|]
    end.
    rewrite D1, D2, D3, D4, Hq. repeat split; try done.
    by rewrite noticesOf_app, (noticesOf_local q).
  - intros lr Hl Hs.
    rewrite fetchMetadata_run, Hf, refreshBody_run, fetchLanguages_run. cbn zeta.
    rewrite Hl, Hs. cbn [tabOf].
    match goal with |- context [displayed (set_isLoadingMetadata false ?x)] =>
      destruct (displayed_catalog (set_isLoadingMetadata false x)) as (D1 & D2 & D3 & D4 & _);
      destruct (added_after_display t x
        [Requested GetLanguages;
         Noticed "Failed to fetch languages. Check your internet connection.";
         Noticed "An unexpected error occurred. Please check the console for details."])
        as (q & Hq & HQ); [cbn; by rewrite <- !app_assoc|]
    end.
    rewrite D1, D2, D3, D4, Hq.
    split.
    { cbn [languages emit set_languages set_isLoadingMetadata]. unfold mappedLanguages.
      rewrite <- list_fmap_compose. induction (lr_data lr) as [|c l IH]; [done|].
      cbn. by f_equiv. }
    repeat split; try done.
    by rewrite noticesOf_app, (noticesOf_local q).
  - intros lr langs Hl Hs Hn. rewrite (refresh_without_editions net lr langs) by done.
    cbn [tabOf].
    match goal with |- context [displayed (set_isLoadingMetadata false ?x)] =>
      destruct (displayed_catalog (set_isLoadingMetadata false x)) as (D1 & D2 & D3 & D4 & _);
      destruct (added_after_display t x
        [Requested GetLanguages;
         Requested (GetEditions (QuranSettings.language (settings t)));
         Noticed "Failed to fetch translations. Check your internet connection.";
         Noticed "An unexpected error occurred. Please check the console for details."])
        as (q & Hq & HQ); [cbn; by rewrite <- !app_assoc|]
    end.
    rewrite D1, D2, D3, D4, Hq. repeat split; try done.
    by rewrite noticesOf_app, (noticesOf_local q).
  - intros lr langs er Hl Hs He Hn.
    rewrite (refresh_without_tafsirs net lr langs er) by done. cbn [tabOf].
    match goal with |- context [displayed (set_isLoadingMetadata false ?x)] =>
      destruct (displayed_catalog (set_isLoadingMetadata false x)) as (D1 & D2 & D3 & D4 & D5 & _);
      destruct (added_after_display t x
        [Requested GetLanguages;
         Requested (GetEditions (QuranSettings.language (settings t)));
         Requested GetTafsirEditions;
         Noticed "Failed to fetch tafsir editions. Check your internet connection.";
         Noticed "An unexpected error occurred. Please check the console for details."])
        as (q & Hq & HQ); [cbn; by rewrite <- !app_assoc|]
    end.
    rewrite D1, D2, D3, D4, D5, Hq.
    repeat split; try done.
    by rewrite noticesOf_app, (noticesOf_local q).
Qed.

Lemma displayed_empty_catalog t :
  tafsirEditions t = [] →
  QuranSettings.tafsir (settings (displayed t)) = String.EmptyString
  ∧ (truthy (QuranSettings.tafsir (settings t)) = true →
     QuranSettings.tafsirName (settings (displayed t)) = String.EmptyString
     ∧ stored (displayed t) = settings (displayed t)).
Proof.
  intros E. unfold displayed. rewrite E.
  destruct (truthy _) eqn:Ht; cbn; [done|]. split; [|done].
  unfold truthy in Ht. apply negb_false_iff, bool_decide_eq_true in Ht. done.
Qed.

(** X10.  Whatever the network does, a refresh that passes the busy test
    and ends with an empty tafsir catalog ends with an empty tafsir id;
    if an id was configured before, the tafsir name is emptied too and
    the change is on disk.  This includes a refresh all of whose calls
    are rejected, started before any tafsir catalog was fetched. *)
Theorem empty_tafsir_catalog_erases_selection (net : Request → Reply) (t : Tab) :
  isLoadingMetadata t = false →
  let t' := tabOf (fetchMetadata displayNames localeCompare engineSort net t) in
  tafsirEditions t' = [] →
  QuranSettings.tafsir (settings t') = String.EmptyString
  ∧ (truthy (QuranSettings.tafsir (settings t)) = true →
     QuranSettings.tafsirName (settings t') = String.EmptyString
     ∧ stored t' = settings t').
Proof.
  intros Hf. cbn zeta.
  destruct (threw (refreshBody displayNames localeCompare engineSort net
                     (set_isLoadingMetadata true t))) eqn:Hthrew.
  - rewrite fetchMetadata_run, Hf. cbn [tabOf].
    destruct (refreshBody_raised displayNames localeCompare engineSort net
                (set_isLoadingMetadata true t) Hthrew) as (_ & B2 & _).
    set (c := match refreshBody _ _ _ _ _ with Normal _ c => c | Thrown c => emit _ c end).
    assert (Hc : QuranSettings.tafsir (settings c) = QuranSettings.tafsir (settings t)).
    { subst c. by destruct (refreshBody _ _ _ _ _). }
    clearbody c. intros He.
    destruct (displayed_catalog (set_isLoadingMetadata false c)) as (_ & _ & _ & D4 & _).
    rewrite D4 in He.
    destruct (displayed_empty_catalog (set_isLoadingMetadata false c) He) as (A & B).
    split; [done|]. intros Ht. apply B. cbn [settings set_isLoadingMetadata]. by rewrite Hc.
  - destruct (fetchMetadata_normal displayNames localeCompare engineSort net t Hf Hthrew)
      as (lr & langs & er & l & tl & _ & _ & _ & _ & _ & _ & ->).
    cbn [tabOf]. unfold refreshed, processed.
    set (t4 := filtered displayNames l _).
    intros He.
    destruct (displayed_catalog (set_isLoadingMetadata false (selected t4)))
      as (_ & _ & _ & D4 & _).
    destruct (selected_catalog t4) as (_ & _ & _ & S4 & _).
    assert (E4 : tafsirEditions t4 = []).
    { rewrite <- S4. rewrite D4 in He. exact He. }
    assert (Hsel : selected t4 = cleared t4) by (unfold selected; by rewrite E4).
    rewrite Hsel, (displayed_cleared false t4 E4).
    destruct (cleared_fields t4) as (F1 & F2 & F3 & _).
    cbn [settings stored emit set_isLoadingMetadata]. done.
Qed.

(** X11.  After [fetchLanguages] on a response none of whose codes is,
    up to case, [constructor] or [__proto__]: the fetch does not raise,
    [languages] holds the codes of the response, each exactly as often
    as the response lists it, every entry is named by
    [getFullLanguageName] of its code, the name being a string, and, the
    comparison being total, the entries are in the order of their
    names. *)
Theorem fetched_languages_listed_once_in_name_order
    (net : Request → Reply) (lr : LanguageResponse) (t : Tab) :
  (∀ a b, localeCompare a b ≤ 0 ∨ localeCompare b a ≤ 0) →
  net GetLanguages = Resolved (JLanguages lr) →
  (∀ c, c ∈ lr_data lr → toLowerCase c ∉ inheritedLower) →
  let c := fetchLanguages displayNames localeCompare engineSort net t in
  let t' := tabOf c in
  threw c = false
  ∧ Language.code <$> languages t' ≡ₚ lr_data lr
  ∧ namedBy displayNames (languages t')
  ∧ textNamed (languages t')
  ∧ Sorted (nameLe localeCompare) (languages t').
Proof.
  intros Htot Hn Hcodes. cbn zeta.
  assert (Htext : textNamed (mappedLanguages displayNames lr)).
  { unfold textNamed, mappedLanguages. apply Forall_fmap, Forall_forall.
    intros c Hc. cbn. rewrite getFullLanguageName_isText.
    apply negb_true_iff, bool_decide_eq_false_2. by apply Hcodes. }
  rewrite fetchLanguages_run. cbn zeta.
  rewrite Hn, (sortLanguages_text localeCompare engineSort _ Htext).
  cbn [tabOf threw languages set_languages]. split; [done|]. split; [|split; [|split]].
  - rewrite sortByName_perm. unfold mappedLanguages. rewrite <- list_fmap_compose.
    induction (lr_data lr) as [|c l IH]; [done|]. cbn. f_equiv. apply IH.
    intros c' Hc'. apply Hcodes. by right.
  - intros lang Hin. rewrite sortByName_perm in Hin.
    apply list_elem_of_fmap in Hin as (c & -> & _). done.
  - by apply sortByName_text.
  - by apply sortByName_sorted.
Qed.

Lemma unique_acc l acc :
  NoDup acc →
  let r := fold_left (λ acc x, if decide (x ∈ acc) then acc else acc ++ [x]) l acc in
  NoDup r ∧ ∀ x : string, x ∈ r ↔ x ∈ acc ∨ x ∈ l.
Proof.
  revert acc. induction l as [|y l IH]; intros acc Hacc; cbn.
  - split; [done|]. intros x. split; [by left|].
    intros [H|H]; [done|]. by apply elem_of_nil in H.
  - destruct (decide (y ∈ acc)) as [Hy|Hy].
    + destruct (IH acc Hacc) as (N & E). split; [done|]. intros x.
      rewrite E, elem_of_cons. split; [tauto|].
      intros [H|[->|H]]; tauto.
    + assert (NoDup (acc ++ [y])) as Hacc'.
      { apply NoDup_app. split; [done|]. split; [|apply NoDup_singleton].
        intros z Hz Hz'. apply list_elem_of_singleton in Hz'. by subst. }
      destruct (IH _ Hacc') as (N & E). split; [done|]. intros x.
      rewrite E, elem_of_app, list_elem_of_singleton, elem_of_cons. tauto.
Qed.

Lemma unique_NoDup l : NoDup (unique l).
Proof. apply (unique_acc l []). constructor. Qed.

Lemma unique_elem l x : x ∈ unique l ↔ x ∈ l.
Proof.
  destruct (unique_acc l [] (NoDup_nil_2)) as (_ & E). unfold unique. rewrite E.
  split; [|by right]. intros [H|H]; [by apply elem_of_nil in H|done].
Qed.

Lemma mapM_fmap_Some {A B} (f : A → option B) (l : list A) (k : list B) :
  mapM f l = Some k → f <$> l = Some <$> k.
Proof.
  intros H. apply mapM_Some in H.
  induction H as [|x y l k Hxy _ IH]; [done|]. cbn. by rewrite Hxy, IH.
Qed.

Lemma mapM_elem {A B} (f : A → option B) (l : list A) (k : list B) x y :
  mapM f l = Some k → x ∈ l → f x = Some y → y ∈ k.
Proof.
  intros H Hx Hy. apply mapM_Some in H.
  induction H as [|x' y' l k Hxy _ IH]; [by apply elem_of_nil in Hx|].
  apply elem_of_cons in Hx as [->|Hx].
  - rewrite Hy in Hxy. injection Hxy as ->. left.
  - right. by apply IH.
Qed.

(** What [fetchAndProcessTafsirs] leaves in [tafsirLanguages] once the
    derivation has not raised. *)
Lemma fetchAndProcessTafsirs_languages net l tl t :
  net GetTafsirEditions = Resolved (JTafsirs l) →
  tafsirCatalogLanguages localeCompare engineSort (languages t) l = Some tl →
  tafsirLanguages (tabOf (fetchAndProcessTafsirs displayNames localeCompare engineSort net t))
  = tl.
Proof.
  intros Hn Htl. rewrite fetchAndProcessTafsirs_run. cbn zeta. rewrite Hn, Htl.
  destruct (filterRaises _ _ _); cbn [tabOf].
  - cbn [tafsirLanguages emit].
    match goal with |- context [reconciled ?x] =>
      destruct (reconciled_fields x) as (_ & R2 & _) end.
    by rewrite R2.
  - by destruct (processed_catalog displayNames tl l t) as (_ & P2 & _).
Qed.

(** X12.  After [fetchAndProcessTafsirs] on an index that passes the
    guard, the names of the language catalog being strings,
    [tafsirLanguages] has one entry for each distinct [language_name] of
    the index, built by [tafsirLanguageOf], and so never more entries
    than the index has editions. *)
Theorem tafsir_languages_one_per_name
    (net : Request → Reply) (l : list CdnTafsirEdition.t) (t : Tab) :
  net GetTafsirEditions = Resolved (JTafsirs l) →
  textNamed (languages t) →
  let t' := tabOf (fetchAndProcessTafsirs displayNames localeCompare engineSort net t) in
  ∃ names : list string,
    NoDup names
    ∧ (∀ n, n ∈ names ↔ ∃ e, e ∈ l ∧ CdnTafsirEdition.language_name e = n)
    ∧ Some <$> tafsirLanguages t' ≡ₚ tafsirLanguageOf (languages t) <$> names
    ∧ (length (tafsirLanguages t') ≤ length l)%nat.
Proof.
  intros Hn Htext. cbn zeta.
  destruct (tafsirCatalogLanguages_text localeCompare engineSort (languages t) l Htext)
    as (tl & Htl).
  rewrite (fetchAndProcessTafsirs_languages net l tl t Hn Htl).
  destruct (tafsirCatalogLanguages_sorted localeCompare engineSort _ _ _ Htl)
    as (mapped & Hm & -> & _).
  exists (unique (CdnTafsirEdition.language_name <$> l)).
  split; [apply unique_NoDup|]. split; [|split].
  - intros n. rewrite unique_elem, list_elem_of_fmap.
    split; intros (e & A & B); exists e; by split.
  - rewrite (mapM_fmap_Some _ _ _ Hm). by rewrite sortByName_perm.
  - rewrite sortByName_perm. apply length_mapM in Hm. rewrite <- Hm.
    rewrite <- (length_fmap CdnTafsirEdition.language_name l).
    apply submseteq_length, NoDup_submseteq; [apply unique_NoDup|].
    intros x. by rewrite unique_elem.
Qed.

Lemma findByName_found (langs : list Language.t) n lang :
  findByName n langs = Some (Some lang) →
  lang ∈ langs ∧ lowerName (Language.name lang) = Some (toLowerCase n).
Proof.
  induction langs as [|x langs IH]; cbn; [done|].
  destruct (lowerName (Language.name x)) as [lowered|] eqn:E; [|done].
  case_bool_decide as Hb.
  - intros [= <-]. split; [left|]. by rewrite E, Hb.
  - intros H. destruct (IH H) as (Hin & Hl). split; [by right|done].
Qed.

Lemma findByName_exists (langs : list Language.t) n :
  textNamed langs →
  (∃ lang, lang ∈ langs ∧ lowerName (Language.name lang) = Some (toLowerCase n)) →
  ∃ lang, findByName n langs = Some (Some lang).
Proof.
  intros Ht (lang & Hin & Hl).
  induction Ht as [|x langs Hx _ IH]; [by apply elem_of_nil in Hin|]. cbn.
  destruct (Language.name x) as [s|] eqn:E; [|done]. cbn.
  case_bool_decide as Hb; [by eexists|].
  apply elem_of_cons in Hin as [->|Hin]; [|by apply IH].
  rewrite E in Hl. cbn in Hl. by injection Hl as Hl.
Qed.

(** The name behind the code of a matched tafsir language is that
    language again. *)
Lemma matched_language_named (langs : list Language.t) n entry :
  namedBy displayNames langs →
  textNamed langs →
  (∀ lang, lang ∈ langs → truthy (Language.code lang) = true) →
  (∃ lang, lang ∈ langs ∧ lowerName (Language.name lang) = Some (toLowerCase n)) →
  tafsirLanguageOf langs n = Some entry →
  lowerName (getFullLanguageName displayNames (Language.code entry)) = Some (toLowerCase n).
Proof.
  intros Hnamed Htext Hcodes Hex Hentry.
  destruct (findByName_exists langs n Htext Hex) as (lang & Hf).
  destruct (findByName_found langs n lang Hf) as (Hin & Hl).
  unfold tafsirLanguageOf in Hentry. rewrite Hf in Hentry. cbn in Hentry.
  injection Hentry as <-. cbn [Language.code].
  unfold orElse. rewrite (Hcodes lang Hin). by rewrite <- (Hnamed lang Hin).
Qed.

Lemma processed_keeps_language tl t :
  QuranSettings.tafsirLanguage (settings t) ∈ Language.code <$> tl →
  reconciled (set_tafsirLanguages tl (emit (Requested GetTafsirEditions) t))
  = set_tafsirLanguages tl (emit (Requested GetTafsirEditions) t).
Proof.
  intros Hin. unfold reconciled. cbn [settings tafsirLanguages set_tafsirLanguages emit].
  apply existsb_hasCode in Hin. by rewrite Hin.
Qed.

(** X13.  Choosing a tafsir language that the language catalog knows by
    name.  Let [n] be a [language_name] of the index that equals, up to
    case, the name of a catalog language, the catalog being named by
    [getFullLanguageName] with strings for names and non-empty codes.
    Switching the tafsir language to the code listed for [n] does not
    raise, keeps that code, lists exactly the editions of the index
    whose [language_name] is [n] up to case, which are not none, and
    leaves a tafsir id that is one of them. *)
Theorem matched_tafsir_language_lists_its_editions
    (net : Request → Reply) (l : list CdnTafsirEdition.t) (n : string)
    (entry : Language.t) (t : Tab) :
  net GetTafsirEditions = Resolved (JTafsirs l) →
  namedBy displayNames (languages t) →
  textNamed (languages t) →
  (∀ lang, lang ∈ languages t → truthy (Language.code lang) = true) →
  n ∈ CdnTafsirEdition.language_name <$> l →
  (∃ lang, lang ∈ languages t ∧ lowerName (Language.name lang) = Some (toLowerCase n)) →
  tafsirLanguageOf (languages t) n = Some entry →
  let val := Language.code entry in
  let c := onTafsirLanguageChange displayNames localeCompare engineSort net val t in
  let t' := tabOf c in
  threw c = false
  ∧ QuranSettings.tafsirLanguage (settings t') = val
  ∧ tafsirEditions t'
    = tafsirAsEdition <$>
        filter (λ x, toLowerCase (CdnTafsirEdition.language_name x) = toLowerCase n) l
  ∧ tafsirEditions t' ≠ []
  ∧ tafsirValid t'.
Proof.
  intros Hn Hnamed Htext Hcodes Hin Hex Hentry. cbn zeta.
  pose proof (matched_language_named _ n entry Hnamed Htext Hcodes Hex Hentry) as Hname.
  set (val := Language.code entry) in *.
  set (t0 := persist (set_settings (set_tafsirLanguage val) t)).
  destruct (tafsirCatalogLanguages_text localeCompare engineSort (languages t) l Htext)
    as (tl & Htl).
  destruct (tafsirCatalogLanguages_sorted localeCompare engineSort _ _ _ Htl)
    as (mapped & Hm & Hs & _).
  assert (Hval : QuranSettings.tafsirLanguage (settings t0) ∈ Language.code <$> tl).
  { subst t0. cbn [settings persist set_settings set_tafsirLanguage
                   QuranSettings.tafsirLanguage].
    rewrite Hs, sortByName_perm. apply list_elem_of_fmap. exists entry. split; [done|].
    eapply mapM_elem; [exact Hm| |exact Hentry].
    by apply unique_elem. }
  assert (Hrun : fetchAndProcessTafsirs displayNames localeCompare engineSort net t0
                 = Normal tt (processed displayNames tl l t0)).
  { rewrite fetchAndProcessTafsirs_run. cbn zeta. rewrite Hn.
    change (languages t0) with (languages t). rewrite Htl.
    rewrite (processed_keeps_language tl t0 Hval).
    unfold filterRaises. destruct l as [|x l']; [done|].
    cbn [settings set_tafsirLanguages emit].
    change (QuranSettings.tafsirLanguage (settings t0)) with val.
    destruct (getFullLanguageName displayNames val); [done|discriminate Hname]. }
  rewrite tafsir_switch_run. fold t0. rewrite Hrun. cbn [tabOf threw].
  set (t1 := processed displayNames tl l t0).
  assert (Hkeep : QuranSettings.tafsirLanguage (settings t1) = val).
  { subst t1. unfold processed. rewrite (processed_keeps_language tl t0 Hval).
    match goal with |- context [selected ?x] =>
      destruct (selected_catalog x) as (_ & _ & _ & _ & S5 & _) end.
    by rewrite S5. }
  destruct (processed_catalog displayNames tl l t0) as (_ & _ & _ & P4). fold t1 in P4.
  rewrite Hkeep in P4. unfold matching in P4.
  rewrite (list_filter_iff _
             (λ x, toLowerCase (CdnTafsirEdition.language_name x) = toLowerCase n)) in P4.
  2:{ intros x. rewrite Hname. split; [by intros [= ->]|by intros ->]. }
  destruct (displayed_catalog t1) as (_ & _ & _ & D4 & D5 & _).
  assert (Hne : tafsirEditions t1 ≠ []).
  { rewrite P4. apply list_elem_of_fmap in Hin as (e & -> & He).
    intros Hnil. apply fmap_nil_inv in Hnil.
    assert (e ∈ filter (λ x, toLowerCase (CdnTafsirEdition.language_name x)
                             = toLowerCase (CdnTafsirEdition.language_name e)) l) as Hf
      by (by apply list_elem_of_filter).
    rewrite Hnil in Hf. by apply not_elem_of_nil in Hf. }
  rewrite D4, D5. repeat split; try done.
  apply displayed_valid. subst t1. by apply processed_valid.
Qed.

Lemma tafsir_switch_rejected net val t :
  noTafsirs (net GetTafsirEditions) →
  onTafsirLanguageChange displayNames localeCompare engineSort net val t
  = Thrown
      (emit (Noticed "Failed to fetch tafsir editions. Check your internet connection.")
        (emit (Requested GetTafsirEditions)
          (persist (set_settings (set_tafsirLanguage val) t)))).
Proof.
  intros Hn. rewrite tafsir_switch_run, fetchAndProcessTafsirs_run. cbn zeta.
  by destruct (net GetTafsirEditions) as [|[]].
Qed.

(** X14.  A tafsir language switch whose index fetch is rejected or
    malformed ends in an exception, after the new language has been
    saved: the settings differ from the old ones in the tafsir language
    only and are on disk, all four catalogs are as before, so the edition
    list still belongs to the old language, and the panel is not rebuilt.
    The switch adds the save, the request and one notice, in this
    order. *)
Theorem failed_tafsir_switch_keeps_old_editions
    (net : Request → Reply) (val : string) (t : Tab) :
  noTafsirs (net GetTafsirEditions) →
  let c := onTafsirLanguageChange displayNames localeCompare engineSort net val t in
  threw c = true
  ∧ settings (tabOf c) = set_tafsirLanguage val (settings t)
  ∧ stored (tabOf c) = settings (tabOf c)
  ∧ languages (tabOf c) = languages t
  ∧ tafsirLanguages (tabOf c) = tafsirLanguages t
  ∧ editions (tabOf c) = editions t
  ∧ tafsirEditions (tabOf c) = tafsirEditions t
  ∧ added t (tabOf c)
    = [Saved (set_tafsirLanguage val (settings t));
       Requested GetTafsirEditions;
       Noticed "Failed to fetch tafsir editions. Check your internet connection."].
Proof.
  intros Hn. cbn zeta. rewrite (tafsir_switch_rejected net val t Hn). cbn.
  repeat split; try done. apply added_app. cbn. by rewrite <- !app_assoc.
Qed.

(** X15.  A translation language switch whose editions fetch is rejected
    or malformed does not raise: the new language is kept and saved, the
    configured translation edition is unchanged, the list of editions is
    empty, one request was made and two notices were shown, the one of
    the fetch and the one of the switch. *)
Theorem failed_translation_switch_keeps_edition
    (net : Request → Reply) (val : string) (t : Tab) :
  noEditions (net (GetEditions val)) →
  let c := onTranslationLanguageChange net val t in
  let t' := tabOf c in
  threw c = false
  ∧ QuranSettings.language (settings t') = val
  ∧ QuranSettings.translation (settings t') = QuranSettings.translation (settings t)
  ∧ editions t' = []
  ∧ QuranSettings.language (stored t') = val
  ∧ requestsOf (added t t') = [GetEditions val]
  ∧ noticesOf (added t t')
    = ["Failed to fetch translations. Check your internet connection.";
       "Failed to auto-select translation. Check your internet connection."]%string.
Proof.
  intros Hn. cbn zeta.
  set (t1 := persist
    (emit (Noticed "Failed to auto-select translation. Check your internet connection.")
      (emit (Noticed "Failed to fetch translations. Check your internet connection.")
        (emit (Requested (GetEditions val))
          (set_editions [] (set_settings (set_language val) t)))))).
  assert (onTranslationLanguageChange net val t = Normal tt (displayed t1)) as ->.
  { unfold onTranslationLanguageChange, fetchTranslationEditions, editionsBody. run_M.
    cbn [settings set_editions set_settings set_language QuranSettings.language].
    destruct (net (GetEditions val)) as [|[]]; try done; cbn; by rewrite display_run. }
  cbn [tabOf threw].
  destruct (displayed_catalog t1) as (_ & _ & D3 & _).
  destruct (displayed_frame t1) as (F1 & F2 & _).
  destruct (displayed_locally t1) as (post & L & HL).
  assert (Hst : QuranSettings.language (stored (displayed t1)) = val).
  { unfold displayed, chooseFirst, cleared.
    destruct (tafsirEditions t1); [destruct (truthy _)|destruct (_ || _)]; done. }
  rewrite D3, F1, F2. repeat split; try done.
  - rewrite (added_app t _ ([Requested (GetEditions val);
      Noticed "Failed to fetch translations. Check your internet connection.";
      Noticed "Failed to auto-select translation. Check your internet connection.";
      Saved (settings t1)] ++ post)).
    + rewrite requestsOf_app, (requestsOf_local post) by done. done.
    + rewrite L. cbn. by rewrite <- !app_assoc.
  - rewrite (added_app t _ ([Requested (GetEditions val);
      Noticed "Failed to fetch translations. Check your internet connection.";
      Noticed "Failed to auto-select translation. Check your internet connection.";
      Saved (settings t1)] ++ post)).
    + rewrite noticesOf_app, (noticesOf_local post) by done. done.
    + rewrite L. cbn. by rewrite <- !app_assoc.
Qed.

(** Assignments to a plain object never reach the key [__proto__], and
    at every other key they are insertions. *)
Lemma options_fold_proto (l : list Edition.t) (m : gmap string string) :
  fold_left (λ m e, PlainObject.set (Edition.identifier e) (Edition.name e) m) l m
    !! "__proto__"%string
  = m !! "__proto__"%string.
Proof.
  revert m. induction l as [|e l IH]; intros m; cbn; [done|].
  rewrite IH. unfold PlainObject.set. case_bool_decide as Hp; [done|].
  by rewrite lookup_insert_ne.
Qed.

Lemma options_fold_insert (l : list Edition.t) (m m' : gmap string string) i :
  i ≠ "__proto__"%string → m !! i = m' !! i →
  fold_left (λ m e, PlainObject.set (Edition.identifier e) (Edition.name e) m) l m !! i
  = fold_left (λ m e, <[Edition.identifier e := Edition.name e]> m) l m' !! i.
Proof.
  intros Hi. revert m m'. induction l as [|e l IH]; intros m m' Hm; cbn; [done|].
  apply IH. unfold PlainObject.set. case_bool_decide as Hp.
  - rewrite lookup_insert_ne by congruence. done.
  - destruct (decide (Edition.identifier e = i)) as [<-|Hne].
    + by rewrite !lookup_insert_eq.
    + by rewrite !lookup_insert_ne.
Qed.

Lemma options_fold_notin (l : list Edition.t) (m : gmap string string) i :
  i ∉ Edition.identifier <$> l →
  fold_left (λ m e, <[Edition.identifier e := Edition.name e]> m) l m !! i = m !! i.
Proof.
  revert m. induction l as [|e l IH]; intros m Hi; cbn; [done|].
  rewrite fmap_cons in Hi. apply not_elem_of_cons in Hi as [Hne Hi].
  rewrite IH by done. by rewrite lookup_insert_ne.
Qed.

Lemma options_fold_NoDup (l : list Edition.t) (m : gmap string string) e :
  NoDup (Edition.identifier <$> l) → e ∈ l →
  fold_left (λ m e, <[Edition.identifier e := Edition.name e]> m) l m
    !! Edition.identifier e = Some (Edition.name e).
Proof.
  revert m. induction l as [|a l IH]; intros m Hnd Hin; [by apply not_elem_of_nil in Hin|].
  rewrite fmap_cons in Hnd. apply NoDup_cons in Hnd as [Ha Hnd].
  cbn. apply elem_of_cons in Hin as [->|Hin].
  - rewrite options_fold_notin by done. apply lookup_insert_eq.
  - by apply IH.
Qed.

(** An own property of the options object is the name of an edition
    with that identifier. *)
Lemma optionsOf_lookup (l : list Edition.t) i n :
  optionsOf l !! i = Some n →
  i ≠ "__proto__"%string ∧ i ∈ Edition.identifier <$> l.
Proof.
  intros H. assert (Hi : i ≠ "__proto__"%string).
  { intros ->. unfold optionsOf in H. by rewrite options_fold_proto, lookup_empty in H. }
  split; [done|]. unfold optionsOf in H.
  rewrite (options_fold_insert l ∅ ∅ i Hi eq_refl) in H.
  destruct (decide (i ∈ Edition.identifier <$> l)) as [Hin|Hnot]; [done|].
  by rewrite (options_fold_notin l ∅ i Hnot), lookup_empty in H.
Qed.

Lemma find_identifier_NoDup (l : list Edition.t) e :
  NoDup (Edition.identifier <$> l) → e ∈ l →
  find (hasIdentifier (Edition.identifier e)) l = Some e.
Proof.
  induction l as [|a l IH]; intros Hnd Hin; [by apply not_elem_of_nil in Hin|].
  rewrite fmap_cons in Hnd. apply NoDup_cons in Hnd as [Ha Hnd].
  cbn. unfold hasIdentifier at 1. apply elem_of_cons in Hin as [->|Hin].
  - by rewrite bool_decide_eq_true_2.
  - rewrite bool_decide_eq_false_2; [by apply IH|].
    intros Heq. apply Ha. rewrite Heq. apply list_elem_of_fmap. by exists e.
Qed.

(** X16.  Choosing an entry of the tafsir edition dropdown.  When the
    identifiers of the tafsir catalog are pairwise distinct and the entry
    for [val] carries the non-empty label [label], the handler sets the
    tafsir id to [val] and the tafsir name to [label], changes nothing
    else in the settings, saves them, and adds nothing but this save to
    the log; the id then belongs to the catalog. *)
Theorem tafsir_edition_choice_saves_its_label (val label : string) (t : Tab) :
  NoDup (Edition.identifier <$> tafsirEditions t) →
  optionsOf (tafsirEditions t) !! val = Some label →
  truthy label = true →
  let t' := tabOf (onTafsirEditionChange val t) in
  settings t'
  = set_tafsirName label (set_tafsir val (settings t))
  ∧ stored t' = settings t'
  ∧ tafsirValid t'
  ∧ added t t' = [Saved (settings t')].
Proof.
  intros Hnd Hl Ht. cbn zeta.
  destruct (optionsOf_lookup _ _ _ Hl) as (Hp & Hin).
  apply list_elem_of_fmap in Hin as (e & -> & He).
  unfold optionsOf in Hl.
  rewrite (options_fold_insert _ ∅ ∅ _ Hp eq_refl) in Hl.
  rewrite (options_fold_NoDup _ _ e Hnd He) in Hl.
  injection Hl as <-.
  unfold onTafsirEditionChange. run_M. cbn.
  rewrite (find_identifier_NoDup _ e Hnd He). cbn.
  unfold orElse. rewrite Ht. repeat split.
  - unfold tafsirValid. cbn. apply list_elem_of_fmap. by exists e.
  - by apply added_app.
Qed.

(** X17.  Rebuilding the panel settles at once: a second [display] right
    after a first changes neither the settings, nor what is on disk, nor
    the tafsir catalog. *)
Theorem display_settles (t : Tab) :
  let t1 := tabOf (display t) in
  let t2 := tabOf (display t1) in
  settings t2 = settings t1
  ∧ stored t2 = stored t1
  ∧ tafsirEditions t2 = tafsirEditions t1.
Proof.
  cbn zeta. rewrite !display_run. cbn [tabOf].
  destruct (displayed_catalog (displayed t)) as (_ & _ & _ & D4 & _).
  split; [|split; [|done]].
  - unfold displayed, chooseFirst, cleared.
    destruct (tafsirEditions t) as [|first eds] eqn:E.
    + destruct (truthy (QuranSettings.tafsir (settings t))) eqn:T1;
        cbn [settings stored tafsirEditions emit persist set_settings set_tafsir
             set_tafsirName QuranSettings.tafsir]; rewrite E.
      * done.
      * by rewrite T1.
    + destruct (_ || _) eqn:T1;
        cbn [settings stored tafsirEditions emit persist set_settings set_tafsir
             set_tafsirName QuranSettings.tafsir]; rewrite E.
      * clear T1. destruct (_ || _); reflexivity.
      * by rewrite T1.
  - unfold displayed, chooseFirst, cleared.
    destruct (tafsirEditions t) as [|first eds] eqn:E.
    + destruct (truthy (QuranSettings.tafsir (settings t))) eqn:T1;
        cbn [settings stored tafsirEditions emit persist set_settings set_tafsir
             set_tafsirName QuranSettings.tafsir]; rewrite E.
      * done.
      * by rewrite T1.
    + destruct (_ || _) eqn:T1;
        cbn [settings stored tafsirEditions emit persist set_settings set_tafsir
             set_tafsirName QuranSettings.tafsir]; rewrite E.
      * clear T1. destruct (_ || _); reflexivity.
      * by rewrite T1.
Qed.

(** X21.  Of the calls that reach the network from the settings panel,
    only the tafsir language switch can end in an exception.  A refresh
    and a translation language switch absorb every failure of their
    fetches.  The tafsir language switch raises exactly in three cases:
    its index fetch is rejected or its body is turned down; deriving the
    tafsir languages raises, which needs a catalog language whose name
    is no string; or the index is not empty and the tafsir language it
    ends up with (the chosen one if the derived list has it, else the
    replacement) is, up to case, [constructor] or [__proto__]. *)
Theorem only_the_tafsir_switch_raises (net : Request → Reply) (val : string) (t : Tab) :
  threw (fetchMetadata displayNames localeCompare engineSort net t) = false
  ∧ threw (onTranslationLanguageChange net val t) = false
  ∧ (threw (onTafsirLanguageChange displayNames localeCompare engineSort net val t) = true
     ↔ noTafsirs (net GetTafsirEditions)
       ∨ ∃ l, net GetTafsirEditions = Resolved (JTafsirs l)
              ∧ match tafsirCatalogLanguages localeCompare engineSort (languages t) l with
                | None => True
                | Some tl =>
                    l ≠ []
                    ∧ toLowerCase (if bool_decide (val ∈ Language.code <$> tl) then val
                                   else replacementLanguage tl)
                      ∈ inheritedLower
                end)
  ∧ (textNamed (languages t) →
     ∀ l, is_Some (tafsirCatalogLanguages localeCompare engineSort (languages t) l)).
Proof.
  split; [|split; [|split]].
  - rewrite fetchMetadata_run. by destruct (isLoadingMetadata t).
  - destruct (translation_switch_run net val t) as (t1 & -> & _). done.
  - rewrite tafsir_switch_run, fetchAndProcessTafsirs_run. cbn zeta.
    destruct (net GetTafsirEditions) as [|[| |l|]] eqn:Et;
      try (split; [by left|done]).
    cbn [languages persist set_settings].
    destruct (tafsirCatalogLanguages _ _ _ _) as [tl|] eqn:Etl.
    2:{ split; [|done]. intros _. right. exists l. by rewrite Etl. }
    set (t2 := reconciled _).
    assert (Hlang : QuranSettings.tafsirLanguage (settings t2)
                    = if bool_decide (val ∈ Language.code <$> tl) then val
                      else replacementLanguage tl).
    { subst t2. unfold reconciled.
      cbn [settings tafsirLanguages set_tafsirLanguages emit persist set_settings
           set_tafsirLanguage QuranSettings.tafsirLanguage].
      destruct (existsb _ _) eqn:E.
      - apply existsb_hasCode in E. by rewrite bool_decide_eq_true_2.
      - rewrite bool_decide_eq_false_2; [done|]. intros Hin.
        apply existsb_hasCode in Hin. congruence. }
    assert (Hraise : filterRaises displayNames l t2 = true
                     ↔ l ≠ [] ∧ toLowerCase (QuranSettings.tafsirLanguage (settings t2))
                                ∈ inheritedLower).
    { unfold filterRaises. destruct l as [|x l']; [split; [done|by intros [? _]]|].
      rewrite getFullLanguageName_isText, negb_involutive.
      rewrite bool_decide_eq_true. split; [by intros ?|by intros [_ ?]]. }
    rewrite Hlang in Hraise.
    destruct (filterRaises _ _ _); cbn [threw].
    + split; [|done]. intros _. right. exists l. rewrite Etl. split; [done|].
      by apply Hraise.
    + split; [done|]. intros [[]|(l' & [= <-] & H)]. rewrite Etl in H.
      by apply Hraise in H.
  - intros Htext l. by apply tafsirCatalogLanguages_text.
Qed.

End SettingsPanelFacts.

(** ** The settings panel on the sample environment *)

Section SettingsPanelRuns.

Import MetadataResolver SettingsPanel.

Lemma refresh_calls_stop_at_first_failure_witness :
  requestsOf (added Sample.fresh
    (tabOf (fetchMetadata Sample.names Sample.order Sample.engine Sample.offline Sample.fresh)))
  = [GetLanguages].
Proof.
  destruct (refresh_calls_stop_at_first_failure Sample.names Sample.order Sample.engine
              Sample.offline Sample.fresh eq_refl) as (_ & H & _).
  apply H. reflexivity.
Defined.

Lemma failed_refresh_keeps_unfetched_catalogs_witness :
  let t' := tabOf (fetchMetadata Sample.names Sample.order Sample.engine
                     Sample.offline Sample.loaded) in
  languages t' = languages Sample.loaded
  ∧ tafsirEditions t' = tafsirEditions Sample.loaded
  ∧ length (noticesOf (added Sample.loaded t')) = 2%nat.
Proof.
  destruct (failed_refresh_keeps_unfetched_catalogs Sample.names Sample.order Sample.engine
              Sample.offline Sample.loaded eq_refl) as (H & _).
  destruct (H I) as (H1 & _ & _ & H4 & H5).
  split; [exact H1|]. split; [exact H4|]. cbn zeta. rewrite H5. reflexivity.
Defined.

Lemma empty_tafsir_catalog_erases_selection_witness :
  let t' := tabOf (fetchMetadata Sample.names Sample.order Sample.engine
                     Sample.offline Sample.fresh) in
  QuranSettings.tafsir (settings Sample.fresh) = "en-tafisr-ibn-kathir"%string
  ∧ QuranSettings.tafsir (settings t') = String.EmptyString
  ∧ QuranSettings.tafsir (stored t') = String.EmptyString.
Proof.
  destruct (empty_tafsir_catalog_erases_selection Sample.names Sample.order Sample.engine
              Sample.offline Sample.fresh eq_refl eq_refl) as (H1 & H2).
  destruct (H2 eq_refl) as (_ & H3).
  split; [reflexivity|]. split; [exact H1|]. cbn zeta. rewrite H3. exact H1.
Defined.

Lemma fetched_languages_listed_once_in_name_order_witness :
  let t' := tabOf (fetchLanguages Sample.names Sample.order Sample.engine
                     Sample.online Sample.fresh) in
  Language.code <$> languages t' ≡ₚ ["fr"; "en"; "ar"]%string
  ∧ Sorted (nameLe Sample.order) (languages t').
Proof.
  assert (Hcodes : ∀ c, c ∈ lr_data Sample.languageCodes → toLowerCase c ∉ inheritedLower).
  { intros c Hc. cbn in Hc. unfold inheritedLower.
    repeat (apply elem_of_cons in Hc as [->|Hc];
            [intros H; cbn in H;
             repeat (apply elem_of_cons in H as [H|H]; [discriminate H|]);
             by apply elem_of_nil in H|]).
    by apply elem_of_nil in Hc. }
  destruct (fetched_languages_listed_once_in_name_order Sample.names Sample.order
              Sample.engine Sample.online Sample.languageCodes Sample.fresh
              order_total eq_refl Hcodes)
    as (_ & H1 & _ & _ & H3).
  split; [exact H1|exact H3].
Defined.

Lemma loaded_languages :
  languages Sample.loaded
  = [ {| Language.code := "ar"; Language.name := Text "Arabic" |};
      {| Language.code := "en"; Language.name := Text "English" |};
      {| Language.code := "fr"; Language.name := Text "French" |} ].
Proof. reflexivity. Qed.

Lemma loaded_textNamed : textNamed (languages Sample.loaded).
Proof. rewrite loaded_languages. by repeat constructor. Qed.

Lemma tafsir_languages_one_per_name_witness :
  (length (tafsirLanguages
     (tabOf (fetchAndProcessTafsirs Sample.names Sample.order Sample.engine
               Sample.online Sample.loaded)))
   ≤ 4)%nat.
Proof.
  destruct (tafsir_languages_one_per_name Sample.names Sample.order Sample.engine
              Sample.online Sample.tafsirIndex Sample.loaded eq_refl loaded_textNamed)
    as (names & _ & _ & _ & H).
  exact H.
Defined.

Lemma matched_tafsir_language_lists_its_editions_witness :
  let t' := tabOf (onTafsirLanguageChange Sample.names Sample.order Sample.engine
                     Sample.online "ar" Sample.loaded) in
  QuranSettings.tafsirLanguage (settings t') = "ar"%string
  ∧ tafsirEditions t' ≠ []
  ∧ tafsirValid t'.
Proof.
  assert (Hnamed : namedBy Sample.names (languages Sample.loaded)).
  { intros lang Hin. rewrite loaded_languages in Hin.
    repeat (apply elem_of_cons in Hin as [->|Hin]; [reflexivity|]).
    by apply elem_of_nil in Hin. }
  assert (Hcodes : ∀ lang, lang ∈ languages Sample.loaded →
                           truthy (Language.code lang) = true).
  { intros lang Hin. rewrite loaded_languages in Hin.
    repeat (apply elem_of_cons in Hin as [->|Hin]; [reflexivity|]).
    by apply elem_of_nil in Hin. }
  assert (Hin : "arabic"%string ∈ CdnTafsirEdition.language_name <$> Sample.tafsirIndex).
  { cbn. right. left. }
  assert (Hex : ∃ lang, lang ∈ languages Sample.loaded
                  ∧ lowerName (Language.name lang) = Some (toLowerCase "arabic")).
  { exists {| Language.code := "ar"; Language.name := Text "Arabic" |}.
    split; [rewrite loaded_languages; left|reflexivity]. }
  destruct (matched_tafsir_language_lists_its_editions Sample.names Sample.order
              Sample.engine Sample.online Sample.tafsirIndex "arabic"
              {| Language.code := "ar"; Language.name := Text "Arabic" |} Sample.loaded
              eq_refl Hnamed loaded_textNamed Hcodes Hin Hex eq_refl)
    as (_ & H1 & _ & H3 & H4).
  split; [exact H1|]. split; [exact H3|exact H4].
Defined.

Lemma failed_tafsir_switch_keeps_old_editions_witness :
  let c := onTafsirLanguageChange Sample.names Sample.order Sample.engine Sample.offline
             "ar" Sample.loaded in
  threw c = true
  ∧ QuranSettings.tafsirLanguage (stored (tabOf c)) = "ar"%string
  ∧ tafsirEditions (tabOf c) = tafsirEditions Sample.loaded.
Proof.
  destruct (failed_tafsir_switch_keeps_old_editions Sample.names Sample.order Sample.engine
              Sample.offline "ar" Sample.loaded I)
    as (H1 & H2 & H3 & _ & _ & _ & H7 & _).
  split; [exact H1|]. split; [|exact H7].
  cbn zeta. rewrite H3, H2. reflexivity.
Defined.

Lemma failed_translation_switch_keeps_edition_witness :
  let t' := tabOf (onTranslationLanguageChange Sample.offline "fr" Sample.loaded) in
  QuranSettings.language (settings t') = "fr"%string
  ∧ QuranSettings.translation (settings t') = "en.itani"%string
  ∧ editions t' = [].
Proof.
  destruct (failed_translation_switch_keeps_edition Sample.offline "fr" Sample.loaded I)
    as (_ & H2 & H3 & H4 & _).
  split; [exact H2|]. split; [|exact H4]. cbn zeta. rewrite H3. reflexivity.
Defined.

Lemma tafsir_edition_choice_saves_its_label_witness :
  let t' := tabOf (onTafsirEditionChange "en-tafsir-maarif-ul-quran" Sample.loaded) in
  QuranSettings.tafsir (settings t') = "en-tafsir-maarif-ul-quran"%string
  ∧ QuranSettings.tafsirName (settings t') = "Maarif-ul-Quran"%string
  ∧ stored t' = settings t'.
Proof.
  assert (Hnd : NoDup (Edition.identifier <$> tafsirEditions Sample.loaded)).
  { apply (bool_decide_unpack _). vm_compute. exact I. }
  destruct (tafsir_edition_choice_saves_its_label "en-tafsir-maarif-ul-quran"
              "Maarif-ul-Quran" Sample.loaded Hnd eq_refl eq_refl)
    as (H1 & H2 & _).
  cbn zeta. rewrite H2, H1. repeat split.
Defined.

Lemma only_the_tafsir_switch_raises_witness :
  threw (onTafsirLanguageChange Sample.names Sample.order Sample.engine Sample.offline
           "ar" Sample.loaded) = true
  ∧ is_Some (tafsirCatalogLanguages Sample.order Sample.engine (languages Sample.loaded)
               Sample.tafsirIndex).
Proof.
  destruct (only_the_tafsir_switch_raises Sample.names Sample.order Sample.engine
              Sample.offline "ar" Sample.loaded) as (_ & _ & H3 & H4).
  split; [apply H3; left; exact I|apply H4, loaded_textNamed].
Defined.

End SettingsPanelRuns.

(** ** Type guards *)

Section GuardFacts.

Import JsValues Guards.

(** X18.  The type guards tell the three kinds of body apart.  A body
    that [isCdnTafsirEditionArray] accepts is accepted by neither
    [isLanguageResponse] nor [isEditionResponse]; a body accepted by both
    of these has an empty [data] array. *)
Theorem guards_tell_replies_apart (j : JsonValue) :
  (isCdnTafsirEditionArray j = true →
     isLanguageResponse j = false ∧ isEditionResponse j = false)
  ∧ (isLanguageResponse j = true → isEditionResponse j = true →
     field "data" j = Some (JArray [])).
Proof.
  split.
  - unfold isCdnTafsirEditionArray, everyOf. by destruct j.
  - unfold isLanguageResponse, isEditionResponse, everyOf. intros Hl He.
    apply andb_true_iff in Hl as [_ Hl]. apply andb_true_iff in He as [_ He].
    destruct (field "data" j) as [[| | | | |l|]|]; try done.
    destruct l as [|x l]; [done|]. cbn in Hl, He.
    apply andb_true_iff in Hl as [Hx _]. apply andb_true_iff in He as [Hx' _].
    apply bool_decide_eq_true in Hx. destruct x; try done.
Qed.

End GuardFacts.

(** ** Colours *)

Section ColorFacts.

Import Colors.

Variable computedColor : string → string.

Lemma hexUintDigits_consHex r d :
  (r < 16)%N → hexUintDigits (consHex r d) = r :: hexUintDigits d.
Proof.
  intros Hr.
  assert (Hc : r ∈ [0; 1; 2; 3; 4; 5; 6; 7; 8; 9; 10; 11; 12; 13; 14; 15]%N).
  { destruct r as [|p]; [by left|].
    do 5 (destruct p as [p|p|]; try lia; try (solve [repeat first [by left|right]])). }
  repeat (apply elem_of_cons in Hc as [->|Hc]; [reflexivity|]).
  by apply elem_of_nil in Hc.
Qed.

Lemma hexUintDigits_revapp d d' :
  hexUintDigits (Hexadecimal.revapp d d') = reverse (hexUintDigits d) ++ hexUintDigits d'.
Proof.
  revert d'. induction d; intros d'; simpl; [done|..];
    rewrite IHd, reverse_cons, <- app_assoc; done.
Qed.

Lemma to_lu_sixteenfold_add p r :
  (r < 16)%N →
  HexadecimalPos.Unsigned.to_lu (16 * Npos p + r)
  = consHex r (HexadecimalPos.Unsigned.to_lu (Npos p)).
Proof.
  intros Hr.
  assert (Hc : r ∈ [0; 1; 2; 3; 4; 5; 6; 7; 8; 9; 10; 11; 12; 13; 14; 15]%N).
  { destruct r as [|q]; [by left|].
    do 5 (destruct q as [q|q|]; try lia; try (solve [repeat first [by left|right]])). }
  pose proof (HexadecimalPos.Unsigned.to_lhex_tenfold p) as H16.
  repeat (apply elem_of_cons in Hc as [->|Hc];
    [ rewrite N.add_comm, HexadecimalPos.Unsigned.Nadd_alt;
      cbv [N.to_nat Pos.to_nat Pos.iter_op Init.Nat.add Nat.iter nat_rect];
      rewrite ?HexadecimalPos.Unsigned.to_lu_succ, H16; reflexivity |]).
  by apply elem_of_nil in Hc.
Qed.

Lemma hexDigits_sixteenfold_add q r :
  (0 < q)%N → (r < 16)%N →
  hexDigits (16 * q + r) = hexDigits q ++ [r].
Proof.
  intros Hq Hr. destruct q as [|p]; [lia|].
  unfold hexDigits.
  destruct (16 * N.pos p + r)%N as [|p'] eqn:E; [lia|].
  unfold N.to_hex_uint, Pos.to_hex_uint.
  change (Pos.to_little_hex_uint p') with (HexadecimalPos.Unsigned.to_lu (N.pos p')).
  rewrite <- E, to_lu_sixteenfold_add by done.
  change (Pos.to_little_hex_uint p) with (HexadecimalPos.Unsigned.to_lu (N.pos p)).
  unfold Hexadecimal.rev.
  rewrite !hexUintDigits_revapp, hexUintDigits_consHex by done.
  rewrite reverse_cons. simpl. by rewrite !app_nil_r.
Qed.

Lemma toInt32_small z : -2 ^ 31 ≤ z < 2 ^ 31 → toInt32 z = z.
Proof. intros H. unfold toInt32. rewrite Z.mod_small; lia. Qed.

Lemma shl_small x k :
  0 ≤ k → 0 ≤ x → x * 2 ^ k < 2 ^ 31 → shl x k = x * 2 ^ k.
Proof.
  intros Hk Hx Hb. unfold shl.
  assert (0 < 2 ^ k) by (apply Z.pow_pos_nonneg; lia).
  rewrite (toInt32_small x) by nia.
  rewrite Z.shiftl_mul_pow2 by done. apply toInt32_small. nia.
Qed.

(** The digits of a colour word: a leading 1 and two digits for each of
    the three components. *)
Lemma hexDigits_colour r g b :
  0 ≤ r ≤ 255 → 0 ≤ g ≤ 255 → 0 ≤ b ≤ 255 →
  hexDigits (Z.to_N (2 ^ 24 + r * 2 ^ 16 + g * 2 ^ 8 + b))
  = [1%N; Z.to_N (r / 16); Z.to_N (r mod 16); Z.to_N (g / 16); Z.to_N (g mod 16);
     Z.to_N (b / 16); Z.to_N (b mod 16)].
Proof.
  intros Hr Hg Hb.
  pose proof (Z.div_mod r 16 ltac:(lia)) as Er.
  pose proof (Z.div_mod g 16 ltac:(lia)) as Eg.
  pose proof (Z.div_mod b 16 ltac:(lia)) as Eb.
  pose proof (Z.mod_pos_bound r 16 ltac:(lia)) as Br.
  pose proof (Z.mod_pos_bound g 16 ltac:(lia)) as Bg.
  pose proof (Z.mod_pos_bound b 16 ltac:(lia)) as Bb.
  assert (0 ≤ r / 16 < 16) as Qr by (split; [apply Z.div_pos; lia|apply Z.div_lt_upper_bound; lia]).
  assert (0 ≤ g / 16 < 16) as Qg by (split; [apply Z.div_pos; lia|apply Z.div_lt_upper_bound; lia]).
  assert (0 ≤ b / 16 < 16) as Qb by (split; [apply Z.div_pos; lia|apply Z.div_lt_upper_bound; lia]).
  set (r1 := Z.to_N (r / 16)). set (r0 := Z.to_N (r mod 16)).
  set (g1 := Z.to_N (g / 16)). set (g0 := Z.to_N (g mod 16)).
  set (b1 := Z.to_N (b / 16)). set (b0 := Z.to_N (b mod 16)).
  assert (Z.to_N (2 ^ 24 + r * 2 ^ 16 + g * 2 ^ 8 + b)
          = (16 * (16 * (16 * (16 * (16 * (16 * 1 + r1) + r0) + g1) + g0) + b1) + b0)%N) as ->.
  { subst r1 r0 g1 g0 b1 b0. lia. }
  rewrite !hexDigits_sixteenfold_add by (subst r1 r0 g1 g0 b1 b0; lia).
  reflexivity.
Qed.

Lemma toString16_pos z : 0 < z → toString16 z = hexChar <$> hexDigits (Z.to_N z).
Proof. intros H. destruct z; try lia. done. Qed.

(** X19.  [resolveColor] on a theme variable.  For a colour starting
    with [var(] whose computed colour contains at least three runs of
    digits, the first three having values [r], [g] and [b] of at most
    255, the result is [#] followed by two lower-case hexadecimal digits
    for each of [r], [g] and [b]; further runs, such as an alpha
    component, are ignored. *)
Theorem resolveColor_of_theme_variable (color : string) (r g b : Z) (rest : list Z) :
  startsWith "var(" color = true →
  parseInt <$> digitRuns (computedColor color) = r :: g :: b :: rest →
  0 ≤ r ≤ 255 → 0 ≤ g ≤ 255 → 0 ≤ b ≤ 255 →
  resolveColor computedColor color = "#" +:+ hexByte r +:+ hexByte g +:+ hexByte b.
Proof.
  intros Hv Hruns Hr Hg Hb. unfold resolveColor. rewrite Hv.
  destruct (digitRuns (computedColor color)) as [|m0 [|m1 [|m2 l]]]; try done.
  cbn in Hruns. injection Hruns as -> -> -> _.
  rewrite (shl_small 1 24), (shl_small _ 16), (shl_small _ 8) by lia.
  rewrite toString16_pos by lia.
  change (1 * 2 ^ 24) with (2 ^ 24).
  rewrite hexDigits_colour by done. reflexivity.
Qed.

(** X20.  Whatever the colour and whatever the browser computes for it,
    [resolveColor] returns a string that starts with [#]. *)
Theorem resolveColor_starts_with_hash (color : string) :
  startsWith "#" (resolveColor computedColor color) = true.
Proof.
  unfold resolveColor.
  assert (startsWith "#" (if startsWith "#" color then color else "#000000"%string) = true)
    as Hplain by (destruct (startsWith "#" color) eqn:E; done).
  destruct (startsWith "var(" color); [|done].
  destruct (digitRuns _) as [|m0 [|m1 [|m2 l]]]; try done.
  cbn. by destruct (drop 1 _).
Qed.

End ColorFacts.

Lemma resolveColor_of_theme_variable_witness :
  Colors.resolveColor (λ _, "rgb(72, 54, 153)"%string) "var(--interactive-accent)"
  = "#483699"%string.
Proof.
  apply (resolveColor_of_theme_variable (λ _, "rgb(72, 54, 153)"%string)
           "var(--interactive-accent)" 72 54 153 []); [reflexivity|reflexivity|lia..].
Defined.
